(** * Admin proxy for product registrations: model of [save.js]

    A shallow embedding of the authentication gate ([adminAuth]), the date
    normalizer ([normalizeDate]), the record mapper, the import and export
    handlers and the other endpoints of [save.js], followed by the properties
    proved about them.

    JavaScript strings are represented by Rocq strings holding their UTF-8
    encoding.  The numbers of a row are integers (spreadsheet serials,
    counters), on which every arithmetic step of the source is exact; what the
    date normalizer does with a number that is not an integer is modelled on
    the doubles themselves, in the module [Double]. *)

From Stdlib Require Import ZArith List String Ascii Bool Lia Floats.
From stdpp Require Import base option list strings gmap fin_maps.

Local Open Scope string_scope.
Local Open Scope Z_scope.

(** ** JavaScript strings *)

Module JS.

(** Code of a byte. *)
Definition code (c : ascii) : N := N_of_ascii c.

Definition is_upper (c : ascii) : bool := ((65 <=? code c) && (code c <=? 90))%N.

Definition is_digit (c : ascii) : bool := ((48 <=? code c) && (code c <=? 57))%N.

Definition lower_char (c : ascii) : ascii :=
  if is_upper c then ascii_of_N (code c + 32) else c.

(** [String.prototype.toLowerCase].  Only the letters A-Z are mapped.  The
    source compares the lowered string with ['bearer'], ['admin'] and
    ['.csv'] only; the sole characters outside ASCII whose lower case is an
    ASCII letter alone is U+212A (to [k]), which none of these words holds, so
    the comparisons decide the same strings as in JavaScript. *)
Fixpoint toLowerCase (s : string) : string :=
  match s with
  | EmptyString => EmptyString
  | String c r => String (lower_char c) (toLowerCase r)
  end.

(** [s.split(sep)] for a separator of one character: never the empty list. *)
Fixpoint split (sep : ascii) (s : string) : list string :=
  match s with
  | EmptyString => [EmptyString]
  | String c r =>
      if Ascii.eqb c sep then EmptyString :: split sep r
      else match split sep r with
           | w :: ws => String c w :: ws
           | [] => [String c EmptyString]
           end
  end.

(** [s.includes(c)] for one character. *)
Fixpoint has_char (c : ascii) (s : string) : bool :=
  match s with
  | EmptyString => false
  | String a r => Ascii.eqb a c || has_char c r
  end.

(** The UTF-8 encodings of the code points that [String.prototype.trim]
    removes: WhiteSpace and LineTerminator of ECMAScript. *)
Definition bytes (l : list N) : string :=
  fold_right (fun n s => String (ascii_of_N n) s) EmptyString l.

Definition white_space : list string :=
  map bytes
    [ [9]; [10]; [11]; [12]; [13]; [32];
      [194; 160];                       (* U+00A0 *)
      [225; 154; 128];                  (* U+1680 *)
      [226; 128; 128]; [226; 128; 129]; [226; 128; 130]; [226; 128; 131];
      [226; 128; 132]; [226; 128; 133]; [226; 128; 134]; [226; 128; 135];
      [226; 128; 136]; [226; 128; 137]; [226; 128; 138];   (* U+2000-200A *)
      [226; 128; 168]; [226; 128; 169]; (* U+2028, U+2029 *)
      [226; 128; 175];                  (* U+202F *)
      [226; 129; 159];                  (* U+205F *)
      [227; 128; 128];                  (* U+3000 *)
      [239; 187; 191] ]%N.              (* U+FEFF *)

Fixpoint strip_prefix (p s : string) : option string :=
  match p, s with
  | EmptyString, _ => Some s
  | String a p', String b s' => if Ascii.eqb a b then strip_prefix p' s' else None
  | String _ _, EmptyString => None
  end.

(** The rest of [s] after one leading white space character, if it has one. *)
Fixpoint strip_one (ws : list string) (s : string) : option string :=
  match ws with
  | [] => None
  | w :: ws' =>
      match strip_prefix w s with
      | Some r => Some r
      | None => strip_one ws' s
      end
  end.

Fixpoint trim_start_fuel (fuel : nat) (ws : list string) (s : string) : string :=
  match fuel with
  | O => s
  | S f =>
      match strip_one ws s with
      | Some r => trim_start_fuel f ws r
      | None => s
      end
  end.

Definition trimStart_with (ws : list string) (s : string) : string :=
  trim_start_fuel (String.length s) ws s.

Definition rev_string (s : string) : string :=
  string_of_list_ascii (rev (list_ascii_of_string s)).

Definition trimStart (s : string) : string := trimStart_with white_space s.

Definition trimEnd (s : string) : string :=
  rev_string (trimStart_with (map rev_string white_space) (rev_string s)).

(** [String.prototype.trim]. *)
Definition trim (s : string) : string := trimEnd (trimStart s).

(** [s.padStart(2, '0')]. *)
Definition padStart2 (s : string) : string :=
  match String.length s with
  | O => "00" ++ s
  | S O => "0" ++ s
  | _ => s
  end.

(** [s.slice(0, n)]. *)
Definition slice0 (n : nat) (s : string) : string := String.substring 0 n s.

Fixpoint ends_with_fuel (fuel : nat) (suffix s : string) : bool :=
  if String.eqb suffix s then true
  else match fuel, s with
       | S f, String _ r => ends_with_fuel f suffix r
       | _, _ => false
       end.

(** [s.endsWith(suffix)]. *)
Definition endsWith (suffix s : string) : bool :=
  ends_with_fuel (String.length s) suffix s.

(** The check of a header value by [res.setHeader]: the value is refused when
    one of its characters is not a tab, a printable ASCII character or a
    character from U+0080 to U+00FF.  In UTF-8 the latter are the sequences of
    two bytes that start with C2 or C3. *)
Fixpoint header_chars_ok (s : string) : bool :=
  match s with
  | EmptyString => true
  | String c r =>
      if ((code c =? 9) || ((32 <=? code c) && (code c <=? 126)))%N then header_chars_ok r
      else if ((code c =? 194) || (code c =? 195))%N then
        match r with
        | String c' r' => ((128 <=? code c') && (code c' <=? 191))%N && header_chars_ok r'
        | EmptyString => false
        end
      else false
  end.

(** The message of the TypeError that [res.setHeader] throws for the header
    [name]; it holds the name between double quotes. *)
Definition invalid_header_message (name : string) : string :=
  "Invalid character in header content [" ++ String (ascii_of_N 34) name
    ++ String (ascii_of_N 34) "]".

(** Decimal digits of a natural number, most significant first. *)
Fixpoint digits_fuel (fuel : nat) (n : Z) (acc : string) : string :=
  match fuel with
  | O => acc
  | S f =>
      let acc' := String (ascii_of_N (48 + Z.to_N (n mod 10))) acc in
      if n <? 10 then acc' else digits_fuel f (n / 10) acc'
  end.

Definition nat_digits (n : Z) : string :=
  digits_fuel (S (Z.to_nat (Z.log2 n))) n EmptyString.

(** [String(n)] for an integer number [n] (below 10^21 in size, where
    JavaScript prints every digit). *)
Definition number_toString (n : Z) : string :=
  if n <? 0 then "-" ++ nat_digits (- n) else nat_digits n.

(** [Number(s)] for a string of decimal digits. *)
Fixpoint number_of_digits_acc (acc : Z) (s : string) : Z :=
  match s with
  | EmptyString => acc
  | String c r => number_of_digits_acc (10 * acc + (Z.of_N (code c) - 48)) r
  end.

Definition number_of_digits (s : string) : Z := number_of_digits_acc 0 s.

End JS.

(** ** Calendar dates and [Date.prototype.toISOString] *)

Module Calendar.

Record date := Date { year : Z; month : Z; day : Z }.

Definition msPerDay : Z := 86400000.

(** A time value is valid when TimeClip keeps it: at most 8.64e15 ms away from
    the epoch.  Anything else is an Invalid Date. *)
Definition maxTime : Z := 8640000000000000.

Definition time_valid (t : Z) : bool := Z.abs t <=? maxTime.

(** Day(t): the day number of a time value, with day 0 = 1970-01-01. *)
Definition Day (t : Z) : Z := t / msPerDay.

(** DayFromYear(y): the day number of the first day of year [y]. *)
Definition DayFromYear (y : Z) : Z :=
  365 * (y - 1970) + (y - 1969) / 4 - (y - 1901) / 100 + (y - 1601) / 400.

(** YearFromTime: the largest [y] with [DayFromYear y <= d].  The mean year
    gives a guess that is off by one at most; the guess is then corrected. *)
Definition YearFromDay (d : Z) : Z :=
  let y := 1970 + (400 * d) / 146097 in
  if d <? DayFromYear y then y - 1
  else if DayFromYear (y + 1) <=? d then y + 1
  else y.

Definition is_leap (y : Z) : bool :=
  (y mod 4 =? 0) && (negb (y mod 100 =? 0) || (y mod 400 =? 0)).

(** DaysInYear. *)
Definition days_in_year (y : Z) : Z := if is_leap y then 366 else 365.

(** MonthFromTime, from the day within the year and InLeapYear; January is 0. *)
Definition MonthFromDay (leap : bool) (dy : Z) : Z :=
  let L := if leap then 1 else 0 in
  if dy <? 31 then 0
  else if dy <? 59 + L then 1
  else if dy <? 90 + L then 2
  else if dy <? 120 + L then 3
  else if dy <? 151 + L then 4
  else if dy <? 181 + L then 5
  else if dy <? 212 + L then 6
  else if dy <? 243 + L then 7
  else if dy <? 273 + L then 8
  else if dy <? 304 + L then 9
  else if dy <? 334 + L then 10
  else 11.

(** DateFromTime. *)
Definition DateFromDay (leap : bool) (dy : Z) : Z :=
  let L := if leap then 1 else 0 in
  match MonthFromDay leap dy with
  | 0 => dy + 1
  | 1 => dy - 30
  | 2 => dy - 58 - L
  | 3 => dy - 89 - L
  | 4 => dy - 119 - L
  | 5 => dy - 150 - L
  | 6 => dy - 180 - L
  | 7 => dy - 211 - L
  | 8 => dy - 242 - L
  | 9 => dy - 272 - L
  | 10 => dy - 303 - L
  | _ => dy - 333 - L
  end.

(** Year, month (January is 1, as it is printed) and day of a day number. *)
Definition civil_from_days (d : Z) : date :=
  let y := YearFromDay d in
  let dy := d - DayFromYear y in
  Date y (MonthFromDay (is_leap y) dy + 1) (DateFromDay (is_leap y) dy).

Definition pad_zeros (width : nat) (s : string) : string :=
  JS.bytes (repeat 48%N (width - String.length s)) ++ s.

(** The year of an ISO string: four digits from 0 to 9999, otherwise a sign
    and six digits. *)
Definition iso_year (y : Z) : string :=
  if (0 <=? y) && (y <=? 9999) then pad_zeros 4 (JS.nat_digits y)
  else (if y <? 0 then "-" else "+") ++ pad_zeros 6 (JS.nat_digits (Z.abs y)).

(** The date part of [toISOString()] of a valid time value; the full string
    continues with ["T"] and the time of the day. *)
Definition iso_date_part (t : Z) : string :=
  let c := civil_from_days (Day t) in
  iso_year (year c) ++ "-" ++ pad_zeros 2 (JS.nat_digits (month c))
    ++ "-" ++ pad_zeros 2 (JS.nat_digits (day c)).

(** [d.toISOString().slice(0,10)]: the year has four characters at least, so
    the first ten characters lie within the date part.  [None] stands for the
    RangeError that [toISOString] raises on an Invalid Date. *)
Definition toISOString_slice10 (t : Z) : option string :=
  if time_valid t then Some (JS.slice0 10 (iso_date_part t)) else None.

(** The calendar itself: month lengths, the day after and the day before a
    date. *)
Definition days_in_month (leap : bool) (m : Z) : Z :=
  if m =? 2 then (if leap then 29 else 28)
  else if (m =? 4) || (m =? 6) || (m =? 9) || (m =? 11) then 30
  else 31.

Definition next_day (x : date) : date :=
  if day x <? days_in_month (is_leap (year x)) (month x) then Date (year x) (month x) (day x + 1)
  else if month x <? 12 then Date (year x) (month x + 1) 1
  else Date (year x + 1) 1 1.

Definition prev_day (x : date) : date :=
  if 1 <? day x then Date (year x) (month x) (day x - 1)
  else if 1 <? month x then
    Date (year x) (month x - 1) (days_in_month (is_leap (year x)) (month x - 1))
  else Date (year x - 1) 12 31.

(** The date [n] days after [x] ([-n] days before it when [n] is negative). *)
Definition add_days (x : date) (n : Z) : date :=
  if 0 <=? n then Nat.iter (Z.to_nat n) next_day x
  else Nat.iter (Z.to_nat (- n)) prev_day x.

(** Canonical YYYY-MM-DD text of a date. *)
Definition format_ymd (x : date) : string :=
  pad_zeros 4 (JS.nat_digits (year x)) ++ "-" ++ pad_zeros 2 (JS.nat_digits (month x))
    ++ "-" ++ pad_zeros 2 (JS.nat_digits (day x)).

(** Day 0 of the spreadsheet serial count. *)
Definition serial_epoch : date := Date 1899 12 30.

(** Decidable checks over a range of integers, for the finitely many days
    of a year and the years of four digits. *)
Fixpoint all_from (fuel : nat) (z : Z) (p : Z -> bool) : bool :=
  match fuel with
  | O => true
  | S k => p z && all_from k (z + 1) p
  end.

Definition all_between (lo hi : Z) (p : Z -> bool) : bool :=
  all_from (Z.to_nat (hi - lo)) lo p.

Definition two_chars (n : Z) : bool :=
  (String.length (pad_zeros 2 (JS.nat_digits n)) =? 2)%nat.

(** Going from day [dy] of the year to day [dy + 1] is one step of the
    calendar within the year, forwards and backwards. *)
Definition year_step_ok (leap : bool) (dy : Z) : bool :=
  let m := MonthFromDay leap dy + 1 in
  let d := DateFromDay leap dy in
  let m' := MonthFromDay leap (dy + 1) + 1 in
  let d' := DateFromDay leap (dy + 1) in
  (if d <? days_in_month leap m then (m' =? m) && (d' =? d + 1)
   else (m <? 12) && (m' =? m + 1) && (d' =? 1))
  && (if 1 <? d' then (m =? m') && (d =? d' - 1)
      else (1 <? m') && (m =? m' - 1) && (d =? days_in_month leap (m' - 1)))
  && two_chars m && two_chars d && two_chars m' && two_chars d'.

End Calendar.

(** ** JavaScript values *)

(** The values a parsed row, a request field or a JSON claim can hold.
    Numbers are integers; the module [Double] below has the other numbers.
    [VDate t] is a Date object whose time value is [t]
    when [t] is within the valid range, and an Invalid Date otherwise. *)
Inductive value :=
| VUndefined
| VNull
| VBool (b : bool)
| VNum (n : Z)
| VStr (s : string)
| VDate (t : Z).

(** An expression either completes with a value or throws an exception, of
    which the handlers only read the message. *)
Inductive completion (A : Type) :=
| Normal (a : A)
| Throw (message : string).
Arguments Normal {A} a.
Arguments Throw {A} message.

Definition nonempty (s : string) : bool := negb (String.eqb s "").

(** ToBoolean. *)
Definition truthy (v : value) : bool :=
  match v with
  | VUndefined | VNull => false
  | VBool b => b
  | VNum n => negb (n =? 0)
  | VStr s => nonempty s
  | VDate _ => true
  end.

(** [a || b]. *)
Definition or_else (a b : value) : value := if truthy a then a else b.
Infix "|||" := or_else (at level 50, left associativity).

(** A property that may be missing: [undefined] when it is. *)
Definition of_option (o : option string) : value :=
  match o with
  | Some s => VStr s
  | None => VUndefined
  end.

(** What the model takes from the libraries and the host: the two file
    parsers; the rendering of [Date.prototype.toString], which depends on the
    server's time zone; [String(n)] for an integer [n] of 22 digits or more,
    which is printed in exponent form; and the exception that the making of
    the book of a sheet of the given lines raises, if it raises one (lines
    243 to 245: [aoa_to_sheet], [book_append_sheet], [XLSX.write]). *)
Record Host := {
  date_toString : Z -> string;
  csv_parse : string -> completion (list (gmap string value));
  xlsx_sheet_to_json : string -> completion (list (gmap string value));
  big_number_toString : Z -> string;
  xlsx_write_error : list (list value) -> option string
}.

(** [String(v)]. *)
Definition toString (host : Host) (v : value) : string :=
  match v with
  | VUndefined => "undefined"
  | VNull => "null"
  | VBool true => "true"
  | VBool false => "false"
  | VNum n =>
      if Z.abs n <? 10 ^ 21 then JS.number_toString n else big_number_toString host n
  | VStr s => s
  | VDate t => if Calendar.time_valid t then date_toString host t else "Invalid Date"
  end.

(** ** The authentication gate *)

Module Auth.

Record User := { role : value; email : option string }.

(** Result of [sb.auth.getUser(token)]: the call throws, or resolves to
    [{ data, error }] with [data.user] possibly missing. *)
Inductive GetUserResult :=
| GetUserThrows (message : string)
| GetUserReturns (error : option string) (user : option User).

Record Env := { env_ADMIN_API_KEY : option string; env_ADMIN_EMAILS : option string }.

(** [process.env.ADMIN_API_KEY || null]. *)
Definition ADMIN_API_KEY (env : Env) : option string :=
  match env_ADMIN_API_KEY env with
  | Some k => if nonempty k then Some k else None
  | None => None
  end.

(** [(process.env.ADMIN_EMAILS || '').split(',').map(s=>s.trim()).filter(Boolean)]. *)
Definition ADMIN_EMAILS (env : Env) : list string :=
  List.filter nonempty
    (map JS.trim (JS.split "," (default "" (env_ADMIN_EMAILS env)))).

(** What the gate reads of a request: the headers, under their lower-case
    names, and the query parameters, each a single text. *)
Record Request := { headers : gmap string string; query : gmap string string }.

Inductive Outcome :=
| Admit (adminUser : option User)
| Reject (status : Z) (error : string).

Definition opt_truthy (o : option string) : bool := truthy (of_option o).

Definition opt_or (a b : option string) : option string := if opt_truthy a then a else b.

(** [req.headers['x-admin-key'] || req.query.admin_key || req.headers['x-legacy-admin-key']]. *)
Definition presented_key (req : Request) : option string :=
  opt_or (opt_or (headers req !! "x-admin-key") (query req !! "admin_key"))
         (headers req !! "x-legacy-admin-key").

(** [key && ADMIN_API_KEY && key === ADMIN_API_KEY]. *)
Definition key_admits (env : Env) (req : Request) : bool :=
  match presented_key req, ADMIN_API_KEY env with
  | Some k, Some a => nonempty k && String.eqb k a
  | _, _ => false
  end.

(** [(req.headers['authorization'] || '').split(' ')]. *)
Definition auth_words (req : Request) : list string :=
  JS.split " " (default "" (headers req !! "authorization")).

(** [auth.length === 2 && auth[0].toLowerCase() === 'bearer']: the token. *)
Definition bearer_token (req : Request) : option string :=
  match auth_words req with
  | [scheme; token] => if String.eqb (JS.toLowerCase scheme) "bearer" then Some token else None
  | _ => None
  end.

(** [role && role.toLowerCase() === 'admin'], where [toLowerCase] exists on
    strings only. *)
Definition role_is_admin (r : value) : completion bool :=
  if truthy r then
    match r with
    | VStr s => Normal (String.eqb (JS.toLowerCase s) "admin")
    | _ => Throw "role.toLowerCase is not a function"
    end
  else Normal false.

(** [ADMIN_EMAILS.length && ADMIN_EMAILS.includes(user.email)]. *)
Definition email_allowed (env : Env) (u : User) : bool :=
  match ADMIN_EMAILS env with
  | [] => false
  | l => match email u with
         | Some e => existsb (String.eqb e) l
         | None => false
         end
  end.

(** [adminAuth]: the outcome, and the tokens sent to the identity service. *)
Definition adminAuth (env : Env) (getUser : string -> GetUserResult) (req : Request)
  : Outcome * list string :=
  if key_admits env req then (Admit None, [])
  else
    match bearer_token req with
    | Some token =>
        (match getUser token with
         | GetUserThrows _ => Reject 500 "auth error"
         | GetUserReturns (Some _) _ | GetUserReturns None None => Reject 401 "invalid token"
         | GetUserReturns None (Some user) =>
             match role_is_admin (role user ||| VStr "") with
             | Throw _ => Reject 500 "auth error"
             | Normal true => Admit (Some user)
             | Normal false =>
                 if email_allowed env user then Admit (Some user)
                 else Reject 403 "forbidden"
             end
         end, [token])
    | None => (Reject 401 "missing credentials", [])
    end.

(** Vocabulary for the statements about the gate. *)

(** The request carries [k] in one of the three places a key is read from. *)
Definition presents (req : Request) (k : string) : Prop :=
  headers req !! "x-admin-key" = Some k
  \/ query req !! "admin_key" = Some k
  \/ headers req !! "x-legacy-admin-key" = Some k.

Definition blank (o : option string) : Prop := o = None \/ o = Some "".

(** [k] is the first value that is not blank among the x-admin-key header,
    the admin_key query parameter and the x-legacy-admin-key header. *)
Definition first_key (req : Request) (k : string) : Prop :=
  k <> ""
  /\ (headers req !! "x-admin-key" = Some k
      \/ (blank (headers req !! "x-admin-key") /\ query req !! "admin_key" = Some k)
      \/ (blank (headers req !! "x-admin-key") /\ blank (query req !! "admin_key")
          /\ headers req !! "x-legacy-admin-key" = Some k)).

(** The role claim is a text equal to "admin" up to the case of letters. *)
Definition admin_role (u : User) : Prop :=
  exists s, role u = VStr s /\ JS.toLowerCase s = "admin".

Definition allowlisted (env : Env) (u : User) : Prop :=
  exists e, email u = Some e /\ In e (ADMIN_EMAILS env).

(** The role claim is a text, or counts as missing. *)
Definition role_is_text (u : User) : Prop :=
  (exists s, role u = VStr s) \/ truthy (role u) = false.

End Auth.

(** ** The date normalizer *)

Module Dates.

(** The longest prefix of decimal digits, and what follows it. *)
Fixpoint span_digits (s : string) : string * string :=
  match s with
  | EmptyString => (EmptyString, EmptyString)
  | String c r =>
      if JS.is_digit c then let '(d, rest) := span_digits r in (String c d, rest)
      else (EmptyString, s)
  end.

(** The class [[\/-]]. *)
Definition is_sep (c : ascii) : bool := Ascii.eqb c "/" || Ascii.eqb c "-".

(** Three runs of digits with one separator between them and nothing around:
    the shape both patterns share.  A run of the pattern ends where a
    separator or the end of the string follows, so it is the whole run. *)
Definition three_runs (s : string) : option (string * string * string) :=
  let '(a, r1) := span_digits s in
  match r1 with
  | String c1 r1' =>
      if is_sep c1 then
        let '(b, r2) := span_digits r1' in
        match r2 with
        | String c2 r2' =>
            if is_sep c2 then
              let '(c, r3) := span_digits r2' in
              match r3 with
              | EmptyString => Some (a, b, c)
              | _ => None
              end
            else None
        | EmptyString => None
        end
      else None
  | EmptyString => None
  end.

Definition len_in (lo hi : nat) (s : string) : bool :=
  (lo <=? String.length s)%nat && (String.length s <=? hi)%nat.

(** [s.match(/^(\d{4})[\/-](\d{1,2})[\/-](\d{1,2})$/)]: the three groups. *)
Definition match_iso (s : string) : option (string * string * string) :=
  match three_runs s with
  | Some (a, b, c) => if len_in 4 4 a && len_in 1 2 b && len_in 1 2 c then Some (a, b, c) else None
  | None => None
  end.

(** [s.match(/^(\d{1,2})[\/-](\d{1,2})[\/-](\d{2,4})$/)]: the three groups. *)
Definition match_dmy (s : string) : option (string * string * string) :=
  match three_runs s with
  | Some (a, b, c) => if len_in 1 2 a && len_in 1 2 b && len_in 2 4 c then Some (a, b, c) else None
  | None => None
  end.

(** [y<100 ? y + (y>=70 ? 1900 : 2000) : y]. *)
Definition window_year (y : Z) : Z :=
  if y <? 100 then y + (if 70 <=? y then 1900 else 2000) else y.

Definition is_valid_date (v : value) : bool :=
  match v with
  | VDate t => Calendar.time_valid t
  | _ => false
  end.

Definition time_value (v : value) : Z :=
  match v with
  | VDate t => t
  | _ => 0
  end.

(** [new Date(t).toISOString().slice(0,10)]; [toISOString] throws a
    RangeError on an Invalid Date. *)
Definition iso_day (t : Z) : completion (option string) :=
  match Calendar.toISOString_slice10 t with
  | Some d => Normal (Some d)
  | None => Throw "Invalid time value"
  end.

(** [normalizeDate]: [Normal None] is JavaScript's [null].  A number is an
    integer here, on which the arithmetic of line 192 is exact and
    [Math.round] changes nothing; [Double.normalizeNumber] below is the same
    branch on every double. *)
Definition normalizeDate (host : Host) (v : value) : completion (option string) :=
  if negb (truthy v) then Normal None
  else if is_valid_date v then iso_day (time_value v)
  else
    match v with
    | VNum n => iso_day ((n - 25569) * 86400 * 1000)
    | _ =>
        let s := JS.trim (toString host v) in
        match match_iso s with
        | Some (y, m, d) => Normal (Some (y ++ "-" ++ JS.padStart2 m ++ "-" ++ JS.padStart2 d))
        | None =>
            match match_dmy s with
            | Some (d, m, y) =>
                let y' := window_year (JS.number_of_digits y) in
                Normal (Some (JS.number_toString y' ++ "-" ++ JS.padStart2 m ++ "-" ++ JS.padStart2 d))
            | None => Normal None
            end
        end
    end.

(** Vocabulary for the shapes of date texts. *)
Fixpoint all_digits (s : string) : bool :=
  match s with
  | EmptyString => true
  | String c r => JS.is_digit c && all_digits r
  end.

(** What follows a whole run of digits. *)
Definition starts_nondigit (r : string) : Prop :=
  match r with
  | EmptyString => True
  | String c _ => JS.is_digit c = false
  end.

(** [a], a separator, [b], a separator, [c]. *)
Definition date_text (a : string) (c1 : ascii) (b : string) (c2 : ascii) (c : string) : string :=
  a ++ String c1 (b ++ String c2 c).

(** [t] is a year of four digits, a month and a day of one or two digits. *)
Definition is_ymd_text (t y m d : string) : Prop :=
  exists c1 c2, t = date_text y c1 m c2 d
    /\ all_digits y = true /\ all_digits m = true /\ all_digits d = true
    /\ is_sep c1 = true /\ is_sep c2 = true
    /\ String.length y = 4%nat
    /\ (1 <= String.length m <= 2)%nat /\ (1 <= String.length d <= 2)%nat.

(** [t] is a day and a month of one or two digits and a year of two to four
    digits. *)
Definition is_dmy_text (t d m y : string) : Prop :=
  exists c1 c2, t = date_text d c1 m c2 y
    /\ all_digits d = true /\ all_digits m = true /\ all_digits y = true
    /\ is_sep c1 = true /\ is_sep c2 = true
    /\ (1 <= String.length d <= 2)%nat /\ (1 <= String.length m <= 2)%nat
    /\ (2 <= String.length y <= 4)%nat.

(** The two patterns as the specification words them, on the text as it is
    given: YYYY[-/]M[-/]D and D[-/]M[-/]YY(YY), a year of two or of four
    digits. *)
Definition spec_pattern_ymd (s : string) : bool :=
  match three_runs s with
  | Some (y, m, d) => len_in 4 4 y && len_in 1 2 m && len_in 1 2 d
  | None => false
  end.

Definition spec_pattern_dmy (s : string) : bool :=
  match three_runs s with
  | Some (d, m, y) => len_in 1 2 d && len_in 1 2 m && (len_in 2 2 y || len_in 4 4 y)
  | None => false
  end.

End Dates.

(** ** Numbers that are not integers *)

Module Double.

(** A Number is a double of IEEE 754.  Every finite double is a multiple of
    2^-1074, the smallest positive double: [Fin X] is the double of value
    [X * 2^-1074].  The two zeros are one value, [Fin 0]: nothing in the code
    modelled here tells them apart. *)
Definition scale : Z := 2 ^ 1074.

Inductive double :=
| NaN
| Inf (negative : bool)
| Fin (X : Z).

(** The multiple of [2^s] nearest to [n], for [n >= 0], the even one of two
    that are equally near. *)
Definition rne (s n : Z) : Z :=
  let q := n / 2 ^ s in
  let r := n mod 2 ^ s in
  (if 2 * r <? 2 ^ s then q
   else if 2 ^ s <? 2 * r then q + 1
   else if Z.even q then q else q + 1) * 2 ^ s.

(** A magnitude rounded to 53 binary digits.  Below 2^53 nothing is rounded:
    on the multiples of 2^-1074 these are the subnormal doubles and the
    first normal ones. *)
Definition round_mag (n : Z) : Z :=
  let s := Z.log2 n - 52 in
  if s <=? 0 then n else rne s n.

Definition round_int (X : Z) : Z := Z.sgn X * round_mag (Z.abs X).

(** The largest finite double, (2^53 - 1) * 2^971. *)
Definition largest : Z := (2 ^ 53 - 1) * 2 ^ 2045.

(** The double of a real number [X * 2^-1074]: rounded to nearest, an
    infinity when the rounded magnitude exceeds the largest double. *)
Definition fl (X : Z) : double :=
  let R := round_int X in
  if Z.abs R <=? largest then Fin R else Inf (X <? 0).

(** The Number of an integer. *)
Definition of_Z (n : Z) : double := fl (n * scale).

(** [v - c] for an integer [c] that is a double. *)
Definition minus (v : double) (c : Z) : double :=
  match v with
  | Fin X => fl (X - c * scale)
  | _ => v
  end.

(** [v * k] for a positive integer [k] that is a double. *)
Definition times (v : double) (k : Z) : double :=
  match v with
  | Fin X => fl (X * k)
  | _ => v
  end.

(** [Math.round(v)]: the integer nearest to [v], the larger one of two that
    are equally near. *)
Definition Math_round (v : double) : double :=
  match v with
  | Fin X => Fin ((2 * X + scale) / (2 * scale) * scale)
  | _ => v
  end.

(** [!v]: zero and NaN. *)
Definition falsy (v : double) : bool :=
  match v with
  | NaN => true
  | Inf _ => false
  | Fin X => X =? 0
  end.

(** The time value of [new Date(v)]: TimeClip keeps a finite [v] of at most
    8.64e15 in size, without its fraction; [None] is the Invalid Date. *)
Definition time_of (v : double) : option Z :=
  match v with
  | Fin X => if Z.abs X <=? Calendar.maxTime * scale then Some (Z.quot X scale) else None
  | _ => None
  end.

(** [Math.round((v - 25569) * 86400 * 1000)]. *)
Definition serial_time (v : double) : double :=
  Math_round (times (times (minus v 25569) 86400) 1000).

(** Lines 190 and 192 on a number: [if(!v) return null] and
    [new Date(Math.round((v - 25569) * 86400 * 1000)).toISOString().slice(0,10)]. *)
Definition normalizeNumber (v : double) : completion (option string) :=
  if falsy v then Normal None
  else
    match time_of (serial_time v) with
    | Some t => Dates.iso_day t
    | None => Throw "Invalid time value"
    end.

(** The doubles of the kernel, for samples: the double of a literal such as
    [45000.75%float]. *)
Definition of_spec (f : spec_float) : double :=
  match f with
  | S754_zero _ => Fin 0
  | S754_infinity s => Inf s
  | S754_nan => NaN
  | S754_finite s m e => Fin ((if s then -1 else 1) * Z.pos m * 2 ^ (e + 1074))
  end.

Definition of_float (f : float) : double := of_spec (Prim2SF f).

Definition same (a b : double) : bool :=
  match a, b with
  | NaN, NaN => true
  | Inf s, Inf s' => Bool.eqb s s'
  | Fin X, Fin Y => X =? Y
  | _, _ => false
  end.

(** The order of the doubles other than NaN. *)
Definition dle (a b : double) : Prop :=
  match a, b with
  | NaN, _ | _, NaN => False
  | Inf true, _ => True
  | _, Inf false => True
  | Fin X, Fin Y => X <= Y
  | _, _ => False
  end.

End Double.

(** ** The record mapper *)

Module Mapper.

(** A record of [product_registrations] as the import builds it. *)
Record Registration := {
  company_code : option string;
  brand_name : string;
  common_label : string;
  registration_no : value;
  importer : value;
  manufacturer_source : value;
  distributor : value;
  packed_volume : value;
  registration_date : option string;
  expiry_date : option string;
  license_no : value
}.

(** [r.name] and [r['name']]: [undefined] for a missing column. *)
Definition get (r : gmap string value) (name : string) : value :=
  default VUndefined (r !! name).

(** The callback of [records.map]: one row to one record. *)
Definition mapRow (host : Host) (cc : option string) (r : gmap string value)
  : completion Registration :=
  let brand := get r "brand_name" ||| get r "ชื่อการค้า" ||| VStr "" in
  let common := get r "common_label" ||| get r "ชื่อสามัญ/สูตร" ||| VStr "" in
  let regno := get r "registration_no" ||| get r "ทะเบียน" ||| VNull in
  let importer := get r "importer" ||| get r "ผู้นำเข้า" ||| VNull in
  let manufacturer_source := get r "manufacturer_source" ||| get r "ผู้ผลิต/แหล่งผลิต" ||| VNull in
  let distributor := get r "distributor" ||| get r "ผู้จำหน่าย" ||| VNull in
  let packed_volume := get r "packed_volume" ||| get r "นำเข้า/แบ่งบรรจุ" ||| VNull in
  match Dates.normalizeDate host (get r "registration_date" ||| get r "วันออกทะเบียน") with
  | Throw e => Throw e
  | Normal registration_date =>
      match Dates.normalizeDate host (get r "expiry_date" ||| get r "วันหมดอายุ") with
      | Throw e => Throw e
      | Normal expiry_date =>
          let license_no := get r "license_no" ||| get r "ใบอนุญาต" ||| VNull in
          Normal {| company_code := cc;
                    brand_name := JS.trim (toString host brand);
                    common_label := JS.trim (toString host common);
                    registration_no := regno;
                    importer := importer;
                    manufacturer_source := manufacturer_source;
                    distributor := distributor;
                    packed_volume := packed_volume;
                    registration_date := registration_date;
                    expiry_date := expiry_date;
                    license_no := license_no |}
      end
  end.

(** [records.map(f)], which stops at the first exception. *)
Fixpoint map_rows (host : Host) (cc : option string) (rows : list (gmap string value))
  : completion (list Registration) :=
  match rows with
  | [] => Normal []
  | r :: rest =>
      match mapRow host cc r with
      | Throw e => Throw e
      | Normal x =>
          match map_rows host cc rest with
          | Throw e => Throw e
          | Normal xs => Normal (x :: xs)
          end
      end
  end.

(** The predicate of [.filter(x=>x.brand_name && x.common_label)]. *)
Definition keep (x : Registration) : bool :=
  nonempty (brand_name x) && nonempty (common_label x).

(** [mapped]. *)
Definition mapped_records (host : Host) (cc : option string) (rows : list (gmap string value))
  : completion (list Registration) :=
  match map_rows host cc rows with
  | Throw e => Throw e
  | Normal xs => Normal (List.filter keep xs)
  end.

(** Vocabulary: the ten fields read from a row, with the canonical and the
    localized name of the column of each. *)
Inductive field :=
| F_brand_name | F_common_label | F_registration_no | F_importer | F_manufacturer_source
| F_distributor | F_packed_volume | F_registration_date | F_expiry_date | F_license_no.

Definition canonical_name (f : field) : string :=
  match f with
  | F_brand_name => "brand_name"
  | F_common_label => "common_label"
  | F_registration_no => "registration_no"
  | F_importer => "importer"
  | F_manufacturer_source => "manufacturer_source"
  | F_distributor => "distributor"
  | F_packed_volume => "packed_volume"
  | F_registration_date => "registration_date"
  | F_expiry_date => "expiry_date"
  | F_license_no => "license_no"
  end.

Definition localized_name (f : field) : string :=
  match f with
  | F_brand_name => "ชื่อการค้า"
  | F_common_label => "ชื่อสามัญ/สูตร"
  | F_registration_no => "ทะเบียน"
  | F_importer => "ผู้นำเข้า"
  | F_manufacturer_source => "ผู้ผลิต/แหล่งผลิต"
  | F_distributor => "ผู้จำหน่าย"
  | F_packed_volume => "นำเข้า/แบ่งบรรจุ"
  | F_registration_date => "วันออกทะเบียน"
  | F_expiry_date => "วันหมดอายุ"
  | F_license_no => "ใบอนุญาต"
  end.

Definition fields : list field :=
  [ F_brand_name; F_common_label; F_registration_no; F_importer; F_manufacturer_source;
    F_distributor; F_packed_volume; F_registration_date; F_expiry_date; F_license_no ].

(** The row that carries [vals] under the names [name]. *)
Definition row_of (name : field -> string) (vals : field -> value) : gmap string value :=
  list_to_map (map (fun f => (name f, vals f)) fields).





End Mapper.

(** ** The backend *)

Module Backend.
Import Mapper.

Inductive Event :=
| EvDelete (scope : option string)
| EvInsert (chunk : list Registration)
| EvSelect (scope : string).

(** The client resolves every call to [{ data, error }]: a failure of the
    backend is an [error] that is returned, not an exception.

    The table [product_registrations], the answers the backend will give
    ([fault n] is the error of the [n]-th call, [None] when it succeeds) and
    the calls made so far. *)
Record World := {
  table : list Registration;
  fault : nat -> option string;
  calls : list Event
}.

Definition M (A : Type) : Type := World -> A * World.

Definition ret {A} (a : A) : M A := fun w => (a, w).

Definition bind {A B} (m : M A) (k : A -> M B) : M B :=
  fun w => let '(a, w') := m w in k a w'.

Notation "'let!' x ':=' m 'in' k" := (bind m (fun x => k))
  (at level 10, x binder, m at level 200, k at level 200).

(** The text a filter value takes in the request: [`eq.${value}`]. *)
Definition filter_text (scope : option string) : string := default "undefined" scope.

Definition in_scope (scope : string) (r : Registration) : bool :=
  match company_code r with
  | Some c => String.eqb c scope
  | None => false
  end.

(** One call: the backend answers with its next fault or carries out [run]. *)
Definition call (ev : Event) (run : list Registration -> list Registration) : M (option string) :=
  fun w =>
    let e := fault w (length (calls w)) in
    (e, {| table := match e with Some _ => table w | None => run (table w) end;
           fault := fault w;
           calls := (calls w ++ [ev])%list |}).

(** The rows a delete of the scope leaves in the table. *)
Definition outside (scope : option string) (t : list Registration) : list Registration :=
  List.filter (fun r => negb (in_scope (filter_text scope) r)) t.

(** [sb.from('product_registrations').delete().eq('company_code', scope)]: the error. *)
Definition delete_eq (scope : option string) : M (option string) :=
  call (EvDelete scope) (outside scope).

(** [sb.from('product_registrations').insert(chunk)]: the error. *)
Definition insert (chunk : list Registration) : M (option string) :=
  call (EvInsert chunk) (fun t => (t ++ chunk)%list).

(** [sb.from('product_registrations').select('*').eq('company_code', code)]:
    the error or the rows. *)
Definition select_eq (scope : string) : M (string + list Registration) :=
  fun w =>
    let '(e, w') := call (EvSelect scope) (fun t => t) w in
    (match e with
     | Some msg => inl msg
     | None => inr (List.filter (in_scope scope) (table w))
     end, w').

End Backend.

(** ** The import and export handlers *)

Module Handlers.
Import Mapper Backend.

Record Results := {
  total : nat;
  success : nat;
  failed : nat;
  errors : list string
}.

Inductive Body :=
| BError (error : string)
| BImported (results : Results)
| BSheet (filename : string) (aoa : list (list value)).

Record Response := { status : Z; body : Body }.

Record UploadedFile := { originalname : option string; buffer : string }.

Record ImportRequest := {
  file : option UploadedFile;
  replace_mode : option string;
  body_company_code : option string
}.

Definition CHUNK : nat := 500.

(** [mapped.slice(i, j)]. *)
Definition slice {A} (i j : nat) (l : list A) : list A := firstn (j - i) (skipn i l).

(** The body of the loop for one chunk. *)
Definition record_chunk (res : Results) (chunk : list Registration) (e : option string) : Results :=
  match e with
  | Some message =>
      {| total := total res; success := success res;
         failed := failed res + length chunk; errors := (errors res ++ [message])%list |}
  | None =>
      {| total := total res; success := success res + length chunk;
         failed := failed res; errors := errors res |}
  end.

(** [for(let i=0;i<mapped.length;i+=CHUNK){...}], from index [i] on.  Every
    turn moves [i] forward, so [length mapped] turns and one test end it. *)
Fixpoint insert_loop (fuel : nat) (mapped : list Registration) (i : nat) (res : Results)
  : M Results :=
  match fuel with
  | O => ret res
  | S fuel' =>
      if (i <? length mapped)%nat then
        let chunk := slice i (i + CHUNK) mapped in
        let! e := insert chunk in
        insert_loop fuel' mapped (i + CHUNK) (record_chunk res chunk e)
      else ret res
  end.

(** Lines 216 to 229: the optional delete, then the batches. *)
Definition import_pipeline (replaceMode : bool) (cc : option string) (mapped : list Registration)
  : M Results :=
  let! _ := (if replaceMode then delete_eq cc else ret None) in
  insert_loop (S (length mapped)) mapped 0
    {| total := length mapped; success := 0; failed := 0; errors := [] |}.

(** [req.body.replace_mode === '1' || req.body.replace_mode === 'true']. *)
Definition replaceMode (req : ImportRequest) : bool :=
  match replace_mode req with
  | Some m => String.eqb m "1" || String.eqb m "true"
  | None => false
  end.

(** The records of the uploaded file, by the extension of its name. *)
Definition parse_file (host : Host) (f : UploadedFile) : completion (list (gmap string value)) :=
  let filename := JS.toLowerCase (default "" (originalname f)) in
  if JS.endsWith ".csv" filename then csv_parse host (buffer f)
  else xlsx_sheet_to_json host (buffer f).

(** The handler of POST /api/admin/import-csv. *)
Definition import_csv (host : Host) (req : ImportRequest) : M Response :=
  match file req with
  | None => ret {| status := 400; body := BError "missing file" |}
  | Some f =>
      match parse_file host f with
      | Throw e => ret {| status := 500; body := BError e |}
      | Normal records =>
          match mapped_records host (body_company_code req) records with
          | Throw e => ret {| status := 500; body := BError e |}
          | Normal mapped =>
              let! results := import_pipeline (replaceMode req) (body_company_code req) mapped in
              ret {| status := 200; body := BImported results |}
          end
      end
  end.

Definition opt_cell (o : option string) : value := of_option o ||| VStr "".

(** One line of the sheet: every field, [''] for a missing one. *)
Definition export_row (r : Registration) : list value :=
  [ opt_cell (company_code r); VStr (brand_name r) ||| VStr ""; VStr (common_label r) ||| VStr "";
    registration_no r ||| VStr ""; importer r ||| VStr ""; manufacturer_source r ||| VStr "";
    distributor r ||| VStr ""; packed_volume r ||| VStr ""; opt_cell (registration_date r);
    opt_cell (expiry_date r); license_no r ||| VStr "" ].

Definition export_header : list value :=
  map VStr [ "company_code"; "brand_name"; "common_label"; "registration_no"; "importer";
             "manufacturer_source"; "distributor"; "packed_volume"; "registration_date";
             "expiry_date"; "license_no" ].

(** The value of the Content-Disposition header of an export. *)
Definition content_disposition (code : string) : string :=
  "attachment; filename=registrations_" ++ code ++ ".xlsx".

(** The handler of GET /api/admin/export; [String(req.query.code || '')].
    After the select the book is written, then the header is set: an
    exception of either is answered 500 with its message.  The body of an
    answer 200 is the book, given here by the name of the file and the lines
    of the sheet. *)
Definition export (host : Host) (query : gmap string string) : M Response :=
  let code := default "" (query !! "code") in
  if nonempty code then
    let! r := select_eq code in
    match r with
    | inl message => ret {| status := 500; body := BError message |}
    | inr data =>
        let aoa := export_header :: map export_row data in
        match xlsx_write_error host aoa with
        | Some message => ret {| status := 500; body := BError message |}
        | None =>
            if JS.header_chars_ok (content_disposition code) then
              ret {| status := 200; body := BSheet ("registrations_" ++ code ++ ".xlsx") aoa |}
            else
              ret {| status := 500;
                     body := BError (JS.invalid_header_message "Content-Disposition") |}
        end
    end
  else ret {| status := 400; body := BError "missing code" |}.

(** The routes: the gate, then the handler. *)
Definition guarded (o : Auth.Outcome) (handler : M Response) : M Response :=
  match o with
  | Auth.Admit _ => handler
  | Auth.Reject st e => ret {| status := st; body := BError e |}
  end.

Definition post_import_csv (env : Auth.Env) (getUser : string -> Auth.GetUserResult)
    (host : Host) (areq : Auth.Request) (req : ImportRequest) : M Response :=
  guarded (fst (Auth.adminAuth env getUser areq)) (import_csv host req).

Definition get_export (env : Auth.Env) (getUser : string -> Auth.GetUserResult)
    (host : Host) (areq : Auth.Request) : M Response :=
  guarded (fst (Auth.adminAuth env getUser areq)) (export host (Auth.query areq)).

(** Vocabulary for the statements about the batches. *)

(** The batches [cs] with the answers of the backend, the first batch being
    its call number [n]. *)
Definition answered (fault : nat -> option string) (n : nat) (cs : list (list Registration))
  : list (list Registration * option string) :=
  combine cs (map fault (seq n (length cs))).

Definition failed_size (l : list (list Registration * option string)) : nat :=
  list_sum (map (fun p => match snd p with Some _ => length (fst p) | None => O end) l).

Definition stored_size (l : list (list Registration * option string)) : nat :=
  list_sum (map (fun p => match snd p with Some _ => O | None => length (fst p) end) l).

Definition messages (l : list (list Registration * option string)) : list string :=
  flat_map (fun p => match snd p with Some m => [m] | None => [] end) l.

Definition stored (l : list (list Registration * option string)) : list Registration :=
  flat_map (fun p => match snd p with Some _ => [] | None => fst p end) l.

End Handlers.


(** ** Sample inputs *)

Module Samples.

(** A host whose parsers read the given rows from any file, and whose writer
    writes every book. *)
Definition host (rows : list (gmap string value)) : Host :=
  {| date_toString := fun _ => "Thu Jan 01 1970 07:00:00 GMT+0700 (Indochina Time)";
     csv_parse := fun _ => Normal rows;
     xlsx_sheet_to_json := fun _ => Normal rows;
     big_number_toString := fun _ => "1e+21";
     xlsx_write_error := fun _ => None |}.

Definition env : Auth.Env :=
  {| Auth.env_ADMIN_API_KEY := Some "s3cret";
     Auth.env_ADMIN_EMAILS := Some "root@example.com, ops@example.com" |}.

Definition admin_user : Auth.User :=
  {| Auth.role := VStr "Admin"; Auth.email := Some "someone@example.com" |}.

Definition plain_user : Auth.User :=
  {| Auth.role := VStr "editor"; Auth.email := Some "someone@example.com" |}.

Definition numbered_user : Auth.User :=
  {| Auth.role := VNum 1; Auth.email := Some "root@example.com" |}.

(** An identity service that knows three tokens. *)
Definition getUser (token : string) : Auth.GetUserResult :=
  if String.eqb token "t-admin" then Auth.GetUserReturns None (Some admin_user)
  else if String.eqb token "t-plain" then Auth.GetUserReturns None (Some plain_user)
  else if String.eqb token "t-number" then Auth.GetUserReturns None (Some numbered_user)
  else Auth.GetUserReturns (Some "invalid JWT") None.

Definition request (hs qs : list (string * string)) : Auth.Request :=
  {| Auth.headers := list_to_map hs; Auth.query := list_to_map qs |}.

Definition values (f : Mapper.field) : value :=
  match f with
  | Mapper.F_brand_name => VStr " Alpha 50 "
  | Mapper.F_common_label => VStr "abamectin 1.8% EC"
  | Mapper.F_registration_no => VNum 1234
  | Mapper.F_registration_date => VStr "5/3/24"
  | Mapper.F_expiry_date => VNum 45000
  | Mapper.F_packed_volume => VNum 0
  | _ => VUndefined
  end.

(** The same values without a brand name. *)
Definition unnamed (f : Mapper.field) : value :=
  match f with
  | Mapper.F_brand_name => VStr "   "
  | _ => values f
  end.

Definition acme (brand : string) : Mapper.Registration :=
  {| Mapper.company_code := Some "ACME"; Mapper.brand_name := brand;
     Mapper.common_label := "glyphosate 48% SL"; Mapper.registration_no := VNull;
     Mapper.importer := VNull; Mapper.manufacturer_source := VNull;
     Mapper.distributor := VNull; Mapper.packed_volume := VNull;
     Mapper.registration_date := None; Mapper.expiry_date := None;
     Mapper.license_no := VNull |}.

(** A backend that holds two records of ACME and answers every call. *)
Definition world : Backend.World :=
  {| Backend.table := [acme "Old one"; acme "Old two"];
     Backend.fault := fun _ => None;
     Backend.calls := [] |}.

(** The same backend when every insert fails after a first call that succeeds. *)
Definition failing_world : Backend.World :=
  {| Backend.table := [acme "Old one"; acme "Old two"];
     Backend.fault := fun n => match n with O => None | S _ => Some "timeout" end;
     Backend.calls := [] |}.

Definition upload : Handlers.UploadedFile :=
  {| Handlers.originalname := Some "Products.CSV"; Handlers.buffer := "" |}.

Definition import_request (replace_mode company_code : option string) : Handlers.ImportRequest :=
  {| Handlers.file := Some upload; Handlers.replace_mode := replace_mode;
     Handlers.body_company_code := company_code |}.

(** The record of the sample values. *)
Definition alpha (cc : option string) : Mapper.Registration :=
  {| Mapper.company_code := cc; Mapper.brand_name := "Alpha 50";
     Mapper.common_label := "abamectin 1.8% EC"; Mapper.registration_no := VNum 1234;
     Mapper.importer := VNull; Mapper.manufacturer_source := VNull;
     Mapper.distributor := VNull; Mapper.packed_volume := VNull;
     Mapper.registration_date := Some "2024-03-05"; Mapper.expiry_date := Some "2023-03-15";
     Mapper.license_no := VNull |}.

(** The record of the sample values without a brand name. *)
Definition nameless (cc : option string) : Mapper.Registration :=
  {| Mapper.company_code := cc; Mapper.brand_name := "";
     Mapper.common_label := "abamectin 1.8% EC"; Mapper.registration_no := VNum 1234;
     Mapper.importer := VNull; Mapper.manufacturer_source := VNull;
     Mapper.distributor := VNull; Mapper.packed_volume := VNull;
     Mapper.registration_date := Some "2024-03-05"; Mapper.expiry_date := Some "2023-03-15";
     Mapper.license_no := VNull |}.

(** The backend when its third call fails. *)
Definition flaky_world : Backend.World :=
  {| Backend.table := [acme "Old one"; acme "Old two"];
     Backend.fault := fun n => if Nat.eqb n 2 then Some "timeout" else None;
     Backend.calls := [] |}.

End Samples.

(** ** Vocabulary for further statements about the import *)

Module Batches.
Import Mapper Handlers.

(** The batches the loop cuts from index [i] on, without the calls. *)
Fixpoint batches (fuel : nat) (mapped : list Registration) (i : nat) : list (list Registration) :=
  match fuel with
  | O => []
  | S fuel' =>
      if (i <? length mapped)%nat
      then slice i (i + CHUNK) mapped :: batches fuel' mapped (i + CHUNK)
      else []
  end.

End Batches.

(** ** Vocabulary for the statements about exported records *)

Module Reimport.
Import Mapper Handlers.

(** The names of the columns of the sheet. *)
Definition column_names : list string :=
  [ "company_code"; "brand_name"; "common_label"; "registration_no"; "importer";
    "manufacturer_source"; "distributor"; "packed_volume"; "registration_date";
    "expiry_date"; "license_no" ].

(** The row a parser reads back from the line of a record in the sheet: each
    cell under the name of its column. *)
Definition exported_row (x : Registration) : gmap string value :=
  list_to_map (combine column_names (export_row x)).

(** A date as the table holds it: null, or four digits of year, two of month
    and two of day with ["-"] between them. *)
Definition canonical_date (o : option string) : Prop :=
  o = None
  \/ exists y m d, o = Some (y ++ "-" ++ m ++ "-" ++ d)
       /\ Dates.all_digits y = true /\ Dates.all_digits m = true /\ Dates.all_digits d = true
       /\ String.length y = 4%nat /\ String.length m = 2%nat /\ String.length d = 2%nat.

(** The first character is a digit. *)
Definition starts_with_digit (s : string) : bool :=
  match s with
  | String c _ => JS.is_digit c
  | EmptyString => false
  end.

(** The first character is not a digit. *)
Definition starts_with_other (s : string) : bool :=
  match s with
  | String c _ => negb (JS.is_digit c)
  | EmptyString => false
  end.

End Reimport.

(** ** The other endpoints *)

Module Crud.

(** What a reply of the backend carries as [data]: null, an object or an
    array of objects, the fields of an object being scalars. *)
Inductive Data :=
| DNull
| DObject (o : gmap string value)
| DRows (rows : list (gmap string value)).

(** The calls these endpoints make. *)
Inductive Call :=
| Rpc (fn : string) (args : list (string * value))
| SelectCompanies
| SelectRegistrations (code : string)
| SelectPlainCode (code : string)
| SelectCompanyId (code : string)
| InsertCompany (code : string) (name : value)
| UpdateRegistration (id : value) (fields : gmap string value)
| InsertRegistration (row : gmap string value)
| DeleteRegistration (id : string)
| DeleteRegistrations (ids : list value).

(** A call is rejected, which [await] turns into an exception, or resolves
    to [{ data, error }]. *)
Inductive Reply :=
| Rejects (message : string)
| Resolves (data : Data) (error : option string).

Inductive Payload :=
| PError (error : string)
| PRows (rows : Data)
| PPlainCode (plain_code : value)
| POk
| POkId (id : value).

Record Answer := { code : Z; payload : Payload }.

(** [res.json(payload)], with the status 200 of a response that sets none. *)
Definition json (p : Payload) : Answer := {| code := 200; payload := p |}.

(** [res.status(st).json({ error })]. *)
Definition fail (st : Z) (error : string) : Answer := {| code := st; payload := PError error |}.

(** A computation reads the calls made so far, may throw, and adds calls. *)
Definition M (A : Type) : Type := list Call -> completion A * list Call.

Definition ret {A} (a : A) : M A := fun log => (Normal a, log).

Definition throw {A} (message : string) : M A := fun log => (Throw message, log).

Definition bind {A B} (m : M A) (k : A -> M B) : M B :=
  fun log =>
    match m log with
    | (Normal a, log') => k a log'
    | (Throw e, log') => (Throw e, log')
    end.

Notation "'let?' x ':=' m 'in' k" := (bind m (fun x => k))
  (at level 10, x binder, m at level 200, k at level 200).

(** [try { m } catch(e) { }]: what [m] returned, if it has. *)
Definition attempt {A} (m : M A) : M (option A) :=
  fun log =>
    match m log with
    | (Normal a, log') => (Normal (Some a), log')
    | (Throw _, log') => (Normal None, log')
    end.

(** [try { m } catch(e) { res.status(500).json({ error: e.message }) }]. *)
Definition catch500 (m : M Answer) (log : list Call) : Answer * list Call :=
  match m log with
  | (Normal a, log') => (a, log')
  | (Throw e, log') => (fail 500 e, log')
  end.

Section Endpoints.

(** The backend: its reply to a call, given the number of calls before it. *)
Variable backend : nat -> Call -> Reply.

(** [await] of a call. *)
Definition request (c : Call) : M (Data * option string) :=
  fun log =>
    match backend (length log) c with
    | Rejects message => (Throw message, (log ++ [c])%list)
    | Resolves data error => (Normal (data, error), (log ++ [c])%list)
    end.

(** [listCompanies]. *)
Definition listCompanies : M Data :=
  let? r := request SelectCompanies in
  match snd r with
  | Some message => throw message
  | None => ret (fst r)
  end.

(** GET /api/admin/companies. *)
Definition get_companies : list Call -> Answer * list Call :=
  catch500 (let? rows := listCompanies in ret (json (PRows rows))).

(** [data || []]. *)
Definition or_empty (d : Data) : Data :=
  match d with
  | DNull => DRows []
  | _ => d
  end.

(** [String(req.query.code || '')]. *)
Definition query_code (query : gmap string string) : string := default "" (query !! "code").

(** GET /api/admin/list. *)
Definition get_list (query : gmap string string) : list Call -> Answer * list Call :=
  let code := query_code query in
  catch500
    (let? r := attempt (request (Rpc "get_company_portal" [("p_plain_code", VStr code)])) in
     match r with
     | Some (data, None) => ret (json (PRows (or_empty data)))
     | _ =>
         let? q := request (SelectRegistrations code) in
         match snd q with
         | Some message => ret (fail 500 message)
         | None => ret (json (PRows (or_empty (fst q))))
         end
     end).

(** [data?.plain_code || null]. *)
Definition plain_code_of (d : Data) : value :=
  match d with
  | DObject o => Mapper.get o "plain_code" ||| VNull
  | _ => VNull
  end.

(** GET /api/admin/company-code. *)
Definition get_company_code (query : gmap string string) : list Call -> Answer * list Call :=
  let code := query_code query in
  catch500
    (let? r := attempt (request (Rpc "get_customer_code" [("p_company_code", VStr code)])) in
     match r with
     | Some (data, None) => ret (json (PPlainCode (plain_code_of data)))
     | _ =>
         let? q := request (SelectPlainCode code) in
         match snd q with
         | Some _ => ret (json (PPlainCode VNull))
         | None => ret (json (PPlainCode (plain_code_of (fst q))))
         end
     end).

(** POST /api/admin/set-customer-code, on the two fields of the body. *)
Definition post_set_customer_code (company_code plain_code : value)
  : list Call -> Answer * list Call :=
  catch500
    (let? r := request (Rpc "set_customer_code"
                          [("p_company_code", company_code); ("p_plain_code", plain_code)]) in
     match snd r with
     | Some message => ret (fail 500 message)
     | None => ret (json POk)
     end).

(** [(company_code||'').trim()]; only a text has [trim].  The messages of the
    type errors of this module are the engine's: the statements about the
    endpoints do not depend on their text. *)
Definition codeUp (company_code : value) : completion string :=
  match company_code ||| VStr "" with
  | VStr s => Normal (JS.trim s)
  | _ => Throw "(company_code || '').trim is not a function"
  end.

(** [company && company.length], then [company[0].id]: the id of the company
    found, if one is. *)
Definition found_company (company : Data) : completion (option value) :=
  match company with
  | DNull => Normal None
  | DRows [] => Normal None
  | DRows (r :: _) => Normal (Some (Mapper.get r "id"))
  | DObject o =>
      if truthy (Mapper.get o "length") then
        match Mapper.get o "0" with
        | VUndefined => Throw "Cannot read properties of undefined (reading 'id')"
        | VNull => Throw "Cannot read properties of null (reading 'id')"
        | _ => Normal (Some VUndefined)
        end
      else Normal None
  end.

(** [data.id] of a reply. *)
Definition id_of (d : Data) : completion value :=
  match d with
  | DNull => Throw "Cannot read properties of null (reading 'id')"
  | DObject o => Normal (Mapper.get o "id")
  | DRows _ => Normal VUndefined
  end.

Definition lift {A} (c : completion A) : M A :=
  match c with
  | Normal a => ret a
  | Throw e => throw e
  end.

(** The part of the upsert that finds or creates the company: its id. *)
Definition find_or_create_company (code : string) (company_name : value) : M value :=
  if nonempty code then
    let? sel := request (SelectCompanyId code) in
    let? found := lift (found_company (fst sel)) in
    match found with
    | Some id => ret id
    | None =>
        let? ins := request (InsertCompany code (company_name ||| VStr code)) in
        match snd ins with
        | Some message => throw message
        | None => lift (id_of (fst ins))
        end
    end
  else ret VNull.

(** [{ company_code: codeUp, company_id, ...product }]: the fields of the
    product come last and win. *)
Definition insert_row (code : string) (company_id : value) (product : gmap string value)
  : gmap string value :=
  product ∪ <["company_code" := VStr code]> (<["company_id" := company_id]> ∅).

(** The last part of the upsert: the update of the product that has an id,
    without that id, or else the insert. *)
Definition write_product (code : string) (company_id : value) (p : gmap string value)
  : M Answer :=
  if truthy (Mapper.get p "id") then
    let? r := request (UpdateRegistration (Mapper.get p "id") (delete "id" p)) in
    match snd r with
    | Some message => ret (fail 500 message)
    | None => ret (json POk)
    end
  else
    let? r := request (InsertRegistration (insert_row code company_id p)) in
    match snd r with
    | Some message => ret (fail 500 message)
    | None => let? id := lift (id_of (fst r)) in ret (json (POkId id))
    end.

(** POST /api/admin/product, on the three fields of the body; [product] is
    [None] when the body holds none, and else an object. *)
Definition post_product (company_code company_name : value)
    (product : option (gmap string value)) : list Call -> Answer * list Call :=
  catch500
    (match product with
     | None => ret (fail 400 "missing product")
     | Some p =>
         let? code := lift (codeUp company_code) in
         let? company_id := find_or_create_company code company_name in
         write_product code company_id p
     end).

(** DELETE /api/admin/product/:id. *)
Definition delete_product (id : string) : list Call -> Answer * list Call :=
  catch500
    (let? r := request (DeleteRegistration id) in
     match snd r with
     | Some message => ret (fail 500 message)
     | None => ret (json POk)
     end).

(** POST /api/admin/bulk-delete; [ids] is [None] when the body holds no array. *)
Definition post_bulk_delete (ids : option (list value)) : list Call -> Answer * list Call :=
  catch500
    (match ids with
     | None => ret (fail 400 "ids must be array")
     | Some l =>
         let? r := request (DeleteRegistrations l) in
         match snd r with
         | Some message => ret (fail 500 message)
         | None => ret (json POk)
         end
     end).

End Endpoints.

(** Vocabulary: the call that writes the product of an upsert. *)
Definition final_call (c : string) (company_id : value) (p : gmap string value) : Call :=
  if truthy (Mapper.get p "id")
  then UpdateRegistration (Mapper.get p "id") (delete "id" p)
  else InsertRegistration (insert_row c company_id p).

(** A backend that knows one company, of id 7, and accepts every write. *)
Definition sample_backend (n : nat) (c : Call) : Reply :=
  match c with
  | SelectCompanyId _ => Resolves (DRows [{[ "id" := VNum 7 ]}]) None
  | _ => Resolves (DObject {[ "id" := VNum 40 ]}) None
  end.

End Crud.

(** * Properties *)

(** ** Strings *)

Module StringFacts.

Lemma append_nil_r (s : string) : s ++ EmptyString = s.
Proof.
  induction s as [|c s IH]; [reflexivity|].
  change (String c (s ++ EmptyString) = String c s). now rewrite IH.
Qed.

Lemma length_append (s1 s2 : string) :
  String.length (s1 ++ s2) = (String.length s1 + String.length s2)%nat.
Proof.
  induction s1 as [|c s1 IH]; [reflexivity|].
  change (S (String.length (s1 ++ s2)) = S (String.length s1 + String.length s2)).
  now rewrite IH.
Qed.

Lemma substring_all s : String.substring 0 (String.length s) s = s.
Proof.
  induction s as [|c s IH]; [reflexivity|].
  change (String c (String.substring 0 (String.length s) s) = String c s).
  now rewrite IH.
Qed.

(** [split] in one and in two pieces. *)
Lemma split_cons sep s : exists w ws, JS.split sep s = w :: ws.
Proof.
  induction s as [|c s (w & ws & IH)]; [now exists EmptyString, []|].
  cbn [JS.split]. destruct (Ascii.eqb c sep); [now eexists _, _|].
  rewrite IH. now eexists _, _.
Qed.

Lemma split_one sep s : forall a,
  JS.split sep s = [a] <-> s = a /\ JS.has_char sep a = false.
Proof.
  induction s as [|c s IH]; intros a.
  - cbn. split; [intros [= <-]; now split | intros [<- _]; reflexivity].
  - cbn [JS.split]. destruct (Ascii.eqb c sep) eqn:E.
    + split.
      * intros [= <- H]. destruct (split_cons sep s) as (w & ws & Hw). congruence.
      * intros [<- H]. cbn [JS.has_char] in H. rewrite E in H. discriminate.
    + destruct (split_cons sep s) as (w & ws & Hw). rewrite Hw. split.
      * intros [= <- ->]. apply IH in Hw as [-> Hn]. split; [reflexivity|].
        cbn [JS.has_char]. now rewrite E, Hn.
      * intros [<- H]. cbn [JS.has_char] in H. rewrite E in H. cbn [orb] in H.
        assert (Hs : JS.split sep s = [s]) by (apply IH; now split).
        rewrite Hs in Hw. injection Hw as <- <-. reflexivity.
Qed.

Lemma split_two sep s : forall a b,
  JS.split sep s = [a; b]
  <-> s = a ++ String sep b /\ JS.has_char sep a = false /\ JS.has_char sep b = false.
Proof.
  induction s as [|c s IH]; intros a b.
  - cbn. split; [discriminate|]. intros [H _]. destruct a; discriminate.
  - cbn [JS.split]. destruct (Ascii.eqb c sep) eqn:E.
    + apply Ascii.eqb_eq in E. subst c. split.
      * intros [= <- H]. apply split_one in H as [-> Hb]. now repeat split.
      * intros (H & Ha & Hb). destruct a as [|a0 a].
        -- injection H as ->. f_equal. apply split_one. now split.
        -- injection H as <- _. cbn [JS.has_char] in Ha.
           rewrite Ascii.eqb_refl in Ha. discriminate.
    + destruct (split_cons sep s) as (w & ws & Hw). rewrite Hw. split.
      * intros [= <- ->]. apply IH in Hw as (-> & Hn & Hb).
        split; [reflexivity|]. split; [|assumption].
        cbn [JS.has_char]. now rewrite E, Hn.
      * intros (H & Ha & Hb). destruct a as [|a0 a].
        -- injection H as -> _. rewrite Ascii.eqb_refl in E. discriminate.
        -- injection H as <- ->. cbn [JS.has_char] in Ha. rewrite E in Ha. cbn [orb] in Ha.
           assert (Hs : JS.split sep (a ++ String sep b) = [a; b]) by (apply IH; now repeat split).
           rewrite Hs in Hw. injection Hw as <- <-. reflexivity.
Qed.

End StringFacts.

(** ** The calendar behind [toISOString] *)

Module CalendarFacts.
Import Calendar StringFacts.

Ltac div_lia := Z.div_mod_to_equations; lia.

Lemma all_from_spec fuel : forall z p, all_from fuel z p = true ->
  forall i, z <= i < z + Z.of_nat fuel -> p i = true.
Proof.
  induction fuel as [|k IH]; intros z p H i Hi; [lia|].
  simpl in H. apply andb_true_iff in H as [Hz Hk].
  destruct (Z.eq_dec i z) as [->|Hne]; [exact Hz|].
  apply (IH (z + 1) p Hk). lia.
Qed.

Lemma all_between_spec lo hi p : all_between lo hi p = true ->
  forall i, lo <= i < hi -> p i = true.
Proof.
  intros H i Hi. apply (all_from_spec _ _ _ H). lia.
Qed.

Lemma DayFromYear_succ y : DayFromYear (y + 1) = DayFromYear y + days_in_year y.
Proof.
  unfold DayFromYear, days_in_year, is_leap.
  destruct (Z.eqb_spec (y mod 4) 0), (Z.eqb_spec (y mod 100) 0),
    (Z.eqb_spec (y mod 400) 0); cbn [andb orb negb]; div_lia.
Qed.

Lemma DayFromYear_mono a b : a <= b -> DayFromYear a <= DayFromYear b.
Proof. intros H. unfold DayFromYear. div_lia. Qed.

Lemma YearFromDay_spec d :
  DayFromYear (YearFromDay d) <= d < DayFromYear (YearFromDay d + 1).
Proof.
  unfold YearFromDay.
  destruct (Z.ltb_spec d (DayFromYear (1970 + 400 * d / 146097))) as [Hlt|Hge].
  - replace (1970 + 400 * d / 146097 - 1 + 1) with (1970 + 400 * d / 146097) by lia.
    split; [|lia]. unfold DayFromYear in *. div_lia.
  - destruct (Z.leb_spec (DayFromYear (1970 + 400 * d / 146097 + 1)) d) as [Hle|Hgt].
    + split; [lia|]. unfold DayFromYear in *. div_lia.
    + lia.
Qed.

Lemma YearFromDay_unique d y :
  DayFromYear y <= d < DayFromYear (y + 1) -> YearFromDay d = y.
Proof.
  intros Hy. pose proof (YearFromDay_spec d) as Hs.
  destruct (Z.lt_trichotomy (YearFromDay d) y) as [Hlt|[Heq|Hgt]]; [|exact Heq|].
  - pose proof (DayFromYear_mono (YearFromDay d + 1) y ltac:(lia)). lia.
  - pose proof (DayFromYear_mono (y + 1) (YearFromDay d) ltac:(lia)). lia.
Qed.

(** [YearFromDay d] is the largest year that starts on day [d] or before. *)
Lemma YearFromDay_largest d y : DayFromYear y <= d -> y <= YearFromDay d.
Proof.
  intros Hy. pose proof (YearFromDay_spec d) as Hs.
  destruct (Z.le_gt_cases y (YearFromDay d)) as [|Hgt]; [assumption|].
  pose proof (DayFromYear_mono (YearFromDay d + 1) y ltac:(lia)). lia.
Qed.

Lemma year_steps_leap : all_between 0 365 (year_step_ok true) = true.
Proof. vm_compute. reflexivity. Qed.

Lemma year_steps_common : all_between 0 364 (year_step_ok false) = true.
Proof. vm_compute. reflexivity. Qed.

Lemma year_step (leap : bool) (dy : Z) :
  0 <= dy -> dy + 1 < (if leap then 366 else 365) -> year_step_ok leap dy = true.
Proof.
  intros H0 H1. destruct leap.
  - apply (all_between_spec _ _ _ year_steps_leap). lia.
  - apply (all_between_spec _ _ _ year_steps_common). lia.
Qed.

Lemma day_within_year d :
  0 <= d - DayFromYear (YearFromDay d) < days_in_year (YearFromDay d).
Proof.
  pose proof (YearFromDay_spec d) as H. rewrite DayFromYear_succ in H. lia.
Qed.

Ltac bools :=
  repeat match goal with
         | H : _ && _ = true |- _ => apply andb_true_iff in H as [? ?]
         | H : (_ <? _) = true |- _ => apply Z.ltb_lt in H
         | H : (_ <? _) = false |- _ => apply Z.ltb_ge in H
         | H : (_ =? _) = true |- _ => apply Z.eqb_eq in H
         end.

Lemma last_day_of_year (leap : bool) (dy : Z) :
  dy + 1 = (if leap then 366 else 365) ->
  MonthFromDay leap dy + 1 = 12 /\ DateFromDay leap dy = 31.
Proof.
  intros H. destruct leap.
  - replace dy with 365 by lia. split; reflexivity.
  - replace dy with 364 by lia. split; reflexivity.
Qed.

Lemma first_day_of_year (leap : bool) :
  MonthFromDay leap 0 + 1 = 1 /\ DateFromDay leap 0 = 1.
Proof. destruct leap; split; reflexivity. Qed.

(** The day after, on day numbers. *)
Lemma civil_from_days_succ d : civil_from_days (d + 1) = next_day (civil_from_days d).
Proof.
  pose proof (day_within_year d) as Hdy.
  pose proof (YearFromDay_spec d) as Hs. rewrite DayFromYear_succ in Hs.
  unfold civil_from_days at 2. unfold next_day. cbn [year month day].
  set (y := YearFromDay d) in *. set (dy := d - DayFromYear y) in *.
  unfold days_in_year in *.
  destruct (Z.eq_dec (dy + 1) (if is_leap y then 366 else 365)) as [Hlast|Hin].
  - (* the last day of the year *)
    assert (Hy : YearFromDay (d + 1) = y + 1).
    { apply YearFromDay_unique. rewrite !DayFromYear_succ. unfold days_in_year.
      destruct (is_leap y), (is_leap (y + 1)); lia. }
    unfold civil_from_days. rewrite Hy.
    replace (d + 1 - DayFromYear (y + 1)) with 0
      by (rewrite DayFromYear_succ; unfold days_in_year; destruct (is_leap y); lia).
    destruct (last_day_of_year _ _ Hlast) as [-> ->].
    destruct (first_day_of_year (is_leap (y + 1))) as [-> ->].
    change (31 <? days_in_month (is_leap y) 12) with false.
    reflexivity.
  - assert (Hy : YearFromDay (d + 1) = y).
    { apply YearFromDay_unique. rewrite DayFromYear_succ. unfold days_in_year.
      destruct (is_leap y); lia. }
    unfold civil_from_days. rewrite Hy.
    replace (d + 1 - DayFromYear y) with (dy + 1) by lia.
    pose proof (year_step (is_leap y) dy ltac:(lia) ltac:(destruct (is_leap y); lia)) as Hok.
    unfold year_step_ok in Hok.
    destruct (DateFromDay (is_leap y) dy <? days_in_month (is_leap y) (MonthFromDay (is_leap y) dy + 1));
      bools.
    + f_equal; lia.
    + destruct (Z.ltb_spec (MonthFromDay (is_leap y) dy + 1) 12); [|lia].
      f_equal; lia.
Qed.

(** The day before, on day numbers. *)
Lemma civil_from_days_pred d : civil_from_days (d - 1) = prev_day (civil_from_days d).
Proof.
  pose proof (civil_from_days_succ (d - 1)) as Hs.
  replace (d - 1 + 1) with d in Hs by lia. rewrite Hs. clear Hs.
  pose proof (day_within_year (d - 1)) as Hdy.
  unfold civil_from_days, next_day, prev_day. cbn [year month day].
  set (y := YearFromDay (d - 1)) in *. set (dy := d - 1 - DayFromYear y) in *.
  unfold days_in_year in *.
  destruct (Z.eq_dec (dy + 1) (if is_leap y then 366 else 365)) as [Hlast|Hin].
  - destruct (last_day_of_year _ _ Hlast) as [-> ->].
    change (31 <? days_in_month (is_leap y) 12) with false.
    change (12 <? 12) with false. cbn [year month day].
    change (1 <? 1) with false. f_equal. lia.
  - pose proof (year_step (is_leap y) dy ltac:(lia) ltac:(destruct (is_leap y); lia)) as Hok.
    unfold year_step_ok in Hok.
    destruct (DateFromDay (is_leap y) dy <? days_in_month (is_leap y) (MonthFromDay (is_leap y) dy + 1));
      destruct (1 <? DateFromDay (is_leap y) (dy + 1)) eqn:E1; bools; try lia.
    + cbn [year month day].
      destruct (Z.ltb_spec 1 (DateFromDay (is_leap y) dy + 1)); [|lia].
      f_equal; lia.
    + destruct (Z.ltb_spec (MonthFromDay (is_leap y) dy + 1) 12); [|lia].
      cbn [year month day]. change (1 <? 1) with false.
      destruct (Z.ltb_spec 1 (MonthFromDay (is_leap y) dy + 1 + 1)); [|lia].
      f_equal; [lia|].
      replace (MonthFromDay (is_leap y) dy + 1 + 1 - 1)
        with (MonthFromDay (is_leap y) (dy + 1) + 1 - 1) by lia.
      lia.
Qed.

Lemma civil_from_days_add d n : civil_from_days (d + n) = add_days (civil_from_days d) n.
Proof.
  unfold add_days. destruct (Z.leb_spec 0 n) as [Hn|Hn].
  - rewrite <- (Z2Nat.id n Hn) at 1. generalize (Z.to_nat n) as k. clear.
    induction k as [|k IH].
    + cbn [Nat.iter nat_rect]. f_equal. lia.
    + rewrite Nat.iter_succ, <- IH, <- civil_from_days_succ. f_equal. lia.
  - replace n with (- Z.of_nat (Z.to_nat (- n))) at 1 by lia.
    generalize (Z.to_nat (- n)) as k. clear.
    induction k as [|k IH].
    + cbn [Nat.iter nat_rect]. f_equal. lia.
    + rewrite Nat.iter_succ, <- IH, <- civil_from_days_pred. f_equal. lia.
Qed.

Lemma serial_epoch_day : civil_from_days (- 25569) = serial_epoch.
Proof. reflexivity. Qed.

(** Years of four digits: the day numbers from 0000-01-01 to 9999-12-31. *)
Lemma YearFromDay_four_digits d :
  -719528 <= d <= 2932896 -> 0 <= YearFromDay d <= 9999.
Proof.
  intros Hd. pose proof (YearFromDay_spec d) as Hs.
  assert (H0 : DayFromYear 0 = -719528) by reflexivity.
  assert (H1 : DayFromYear 10000 = 2932897) by reflexivity.
  split.
  - destruct (Z.le_gt_cases 0 (YearFromDay d)) as [|Hneg]; [assumption|].
    pose proof (DayFromYear_mono (YearFromDay d + 1) 0 ltac:(lia)). lia.
  - destruct (Z.le_gt_cases (YearFromDay d) 9999) as [|Hbig]; [assumption|].
    pose proof (DayFromYear_mono 10000 (YearFromDay d) ltac:(lia)). lia.
Qed.

Lemma four_chars_check :
  all_between 0 10000 (fun y => (String.length (pad_zeros 4 (JS.nat_digits y)) =? 4)%nat) = true.
Proof. vm_compute. reflexivity. Qed.

Lemma year_four_chars y :
  0 <= y <= 9999 -> String.length (pad_zeros 4 (JS.nat_digits y)) = 4%nat.
Proof.
  intros H. apply Nat.eqb_eq.
  apply (all_between_spec _ _ _ four_chars_check). lia.
Qed.

Lemma month_day_two_chars (leap : bool) (dy : Z) :
  0 <= dy < (if leap then 366 else 365) ->
  two_chars (MonthFromDay leap dy + 1) = true /\ two_chars (DateFromDay leap dy) = true.
Proof.
  intros H.
  destruct (Z.eq_dec (dy + 1) (if leap then 366 else 365)) as [Hlast|Hin].
  - destruct (last_day_of_year _ _ Hlast) as [-> ->]. split; reflexivity.
  - pose proof (year_step leap dy ltac:(lia) ltac:(lia)) as Hok.
    unfold year_step_ok in Hok. bools. split; assumption.
Qed.

(** Within the years of four digits, the first ten characters of the ISO
    string are the canonical text of the date. *)
Lemma iso_slice_format d :
  -719528 <= d <= 2932896 ->
  JS.slice0 10 (iso_year (year (civil_from_days d)) ++ "-"
               ++ pad_zeros 2 (JS.nat_digits (month (civil_from_days d))) ++ "-"
               ++ pad_zeros 2 (JS.nat_digits (day (civil_from_days d))))
  = format_ymd (civil_from_days d).
Proof.
  intros Hd. pose proof (YearFromDay_four_digits d Hd) as Hy.
  pose proof (day_within_year d) as Hdy. unfold days_in_year in Hdy.
  destruct (month_day_two_chars (is_leap (YearFromDay d)) (d - DayFromYear (YearFromDay d)))
    as [Hm Hday]; [destruct (is_leap (YearFromDay d)); lia|].
  unfold format_ymd, iso_year. cbn [civil_from_days year month day] in *.
  destruct (Z.leb_spec 0 (YearFromDay d)); [|lia].
  destruct (Z.leb_spec (YearFromDay d) 9999); [|lia].
  cbn [andb]. unfold JS.slice0.
  match goal with |- String.substring 0 10 ?s = _ =>
    replace 10%nat with (String.length s); [apply substring_all|] end.
  rewrite !length_append, (year_four_chars _ Hy).
  unfold two_chars in Hm, Hday. apply Nat.eqb_eq in Hm, Hday.
  rewrite Hm, Hday. reflexivity.
Qed.
End CalendarFacts.

(** ** The date normalizer *)

Module DateFacts.
Import Calendar StringFacts CalendarFacts Dates.

Lemma normalizeDate_serial_nonzero host v :
  v <> 0 -> -693959 <= v <= 2958465 ->
  normalizeDate host (VNum v) = Normal (Some (format_ymd (add_days serial_epoch v))).
Proof.
  intros Hv Hr. unfold normalizeDate. cbn [truthy is_valid_date].
  destruct (Z.eqb_spec v 0) as [|_]; [contradiction|]. cbn [negb].
  unfold iso_day, toISOString_slice10, time_valid, maxTime.
  destruct (Z.leb_spec (Z.abs ((v - 25569) * 86400 * 1000)) 8640000000000000); [|lia].
  unfold iso_date_part, Day, msPerDay.
  replace ((v - 25569) * 86400 * 1000 / 86400000) with (v - 25569)
    by (Z.div_mod_to_equations; lia).
  cbv zeta. rewrite iso_slice_format by lia.
  replace (v - 25569) with (-25569 + v) by lia.
  now rewrite civil_from_days_add, serial_epoch_day.
Qed.

(** An integer serial [v] other than 0, within the years of four digits, is
    normalized to the YYYY-MM-DD text of the date [v] days after 1899-12-30;
    the serial 0 is normalized to null. *)
Lemma normalizeDate_serial host v :
  -693959 <= v <= 2958465 ->
  normalizeDate host (VNum v) =
    if v =? 0 then Normal None
    else Normal (Some (format_ymd (add_days serial_epoch v))).
Proof.
  intros Hr. destruct (Z.eqb_spec v 0) as [->|Hv].
  - reflexivity.
  - now apply normalizeDate_serial_nonzero.
Qed.

Lemma normalizeDate_serial_witness :
  -693959 <= 45000 <= 2958465
  /\ normalizeDate (Samples.host []) (VNum 45000) = Normal (Some "2023-03-15").
Proof.
  split; [lia | apply (normalizeDate_serial (Samples.host []) 45000); lia].
Defined.

(** The serial 0 is not mapped to the date 0 days after 1899-12-30. *)
Lemma normalizeDate_serial_zero :
  normalizeDate (Samples.host []) (VNum 0) = Normal None
  /\ format_ymd (add_days serial_epoch 0) = "1899-12-30".
Proof. split; reflexivity. Qed.

(** Outside the years of four digits the text is not a YYYY-MM-DD date, and
    beyond the range of time values [toISOString] throws. *)
Lemma normalizeDate_serial_far :
  normalizeDate (Samples.host []) (VNum 2958466) = Normal (Some "+010000-01")
  /\ normalizeDate (Samples.host []) (VNum 100000025570) = Throw "Invalid time value".
Proof. split; reflexivity. Qed.

(** *** Texts *)

Lemma span_digits_spec s : forall a r,
  span_digits s = (a, r) -> s = a ++ r /\ all_digits a = true /\ starts_nondigit r.
Proof.
  induction s as [|c s IH]; intros a r H; cbn [span_digits] in H.
  - injection H as <- <-. repeat split.
  - destruct (JS.is_digit c) eqn:Hc.
    + destruct (span_digits s) as [d rest] eqn:Hs. injection H as <- <-.
      destruct (IH d rest eq_refl) as (-> & Hd & Hr).
      repeat split; [|assumption]. cbn [all_digits]. now rewrite Hc, Hd.
    + injection H as <- <-. repeat split. exact Hc.
Qed.

Lemma span_digits_app a : forall r,
  all_digits a = true -> starts_nondigit r -> span_digits (a ++ r) = (a, r).
Proof.
  induction a as [|c a IH]; intros r Ha Hr.
  - destruct r as [|c r]; [reflexivity|]. unfold starts_nondigit in Hr.
    change (span_digits (EmptyString ++ String c r)) with
      (if JS.is_digit c then let '(d, rest) := span_digits r in (String c d, rest)
       else (EmptyString, String c r)).
    now rewrite Hr.
  - cbn [all_digits] in Ha. apply andb_true_iff in Ha as [Hc Ha].
    change (span_digits (String c a ++ r)) with
      (if JS.is_digit c then let '(d, rest) := span_digits (a ++ r) in (String c d, rest)
       else (EmptyString, String c (a ++ r))).
    now rewrite Hc, (IH r Ha Hr).
Qed.

Lemma sep_nondigit c : is_sep c = true -> JS.is_digit c = false.
Proof.
  unfold is_sep. intros H. apply orb_true_iff in H as [H|H];
    apply Ascii.eqb_eq in H; subst c; reflexivity.
Qed.

Lemma three_runs_text a c1 b c2 c :
  all_digits a = true -> all_digits b = true -> all_digits c = true ->
  is_sep c1 = true -> is_sep c2 = true ->
  three_runs (date_text a c1 b c2 c) = Some (a, b, c).
Proof.
  intros Ha Hb Hc H1 H2. unfold three_runs, date_text.
  rewrite (span_digits_app a _ Ha) by (apply sep_nondigit, H1). rewrite H1.
  rewrite (span_digits_app b _ Hb) by (apply sep_nondigit, H2). rewrite H2.
  rewrite <- (append_nil_r c) at 1.
  rewrite (span_digits_app c EmptyString Hc) by exact I.
  reflexivity.
Qed.

Lemma three_runs_inv s a b c :
  three_runs s = Some (a, b, c) ->
  exists c1 c2, s = date_text a c1 b c2 c
    /\ all_digits a = true /\ all_digits b = true /\ all_digits c = true
    /\ is_sep c1 = true /\ is_sep c2 = true.
Proof.
  unfold three_runs. intros H.
  destruct (span_digits s) as [a' r1] eqn:E1.
  destruct r1 as [|c1 r1]; [discriminate|].
  destruct (is_sep c1) eqn:S1; [|discriminate].
  destruct (span_digits r1) as [b' r2] eqn:E2.
  destruct r2 as [|c2 r2]; [discriminate|].
  destruct (is_sep c2) eqn:S2; [|discriminate].
  destruct (span_digits r2) as [c' r3] eqn:E3.
  destruct r3; [|discriminate]. injection H as -> -> ->.
  apply span_digits_spec in E1 as (-> & Ha & _).
  apply span_digits_spec in E2 as (-> & Hb & _).
  apply span_digits_spec in E3 as (-> & Hc & _).
  exists c1, c2. rewrite append_nil_r. unfold date_text. repeat split; assumption.
Qed.

Lemma len_in_spec lo hi s :
  len_in lo hi s = true <-> (lo <= String.length s <= hi)%nat.
Proof.
  unfold len_in. rewrite andb_true_iff, !Nat.leb_le. reflexivity.
Qed.

Lemma match_iso_spec t y m d : match_iso t = Some (y, m, d) <-> is_ymd_text t y m d.
Proof.
  unfold match_iso, is_ymd_text. split.
  - destruct (three_runs t) as [[[a b] c]|] eqn:E; [|discriminate].
    destruct (len_in 4 4 a && len_in 1 2 b && len_in 1 2 c) eqn:L; [|discriminate].
    intros H. injection H as -> -> ->.
    apply andb_true_iff in L as [L Ld]. apply andb_true_iff in L as [Ly Lm].
    apply len_in_spec in Ly, Lm, Ld.
    destruct (three_runs_inv _ _ _ _ E) as (c1 & c2 & -> & Hy & Hm & Hd & H1 & H2).
    exists c1, c2. repeat split; try assumption; lia.
  - intros (c1 & c2 & -> & Hy & Hm & Hd & H1 & H2 & Ly & Lm & Ld).
    rewrite (three_runs_text _ _ _ _ _ Hy Hm Hd H1 H2).
    replace (len_in 4 4 y) with true by (symmetry; apply len_in_spec; lia).
    replace (len_in 1 2 m) with true by (symmetry; apply len_in_spec; lia).
    replace (len_in 1 2 d) with true by (symmetry; apply len_in_spec; lia).
    reflexivity.
Qed.

Lemma match_dmy_spec t d m y : match_dmy t = Some (d, m, y) <-> is_dmy_text t d m y.
Proof.
  unfold match_dmy, is_dmy_text. split.
  - destruct (three_runs t) as [[[a b] c]|] eqn:E; [|discriminate].
    destruct (len_in 1 2 a && len_in 1 2 b && len_in 2 4 c) eqn:L; [|discriminate].
    intros H. injection H as -> -> ->.
    apply andb_true_iff in L as [L Ly]. apply andb_true_iff in L as [Ld Lm].
    apply len_in_spec in Ly, Lm, Ld.
    destruct (three_runs_inv _ _ _ _ E) as (c1 & c2 & -> & Hd & Hm & Hy & H1 & H2).
    exists c1, c2. repeat split; try assumption; lia.
  - intros (c1 & c2 & -> & Hd & Hm & Hy & H1 & H2 & Ld & Lm & Ly).
    rewrite (three_runs_text _ _ _ _ _ Hd Hm Hy H1 H2).
    replace (len_in 1 2 d) with true by (symmetry; apply len_in_spec; lia).
    replace (len_in 1 2 m) with true by (symmetry; apply len_in_spec; lia).
    replace (len_in 2 4 y) with true by (symmetry; apply len_in_spec; lia).
    reflexivity.
Qed.

(** A text of four digits first is not a text of one or two digits first. *)
Lemma ymd_not_dmy t y m d d' m' y' : is_ymd_text t y m d -> ~ is_dmy_text t d' m' y'.
Proof.
  intros Hi Hd. apply match_iso_spec in Hi. apply match_dmy_spec in Hd.
  unfold match_iso, match_dmy in *.
  destruct (three_runs t) as [[[a b] c]|]; [|discriminate].
  destruct (len_in 4 4 a) eqn:L4; [|discriminate].
  destruct (len_in 1 2 a) eqn:L1; [|discriminate].
  apply len_in_spec in L4, L1. lia.
Qed.

Lemma date_text_nonempty a c1 b c2 c : date_text a c1 b c2 c <> "".
Proof. unfold date_text. destruct a; discriminate. Qed.

Lemma normalizeDate_string host s :
  s <> "" ->
  normalizeDate host (VStr s) =
    match match_iso (JS.trim s) with
    | Some (y, m, d) => Normal (Some (y ++ "-" ++ JS.padStart2 m ++ "-" ++ JS.padStart2 d))
    | None =>
        match match_dmy (JS.trim s) with
        | Some (d, m, y) =>
            Normal (Some (JS.number_toString (window_year (JS.number_of_digits y))
                          ++ "-" ++ JS.padStart2 m ++ "-" ++ JS.padStart2 d))
        | None => Normal None
        end
    end.
Proof.
  intros Hs. unfold normalizeDate. cbn [truthy is_valid_date toString].
  unfold nonempty. destruct (String.eqb_spec s ""); [contradiction|]. reflexivity.
Qed.

Lemma trimmed_text_nonempty s a c1 b c2 c : JS.trim s = date_text a c1 b c2 c -> s <> "".
Proof.
  intros H ->. apply (date_text_nonempty a c1 b c2 c). rewrite <- H. reflexivity.
Qed.

(** C6, amended: the text is matched after white space around it is removed.
    A year of four digits followed by month and day gives them back with month
    and day padded to two digits.  Day, month and a year of two to four
    digits are read in that order; the number [n] of the year stands for
    [2000 + n] below 70, for [1900 + n] from 70 to 99 and for itself from 100
    on, and is printed without padding.  Null, the empty text and every text
    of another shape give null; no text makes the normalizer throw. *)
Theorem normalizeDate_text host s :
  (forall y m d, is_ymd_text (JS.trim s) y m d ->
     normalizeDate host (VStr s)
     = Normal (Some (y ++ "-" ++ JS.padStart2 m ++ "-" ++ JS.padStart2 d)))
  /\ (forall d m y, is_dmy_text (JS.trim s) d m y ->
       let n := JS.number_of_digits y in
       let year := if n <? 70 then 2000 + n else if n <? 100 then 1900 + n else n in
       normalizeDate host (VStr s)
       = Normal (Some (JS.number_toString year ++ "-" ++ JS.padStart2 m ++ "-" ++ JS.padStart2 d)))
  /\ ((forall y m d, ~ is_ymd_text (JS.trim s) y m d) ->
       (forall d m y, ~ is_dmy_text (JS.trim s) d m y) ->
       normalizeDate host (VStr s) = Normal None)
  /\ (s = "" -> normalizeDate host (VStr s) = Normal None)
  /\ normalizeDate host VNull = Normal None
  /\ (exists r, normalizeDate host (VStr s) = Normal r).
Proof.
  assert (Hshape : s <> "" -> _) by exact (normalizeDate_string host s).
  repeat split.
  - intros y m d Hi.
    assert (Hs : s <> "") by (destruct Hi as (c1 & c2 & E & _); exact (trimmed_text_nonempty _ _ _ _ _ _ E)).
    rewrite (Hshape Hs). apply match_iso_spec in Hi. now rewrite Hi.
  - intros d m y Hd n year.
    assert (Hs : s <> "") by (destruct Hd as (c1 & c2 & E & _); exact (trimmed_text_nonempty _ _ _ _ _ _ E)).
    rewrite (Hshape Hs).
    destruct (match_iso (JS.trim s)) as [[[a b] c]|] eqn:E.
    { apply match_iso_spec in E. destruct (ymd_not_dmy _ _ _ _ _ _ _ E Hd). }
    apply match_dmy_spec in Hd. rewrite Hd.
    replace (window_year (JS.number_of_digits y)) with year; [reflexivity|].
    subst year n. unfold window_year.
    destruct (Z.ltb_spec (JS.number_of_digits y) 70), (Z.ltb_spec (JS.number_of_digits y) 100),
      (Z.leb_spec 70 (JS.number_of_digits y)); lia.
  - intros Hi Hd. destruct (String.eqb_spec s "") as [->|Hs]; [reflexivity|].
    rewrite (Hshape Hs).
    destruct (match_iso (JS.trim s)) as [[[a b] c]|] eqn:E.
    { apply match_iso_spec in E. destruct (Hi _ _ _ E). }
    destruct (match_dmy (JS.trim s)) as [[[a b] c]|] eqn:E'.
    { apply match_dmy_spec in E'. destruct (Hd _ _ _ E'). }
    reflexivity.
  - intros ->. reflexivity.
  - destruct (String.eqb_spec s "") as [->|Hs]; [eexists; reflexivity|].
    rewrite (Hshape Hs).
    destruct (match_iso (JS.trim s)) as [[[a b] c]|]; [eexists; reflexivity|].
    destruct (match_dmy (JS.trim s)) as [[[a b] c]|]; eexists; reflexivity.
Qed.

Lemma normalizeDate_text_witness :
  is_dmy_text (JS.trim " 5/3/24 ") "5" "3" "24"
  /\ normalizeDate (Samples.host []) (VStr " 5/3/24 ") = Normal (Some "2024-03-05").
Proof.
  assert (H : is_dmy_text (JS.trim " 5/3/24 ") "5" "3" "24").
  { exists "/"%char, "/"%char. repeat split; cbn; lia. }
  split; [exact H|].
  exact (proj1 (proj2 (normalizeDate_text (Samples.host []) " 5/3/24 ")) "5" "3" "24" H).
Defined.

(** A year of three digits is in neither pattern of the specification, and
    the text is normalized all the same. *)
Lemma normalizeDate_three_digit_year :
  spec_pattern_ymd "5/3/123" = false /\ spec_pattern_dmy "5/3/123" = false
  /\ normalizeDate (Samples.host []) (VStr "5/3/123") = Normal (Some "123-03-05").
Proof. repeat split. Qed.

(** White space around the text does not prevent the match, and a year of
    four digits whose number is below 100 is moved into a century. *)
Lemma normalizeDate_text_samples :
  spec_pattern_ymd " 2024-3-5" = false /\ spec_pattern_dmy " 2024-3-5" = false
  /\ normalizeDate (Samples.host []) (VStr " 2024-3-5") = Normal (Some "2024-03-05")
  /\ normalizeDate (Samples.host []) (VStr "5/3/0050") = Normal (Some "2050-03-05")
  /\ normalizeDate (Samples.host []) (VStr "2024-3-5") = Normal (Some "2024-03-05")
  /\ normalizeDate (Samples.host []) (VStr "5/3/70") = Normal (Some "1970-03-05")
  /\ normalizeDate (Samples.host []) (VStr "31-12-69") = Normal (Some "2069-12-31")
  /\ normalizeDate (Samples.host []) (VStr "not a date") = Normal None
  /\ normalizeDate (Samples.host []) (VStr "2024-13-45") = Normal (Some "2024-13-45").
Proof. repeat split. Qed.

End DateFacts.

(** ** The authentication gate *)

Module AuthFacts.
Import Auth.

Lemma opt_truthy_spec o : opt_truthy o = true <-> exists k, o = Some k /\ k <> "".
Proof.
  unfold opt_truthy, of_option. destruct o as [k|]; cbn [truthy].
  - unfold nonempty. destruct (String.eqb_spec k ""); cbn [negb]; split.
    + discriminate.
    + intros (k' & [= <-] & Hk). contradiction.
    + intros _. now exists k.
    + reflexivity.
  - split; [discriminate|]. intros (k & [=] & _).
Qed.

Lemma opt_truthy_blank o : opt_truthy o = false <-> blank o.
Proof.
  unfold blank. split.
  - intros H. destruct o as [k|]; [|now left]. right. f_equal.
    destruct (String.eqb_spec k "") as [|Hk]; [assumption|].
    assert (opt_truthy (Some k) = true) by (apply opt_truthy_spec; now exists k). congruence.
  - intros [->| ->]; reflexivity.
Qed.

Lemma presented_key_first req k :
  first_key req k <-> (presented_key req = Some k /\ k <> "").
Proof.
  unfold first_key, presented_key, opt_or. split.
  - intros (Hk & [H1 | [(B1 & H2) | (B1 & B2 & H3)]]).
    + assert (T : opt_truthy (headers req !! "x-admin-key") = true)
        by (apply opt_truthy_spec; now exists k).
      rewrite T, T. now split.
    + apply opt_truthy_blank in B1. rewrite B1.
      assert (T : opt_truthy (query req !! "admin_key") = true)
        by (apply opt_truthy_spec; now exists k).
      rewrite T. now split.
    + apply opt_truthy_blank in B1, B2. rewrite B1, B2. now split.
  - intros (H & Hk). split; [assumption|].
    destruct (opt_truthy (headers req !! "x-admin-key")) eqn:T1.
    + rewrite T1 in H. now left.
    + apply opt_truthy_blank in T1.
      destruct (opt_truthy (query req !! "admin_key")) eqn:T2.
      * right. left. now split.
      * apply opt_truthy_blank in T2. right. right. now repeat split.
Qed.

Lemma key_admits_spec env req :
  key_admits env req = true <-> exists k, first_key req k /\ ADMIN_API_KEY env = Some k.
Proof.
  unfold key_admits. split.
  - destruct (presented_key req) as [k|] eqn:P; [|discriminate].
    destruct (ADMIN_API_KEY env) as [a|]; [|discriminate].
    intros H. apply andb_true_iff in H as [Hk He].
    apply String.eqb_eq in He. subst a. exists k. split; [|reflexivity].
    apply presented_key_first. split; [assumption|].
    unfold nonempty in Hk. destruct (String.eqb_spec k ""); [discriminate|assumption].
  - intros (k & Hf & ->). apply presented_key_first in Hf as [-> Hk].
    unfold nonempty. destruct (String.eqb_spec k ""); [contradiction|].
    cbn [negb andb]. apply String.eqb_refl.
Qed.

Lemma email_allowed_spec env u : email_allowed env u = true <-> allowlisted env u.
Proof.
  unfold email_allowed, allowlisted.
  assert (Hex : forall e l, existsb (String.eqb e) l = true <-> In e l).
  { intros e l. rewrite existsb_exists. split.
    - intros (x & Hin & Hx). apply String.eqb_eq in Hx. now subst.
    - intros Hin. exists e. split; [assumption|apply String.eqb_refl]. }
  destruct (ADMIN_EMAILS env) as [|a l] eqn:E.
  - split; [discriminate|]. intros (e & _ & []).
  - destruct (email u) as [e|].
    + rewrite Hex. split; [intros H; now exists e|]. intros (e' & [= <-] & Hin). exact Hin.
    + split; [discriminate|]. intros (e & [=] & _).
Qed.

Lemma role_is_admin_spec u :
  role_is_text u ->
  exists b, role_is_admin (role u ||| VStr "") = Normal b /\ (b = true <-> admin_role u).
Proof.
  unfold role_is_text, role_is_admin, admin_role, or_else.
  intros [(s & ->) | Hf].
  - destruct (truthy (VStr s)) eqn:T.
    + rewrite T. exists (String.eqb (JS.toLowerCase s) "admin"). split; [reflexivity|].
      rewrite String.eqb_eq. split.
      * intros H. now exists s.
      * intros (s' & [= <-] & H). exact H.
    + exists false. split; [reflexivity|]. split; [discriminate|].
      intros (s' & [= <-] & Hl). destruct s; [discriminate Hl | discriminate T].
  - rewrite Hf. exists false. split; [reflexivity|]. split; [discriminate|].
    intros (s & Hr & Hl). rewrite Hr in Hf.
    destruct s; [discriminate Hl | discriminate Hf].
Qed.

(** The header the gate takes for a bearer token: one word that reads
    "bearer" up to case, one space, and a token without a space. *)
Lemma bearer_token_spec req token :
  bearer_token req = Some token
  <-> exists scheme,
        headers req !! "authorization" = Some (scheme ++ String " " token)
        /\ JS.has_char " " scheme = false /\ JS.has_char " " token = false
        /\ JS.toLowerCase scheme = "bearer".
Proof.
  unfold bearer_token, auth_words. split.
  - destruct (JS.split " " (default "" (headers req !! "authorization")))
      as [|scheme [|tok [|x l]]] eqn:S; try discriminate.
    destruct (String.eqb_spec (JS.toLowerCase scheme) "bearer") as [Hl|]; [|discriminate].
    intros [= <-]. apply StringFacts.split_two in S as (Hh & Hs & Ht).
    exists scheme. repeat split; try assumption.
    destruct (headers req !! "authorization") as [h|].
    + change (default "" (Some h)) with h in Hh. now rewrite Hh.
    + change (default "" None) with "" in Hh. destruct scheme; discriminate.
  - intros (scheme & Hh & Hs & Ht & Hl). rewrite Hh.
    change (default "" (Some (scheme ++ String " " token))) with (scheme ++ String " " token).
    assert (S : JS.split " " (scheme ++ String " " token) = [scheme; token])
      by (apply StringFacts.split_two; now repeat split).
    rewrite S, Hl. reflexivity.
Qed.

(** What the comparison of the role does with each kind of claim. *)
Lemma role_is_admin_cases u :
  (admin_role u /\ role_is_admin (role u ||| VStr "") = Normal true)
  \/ (role_is_text u /\ ~ admin_role u /\ role_is_admin (role u ||| VStr "") = Normal false)
  \/ (~ role_is_text u /\ ~ admin_role u
      /\ exists message, role_is_admin (role u ||| VStr "") = Throw message).
Proof.
  destruct (role u) as [| |b|n|s|t] eqn:R.
  1,2: right; left; split; [right; now rewrite R|]; split; [|reflexivity];
       intros (s & Hs & _); congruence.
  - destruct b.
    + right. right. split; [|split].
      * intros [(s & Hs) | Hf]; [congruence|]. rewrite R in Hf. discriminate.
      * intros (s & Hs & _). congruence.
      * now eexists.
    + right. left. split; [right; now rewrite R|]. split; [|reflexivity].
      intros (s & Hs & _). congruence.
  - destruct (Z.eqb_spec n 0) as [->|Hn].
    + right. left. split; [right; now rewrite R|]. split; [|reflexivity].
      intros (s & Hs & _). congruence.
    + assert (T : truthy (VNum n) = true).
      { cbn [truthy]. apply negb_true_iff. now apply Z.eqb_neq. }
      right. right. split; [|split].
      * intros [(s & Hs) | Hf]; [congruence|]. rewrite R in Hf. congruence.
      * intros (s & Hs & _). congruence.
      * unfold role_is_admin, or_else. rewrite T, T. now eexists.
  - assert (Ht : role_is_text u) by (left; now exists s).
    destruct (role_is_admin_spec u Ht) as (b & Hb & Hiff). rewrite R in Hb.
    destruct b.
    + left. split; [now apply Hiff|exact Hb].
    + right. left. split; [exact Ht|]. split; [|exact Hb].
      intros Ha. apply Hiff in Ha. discriminate.
  - right. right. split; [|split].
    + intros [(s & Hs) | Hf]; [congruence|]. rewrite R in Hf. discriminate.
    + intros (s & Hs & _). congruence.
    + now eexists.
Qed.

(** C1, amended: past the static key, a request without a bearer header is
    rejected with 401 "missing credentials".  With a bearer header the
    identity service is asked about the token, once: a validation that
    returns an error or no user is rejected with 401 "invalid token", and one
    that throws is answered 500 "auth error"; a validated user is admitted
    when the role claim is the text "admin" up to case; when the role claim
    is another text or is falsy, the user is admitted exactly when the email
    is in the allowlist and rejected with 403 "forbidden" otherwise; a role
    claim that is truthy and not a text is answered 500 "auth error",
    whatever the email. *)
Theorem adminAuth_bearer env getUser req :
  key_admits env req = false ->
  match bearer_token req with
  | None => adminAuth env getUser req = (Reject 401 "missing credentials", [])
  | Some token =>
      exists outcome,
        adminAuth env getUser req = (outcome, [token])
        /\ match getUser token with
           | GetUserThrows _ => outcome = Reject 500 "auth error"
           | GetUserReturns (Some _) _ | GetUserReturns None None =>
               outcome = Reject 401 "invalid token"
           | GetUserReturns None (Some u) =>
               (admin_role u -> outcome = Admit (Some u))
               /\ (role_is_text u -> ~ admin_role u -> allowlisted env u ->
                   outcome = Admit (Some u))
               /\ (role_is_text u -> ~ admin_role u -> ~ allowlisted env u ->
                   outcome = Reject 403 "forbidden")
               /\ (~ role_is_text u -> outcome = Reject 500 "auth error")
           end
  end.
Proof.
  intros Hkey. unfold adminAuth. rewrite Hkey.
  destruct (bearer_token req) as [token|]; [|reflexivity].
  eexists. split; [reflexivity|].
  destruct (getUser token) as [m|[e|] [u|]]; try reflexivity.
  pose proof (email_allowed_spec env u) as Hmail.
  destruct (role_is_admin_cases u) as [(Ha & ->) | [(Ht & Hn & ->) | (Ht & Hn & m & ->)]].
  - split; [reflexivity|]. split; [intros _ H; contradiction|].
    split; [intros _ H; contradiction|].
    intros H. destruct H. destruct Ha as (s & Hs & _). left. now exists s.
  - split; [intros H; contradiction|].
    destruct (email_allowed env u).
    + split; [reflexivity|]. split; [|intros H; contradiction].
      intros _ _ H. destruct H. now apply Hmail.
    + split; [|split; [reflexivity|intros H; contradiction]].
      intros _ _ H. apply Hmail in H. discriminate.
  - split; [intros H; contradiction|]. split; [intros H; contradiction|].
    split; [intros H; contradiction|]. reflexivity.
Qed.

Lemma adminAuth_bearer_witness :
  let req := Samples.request [("authorization", "Bearer t-admin")] [] in
  key_admits Samples.env req = false
  /\ adminAuth Samples.env Samples.getUser req = (Admit (Some Samples.admin_user), ["t-admin"]).
Proof.
  intros req. split; [vm_compute; reflexivity|].
  assert (Hkey : key_admits Samples.env req = false) by (vm_compute; reflexivity).
  pose proof (adminAuth_bearer Samples.env Samples.getUser req Hkey) as H.
  assert (Htok : bearer_token req = Some "t-admin") by (vm_compute; reflexivity).
  rewrite Htok in H. destruct H as (outcome & Hrun & Hout).
  change (Samples.getUser "t-admin") with (GetUserReturns None (Some Samples.admin_user)) in Hout.
  destruct Hout as (Hadmin & _). rewrite Hrun. f_equal. apply Hadmin. now exists "Admin".
Defined.

(** A validated user whose email is in the allowlist and whose role claim is
    the number 1 is not admitted: the answer is 500 "auth error". *)
Lemma adminAuth_numbered_role :
  let req := Samples.request [("authorization", "Bearer t-number")] [] in
  key_admits Samples.env req = false
  /\ bearer_token req = Some "t-number"
  /\ Samples.getUser "t-number" = GetUserReturns None (Some Samples.numbered_user)
  /\ allowlisted Samples.env Samples.numbered_user
  /\ adminAuth Samples.env Samples.getUser req = (Reject 500 "auth error", ["t-number"]).
Proof.
  intros req. split; [vm_compute; reflexivity|]. split; [vm_compute; reflexivity|].
  split; [reflexivity|]. split; [|vm_compute; reflexivity].
  exists "root@example.com". split; [reflexivity|]. vm_compute. now left.
Qed.

(** The other outcomes of the bearer path on the sample identity service. *)
Example adminAuth_samples :
  adminAuth Samples.env Samples.getUser (Samples.request [("authorization", "bearer t-plain")] [])
    = (Reject 403 "forbidden", ["t-plain"])
  /\ adminAuth Samples.env Samples.getUser (Samples.request [("authorization", "Bearer nope")] [])
      = (Reject 401 "invalid token", ["nope"])
  /\ adminAuth Samples.env Samples.getUser (Samples.request [] [])
      = (Reject 401 "missing credentials", [])
  /\ adminAuth Samples.env Samples.getUser (Samples.request [("authorization", "Bearer  t-admin")] [])
      = (Reject 401 "missing credentials", [])
  /\ adminAuth Samples.env Samples.getUser (Samples.request [("authorization", "Bearer t-number")] [])
      = (Reject 500 "auth error", ["t-number"]).
Proof. repeat split; vm_compute; reflexivity. Qed.

(** C2, amended: when the first value that is not blank among the
    x-admin-key header, the admin_key query parameter and the
    x-legacy-admin-key header equals the configured static key, the gate admits
    at once, without a call to the identity service, whatever the
    authorization header holds. *)
Theorem adminAuth_static_key env getUser req k :
  first_key req k -> ADMIN_API_KEY env = Some k ->
  adminAuth env getUser req = (Admit None, []).
Proof.
  intros Hf Ha. unfold adminAuth.
  replace (key_admits env req) with true; [reflexivity|].
  symmetry. apply key_admits_spec. now exists k.
Qed.

Lemma adminAuth_static_key_witness :
  let req := Samples.request [("x-legacy-admin-key", "s3cret"); ("authorization", "Bearer nope")]
                             [("admin_key", "")] in
  first_key req "s3cret" /\ ADMIN_API_KEY Samples.env = Some "s3cret"
  /\ adminAuth Samples.env Samples.getUser req = (Admit None, []).
Proof.
  intros req.
  assert (Hf : first_key req "s3cret").
  { split; [discriminate|]. right. right. split; [|split].
    - left. vm_compute. reflexivity.
    - right. vm_compute. reflexivity.
    - vm_compute. reflexivity. }
  split; [exact Hf|]. split; [reflexivity|].
  exact (adminAuth_static_key Samples.env Samples.getUser req "s3cret" Hf eq_refl).
Defined.

(** A request that presents the configured key in the query parameter, under
    another value in the x-admin-key header, is not admitted. *)
Lemma adminAuth_key_shadowed :
  let req := Samples.request [("x-admin-key", "wrong")] [("admin_key", "s3cret")] in
  presents req "s3cret" /\ ADMIN_API_KEY Samples.env = Some "s3cret"
  /\ adminAuth Samples.env Samples.getUser req = (Reject 401 "missing credentials", []).
Proof.
  intros req. split; [|split].
  - right. left. vm_compute. reflexivity.
  - reflexivity.
  - vm_compute. reflexivity.
Qed.

Lemma admit_inv env getUser req a :
  key_admits env req = false ->
  fst (adminAuth env getUser req) = Admit a ->
  exists u token, a = Some u /\ bearer_token req = Some token
    /\ getUser token = GetUserReturns None (Some u)
    /\ (admin_role u \/ allowlisted env u).
Proof.
  intros Hkey. unfold adminAuth. rewrite Hkey.
  destruct (bearer_token req) as [token|]; [|discriminate].
  cbn [fst]. destruct (getUser token) as [m|[e|] [u|]] eqn:G; try discriminate.
  intros H. exists u, token.
  assert (Hgoal : a = Some u /\ (admin_role u \/ allowlisted env u)); [|tauto].
  revert H. unfold role_is_admin.
  destruct (truthy (role u ||| VStr "")) eqn:T.
  - destruct (role u ||| VStr "") as [| |b|n|s|t] eqn:R; try discriminate.
    destruct (String.eqb_spec (JS.toLowerCase s) "admin") as [Hs|Hs].
    + intros [= <-]. split; [reflexivity|]. left. exists s. split; [|assumption].
      unfold or_else in R. destruct (truthy (role u)); [assumption|].
      injection R as <-. discriminate Hs.
    + destruct (email_allowed env u) eqn:E; [|discriminate].
      intros [= <-]. split; [reflexivity|]. right. now apply email_allowed_spec.
  - destruct (email_allowed env u) eqn:E; [|discriminate].
    intros [= <-]. split; [reflexivity|]. right. now apply email_allowed_spec.
Qed.

(** C9: a request none of whose keys is the configured static key, or that
    comes when no static key is configured, and that has no bearer header is
    rejected with 401 "missing credentials", the answer of a request without
    any credentials, and the identity service is not asked; such a request
    is never admitted by its key: whatever its authorization header, it is
    admitted only with the user of a validated bearer token. *)
Theorem adminAuth_wrong_key env getUser req :
  (forall k, presents req k -> ADMIN_API_KEY env <> Some k) ->
  (bearer_token req = None ->
     adminAuth env getUser req = (Reject 401 "missing credentials", []))
  /\ (forall a, fst (adminAuth env getUser req) = Admit a ->
       exists u token, a = Some u /\ bearer_token req = Some token
         /\ getUser token = GetUserReturns None (Some u)
         /\ (admin_role u \/ allowlisted env u)).
Proof.
  intros Hne.
  assert (Hkey : key_admits env req = false).
  { destruct (key_admits env req) eqn:K; [|reflexivity].
    apply key_admits_spec in K as (k & (_ & Hf) & Ha).
    destruct (Hne k); [|assumption]. unfold presents. tauto. }
  split.
  - intros Hb. unfold adminAuth. now rewrite Hkey, Hb.
  - intros a. now apply admit_inv.
Qed.

Lemma adminAuth_wrong_key_witness :
  let req := Samples.request [("x-admin-key", "guess")] [("admin_key", "s3cre")] in
  presents req "guess" /\ presents req "s3cre"
  /\ adminAuth Samples.env Samples.getUser req = (Reject 401 "missing credentials", []).
Proof.
  intros req.
  split; [left; vm_compute; reflexivity|]. split; [right; left; vm_compute; reflexivity|].
  destruct (adminAuth_wrong_key Samples.env Samples.getUser req) as [H _].
  - intros k [H | [H | H]]; vm_compute in H; [| |discriminate];
      injection H as <-; discriminate.
  - apply H. vm_compute. reflexivity.
Defined.

(** The same holds when only the first value that is not blank among the
    three places differs from the configured key. *)
Lemma adminAuth_first_key_differs env getUser req k :
  first_key req k -> ADMIN_API_KEY env <> Some k ->
  (bearer_token req = None ->
     adminAuth env getUser req = (Reject 401 "missing credentials", []))
  /\ (forall a, fst (adminAuth env getUser req) = Admit a ->
       exists u token, a = Some u /\ bearer_token req = Some token
         /\ getUser token = GetUserReturns None (Some u)
         /\ (admin_role u \/ allowlisted env u)).
Proof.
  intros Hf Hne.
  assert (Hkey : key_admits env req = false).
  { destruct (key_admits env req) eqn:K; [|reflexivity].
    apply key_admits_spec in K as (k' & Hf' & Ha).
    apply presented_key_first in Hf as [Hp _], Hf' as [Hp' _].
    rewrite Hp in Hp'. injection Hp' as <-. contradiction. }
  split.
  - intros Hb. unfold adminAuth. now rewrite Hkey, Hb.
  - intros a. now apply admit_inv.
Qed.

End AuthFacts.

(** ** The record mapper *)

Module MapperFacts.
Import Mapper.



Lemma or_undefined_comm v : v ||| VUndefined = VUndefined ||| v \/ truthy v = false.
Proof. unfold or_else. destruct (truthy v); [left; reflexivity|right; reflexivity]. Qed.





Lemma keep_spec x : keep x = true <-> brand_name x <> "" /\ common_label x <> "".
Proof.
  unfold keep, nonempty. rewrite andb_true_iff, !negb_true_iff.
  split; intros [H1 H2].
  - split; intros E; rewrite E in *; discriminate.
  - split; apply String.eqb_neq; assumption.
Qed.

Lemma filter_keep xs :
  List.filter keep xs = filter (fun x => brand_name x <> "" /\ common_label x <> "") xs.
Proof.
  induction xs as [|x xs IH]; [reflexivity|].
  cbn [List.filter]. rewrite filter_cons, <- IH.
  destruct (keep x) eqn:K; case_decide as D; try reflexivity.
  - destruct D. now apply keep_spec.
  - apply keep_spec in D. congruence.
Qed.

Lemma mapRow_inv host cc r x :
  mapRow host cc r = Normal x ->
  company_code x = cc
  /\ brand_name x = JS.trim (toString host (get r "brand_name" ||| get r "ชื่อการค้า" ||| VStr ""))
  /\ common_label x = JS.trim (toString host (get r "common_label" ||| get r "ชื่อสามัญ/สูตร" ||| VStr ""))
  /\ registration_no x = get r "registration_no" ||| get r "ทะเบียน" ||| VNull
  /\ importer x = get r "importer" ||| get r "ผู้นำเข้า" ||| VNull
  /\ manufacturer_source x = get r "manufacturer_source" ||| get r "ผู้ผลิต/แหล่งผลิต" ||| VNull
  /\ distributor x = get r "distributor" ||| get r "ผู้จำหน่าย" ||| VNull
  /\ packed_volume x = get r "packed_volume" ||| get r "นำเข้า/แบ่งบรรจุ" ||| VNull
  /\ license_no x = get r "license_no" ||| get r "ใบอนุญาต" ||| VNull
  /\ Dates.normalizeDate host (get r "registration_date" ||| get r "วันออกทะเบียน")
     = Normal (registration_date x)
  /\ Dates.normalizeDate host (get r "expiry_date" ||| get r "วันหมดอายุ")
     = Normal (expiry_date x).
Proof.
  unfold mapRow.
  destruct (Dates.normalizeDate host (get r "registration_date" ||| get r "วันออกทะเบียน"));
    [|discriminate].
  destruct (Dates.normalizeDate host (get r "expiry_date" ||| get r "วันหมดอายุ"));
    [|discriminate].
  intros [= <-]. cbn. repeat split.
Qed.

End MapperFacts.

(** ** The import pipeline *)

Module ImportFacts.
Import Mapper Backend Handlers MapperFacts.

Lemma ceil_step (n : nat) : (1 <= n -> S ((n - 500 + 499) / 500) = (n + 499) / 500)%nat.
Proof.
  intros H. destruct (Nat.le_gt_cases 500 n).
  - replace (n + 499)%nat with ((n - 500 + 499) + 1 * 500)%nat by lia.
    rewrite Nat.div_add by lia. lia.
  - replace (n - 500 + 499)%nat with 499%nat by lia.
    change (S (499 / 500))%nat with 1%nat.
    apply Nat.div_unique with (r := (n - 1)%nat); lia.
Qed.

Lemma results_eta (res : Results) :
  res = {| total := total res; success := success res + 0; failed := failed res + 0;
           errors := (errors res ++ [])%list |}.
Proof. destruct res; cbn. rewrite !Nat.add_0_r, app_nil_r. reflexivity. Qed.

Lemma world_eta (w : World) :
  w = {| table := (table w ++ [])%list; fault := fault w; calls := (calls w ++ map EvInsert [])%list |}.
Proof. destruct w; cbn. rewrite !app_nil_r. reflexivity. Qed.

Lemma failed_size_cons c e l :
  failed_size ((c, e) :: l)
  = ((match e with Some _ => length c | None => 0 end) + failed_size l)%nat.
Proof. reflexivity. Qed.

Lemma stored_size_cons c e l :
  stored_size ((c, e) :: l)
  = ((match e with Some _ => 0 | None => length c end) + stored_size l)%nat.
Proof. reflexivity. Qed.

Lemma messages_cons c e l :
  messages ((c, e) :: l)
  = ((match e with Some m => [m] | None => [] end) ++ messages l)%list.
Proof. reflexivity. Qed.

Lemma stored_cons c e l :
  stored ((c, e) :: l)
  = ((match e with Some _ => [] | None => c end) ++ stored l)%list.
Proof. reflexivity. Qed.

Lemma insert_loop_done fuel mapped i res w :
  (length mapped <= i)%nat -> insert_loop fuel mapped i res w = (res, w).
Proof.
  intros H. destruct fuel; [reflexivity|]. cbn [insert_loop].
  destruct (Nat.ltb_spec i (length mapped)); [lia|reflexivity].
Qed.

(** The run of the loop from index [i]: the batches it sends, what they hold
    and what it leaves in the results and in the backend. *)
Lemma insert_loop_run mapped fuel : forall i res w,
  (length mapped < fuel + i)%nat ->
  exists cs,
    insert_loop fuel mapped i res w =
      ({| total := total res;
          success := success res + stored_size (answered (fault w) (length (calls w)) cs);
          failed := failed res + failed_size (answered (fault w) (length (calls w)) cs);
          errors := (errors res ++ messages (answered (fault w) (length (calls w)) cs))%list |},
       {| table := (table w ++ stored (answered (fault w) (length (calls w)) cs))%list;
          fault := fault w;
          calls := (calls w ++ map EvInsert cs)%list |})
    /\ concat cs = skipn i mapped
    /\ Forall (fun c => (1 <= length c <= CHUNK)%nat) cs
    /\ length cs = ((length mapped - i + 499) / 500)%nat.
Proof.
  induction fuel as [|fuel IH]; intros i res w Hfuel.
  - exists []. rewrite insert_loop_done by lia.
    split; [now rewrite <- results_eta, <- world_eta|].
    split; [now rewrite skipn_all2 by lia|]. split; [constructor|].
    replace (length mapped - i)%nat with 0%nat by lia. reflexivity.
  - destruct (Nat.le_gt_cases (length mapped) i) as [Hdone|Hmore].
    + exists []. rewrite insert_loop_done by lia.
      split; [now rewrite <- results_eta, <- world_eta|].
      split; [now rewrite skipn_all2 by lia|]. split; [constructor|].
      replace (length mapped - i)%nat with 0%nat by lia. reflexivity.
    + cbn [insert_loop]. destruct (Nat.ltb_spec i (length mapped)); [|lia].
      set (chunk := slice i (i + CHUNK) mapped).
      assert (Hchunk : chunk = firstn CHUNK (skipn i mapped)).
      { unfold chunk, slice. f_equal. lia. }
      unfold bind, insert, call.
      set (w1 := {| table := _; fault := fault w; calls := (calls w ++ [EvInsert chunk])%list |}).
      destruct (IH (i + CHUNK)%nat (record_chunk res chunk (fault w (length (calls w)))) w1
                  ltac:(unfold CHUNK; lia)) as (cs & Hrun & Hcat & Hall & Hlen).
      exists (chunk :: cs). rewrite Hrun. clear Hrun IH.
      assert (Hw1 : length (calls w1) = S (length (calls w))).
      { unfold w1. cbn [calls]. rewrite length_app. cbn. lia. }
      rewrite Hw1.
      assert (Hans : answered (fault w) (length (calls w)) (chunk :: cs)
                     = (chunk, fault w (length (calls w)))
                         :: answered (fault w) (S (length (calls w))) cs) by reflexivity.
      rewrite Hans. cbn [fault calls table w1].
      split; [|split; [|split]].
      * rewrite failed_size_cons, stored_size_cons, messages_cons, stored_cons.
        unfold record_chunk.
        destruct (fault w (length (calls w))) as [msg|];
          cbn [total success failed errors]; rewrite <- !app_assoc;
          f_equal; f_equal; lia.
      * cbn [concat]. rewrite Hcat, Hchunk.
        replace (i + CHUNK)%nat with (CHUNK + i)%nat by lia.
        rewrite <- skipn_skipn. apply firstn_skipn.
      * constructor; [|assumption]. rewrite Hchunk, length_firstn, length_skipn.
        unfold CHUNK. lia.
      * cbn [length]. rewrite Hlen. unfold CHUNK.
        replace (length mapped - (i + 500))%nat with (length mapped - i - 500)%nat by lia.
        apply ceil_step. lia.
Qed.

Lemma answered_length fault n cs : length (answered fault n cs) = length cs.
Proof.
  unfold answered. rewrite length_combine, length_map, length_seq. lia.
Qed.

Lemma answered_cons fault n c cs :
  answered fault n (c :: cs) = (c, fault n) :: answered fault (S n) cs.
Proof. reflexivity. Qed.

(** Every record of every batch is counted once, as stored or as failed. *)
Lemma sizes_total fault cs : forall n,
  (stored_size (answered fault n cs) + failed_size (answered fault n cs))%nat
  = length (concat cs).
Proof.
  induction cs as [|c cs IH]; intros n; [reflexivity|].
  rewrite answered_cons, stored_size_cons, failed_size_cons.
  cbn [concat]. rewrite length_app, <- (IH (S n)). destruct (fault n); lia.
Qed.

(** When every call fails, nothing is stored and everything is counted as
    failed. *)
Lemma all_failed fault cs : forall n,
  (forall k, (n <= k)%nat -> fault k <> None) ->
  stored (answered fault n cs) = []
  /\ stored_size (answered fault n cs) = 0%nat
  /\ failed_size (answered fault n cs) = length (concat cs)
  /\ length (messages (answered fault n cs)) = length cs.
Proof.
  induction cs as [|c cs IH]; intros n Hf; [repeat split|].
  rewrite answered_cons, stored_cons, stored_size_cons, failed_size_cons, messages_cons.
  destruct (IH (S n)) as (H1 & H2 & H3 & H4); [intros k Hk; apply Hf; lia|].
  destruct (fault n) as [m|] eqn:E; [|now destruct (Hf n (Nat.le_refl n))].
  rewrite H1, H2, H3. cbn [concat app length]. rewrite length_app, H4. repeat split; lia.
Qed.

Lemma outside_empty cc t r : In r (outside cc t) -> in_scope (filter_text cc) r = false.
Proof.
  unfold outside. rewrite filter_In. intros [_ H]. now apply negb_true_iff in H.
Qed.

(** The run of lines 216 to 229 on the mapped records. *)
Lemma import_pipeline_run (rm : bool) cc mapped w :
  exists cs,
    let first := (length (calls w) + (if rm then 1 else 0))%nat in
    let z := answered (fault w) first cs in
    import_pipeline rm cc mapped w =
      ({| total := length mapped; success := stored_size z; failed := failed_size z;
          errors := messages z |},
       {| table := ((if rm then
                       match fault w (length (calls w)) with
                       | Some _ => table w
                       | None => outside cc (table w)
                       end
                     else table w) ++ stored z)%list;
          fault := fault w;
          calls := (calls w ++ (if rm then [EvDelete cc] else []) ++ map EvInsert cs)%list |})
    /\ concat cs = mapped
    /\ Forall (fun c => (1 <= length c <= CHUNK)%nat) cs
    /\ length cs = ((length mapped + 499) / 500)%nat.
Proof.
  unfold import_pipeline, bind.
  destruct rm.
  - unfold delete_eq, call.
    set (w1 := {| table := _; fault := fault w; calls := (calls w ++ [EvDelete cc])%list |}).
    destruct (insert_loop_run mapped (S (length mapped)) 0
                {| total := length mapped; success := 0; failed := 0; errors := [] |} w1
                ltac:(lia)) as (cs & Hrun & Hcat & Hall & Hlen).
    exists cs. rewrite Hrun.
    assert (Hw1 : length (calls w1) = (length (calls w) + 1)%nat).
    { unfold w1. cbn [calls]. rewrite length_app. reflexivity. }
    rewrite Hw1. cbn [total success failed errors table fault calls w1 app Nat.add].
    rewrite <- app_assoc. cbn [app].
    split; [reflexivity|]. split; [exact Hcat|]. split; [exact Hall|].
    rewrite Hlen. now rewrite Nat.sub_0_r.
  - unfold ret.
    destruct (insert_loop_run mapped (S (length mapped)) 0
                {| total := length mapped; success := 0; failed := 0; errors := [] |} w
                ltac:(lia)) as (cs & Hrun & Hcat & Hall & Hlen).
    exists cs. rewrite Hrun. rewrite Nat.add_0_r.
    cbn [total success failed errors app Nat.add].
    split; [reflexivity|]. split; [exact Hcat|]. split; [exact Hall|].
    rewrite Hlen. now rewrite Nat.sub_0_r.
Qed.

(** A request with a file that parses and maps without an exception reaches
    the pipeline. *)
Lemma import_csv_reaches_pipeline host req w f rows xs :
  file req = Some f -> parse_file host f = Normal rows ->
  map_rows host (body_company_code req) rows = Normal xs ->
  import_csv host req w =
    (let '(res, w') := import_pipeline (replaceMode req) (body_company_code req)
                         (List.filter keep xs) w in
     ({| status := 200; body := BImported res |}, w')).
Proof.
  intros Hf Hp Hm. unfold import_csv, mapped_records. rewrite Hf, Hp, Hm.
  unfold bind, ret. reflexivity.
Qed.

(** C3: the mapped records are sent in ceil(N/500) inserts of 500 records at
    most, in order; each insert that fails adds the size of its batch to
    [failed] and one message to [errors], and the batches after it are sent
    all the same; [total] is the number N of records that passed the filter
    of the mapper, and [success + failed = total]. *)
Theorem import_batches host req w f rows xs :
  file req = Some f -> parse_file host f = Normal rows ->
  map_rows host (body_company_code req) rows = Normal xs ->
  let mapped := filter (fun x => brand_name x <> "" /\ common_label x <> "") xs in
  exists cs res w',
    import_csv host req w = ({| status := 200; body := BImported res |}, w')
    /\ calls w' = (calls w ++ (if replaceMode req then [EvDelete (body_company_code req)] else [])
                    ++ map EvInsert cs)%list
    /\ length cs = ((length mapped + 499) / 500)%nat
    /\ Forall (fun c => (1 <= length c <= 500)%nat) cs
    /\ concat cs = mapped
    /\ (let z := answered (fault w)
                   (length (calls w) + (if replaceMode req then 1 else 0)) cs in
        failed res = failed_size z /\ success res = stored_size z /\ errors res = messages z)
    /\ total res = length mapped
    /\ (success res + failed res)%nat = total res.
Proof.
  intros Hf Hp Hm mapped. subst mapped. rewrite <- filter_keep.
  rewrite (import_csv_reaches_pipeline host req w f rows xs Hf Hp Hm).
  destruct (import_pipeline_run (replaceMode req) (body_company_code req) (List.filter keep xs) w)
    as (cs & Hrun & Hcat & Hall & Hlen).
  cbv zeta in Hrun. rewrite Hrun.
  eexists cs, _, _. split; [reflexivity|]. cbn [calls total success failed errors].
  repeat split; try assumption; try reflexivity.
  rewrite sizes_total. now rewrite Hcat.
Qed.

(** C4: with the replace flag one delete of the scope is sent, before the
    first insert, and none without the flag; when that delete succeeds and
    every insert fails, no record of the scope is left. *)
Theorem import_replace host req w f rows xs :
  file req = Some f -> parse_file host f = Normal rows ->
  map_rows host (body_company_code req) rows = Normal xs ->
  exists cs res w',
    import_csv host req w = ({| status := 200; body := BImported res |}, w')
    /\ calls w' = (calls w ++ (if replaceMode req then [EvDelete (body_company_code req)] else [])
                    ++ map EvInsert cs)%list
    /\ (replaceMode req = true ->
        fault w (length (calls w)) = None ->
        (forall k, (length (calls w) < k)%nat -> fault w k <> None) ->
        table w' = outside (body_company_code req) (table w)
        /\ (forall r, In r (table w') -> in_scope (filter_text (body_company_code req)) r = false)
        /\ success res = 0%nat /\ failed res = total res).
Proof.
  intros Hf Hp Hm.
  rewrite (import_csv_reaches_pipeline host req w f rows xs Hf Hp Hm).
  destruct (import_pipeline_run (replaceMode req) (body_company_code req) (List.filter keep xs) w)
    as (cs & Hrun & Hcat & Hall & Hlen).
  cbv zeta in Hrun. rewrite Hrun.
  eexists cs, _, _. split; [reflexivity|]. cbn [calls table total success failed].
  split; [reflexivity|].
  intros Hrm Hdel Hins. rewrite Hrm, Hdel.
  destruct (all_failed (fault w) cs (length (calls w) + 1)) as (H1 & H2 & H3 & _);
    [intros k Hk; apply Hins; lia|].
  rewrite H1, H2, H3, Hcat, app_nil_r. repeat split.
  intros r. apply outside_empty.
Qed.

(** C10: with the replace flag, when no record passes the filter of the
    mapper the delete of the scope is sent all the same and the answer is a
    success with empty results; the scope is then empty once the delete has
    succeeded. *)
Theorem import_replace_nothing_kept host req w f rows xs :
  file req = Some f -> parse_file host f = Normal rows ->
  map_rows host (body_company_code req) rows = Normal xs ->
  replaceMode req = true ->
  (forall x, In x xs -> brand_name x = "" \/ common_label x = "") ->
  exists w',
    import_csv host req w
      = ({| status := 200;
            body := BImported {| total := 0; success := 0; failed := 0; errors := [] |} |}, w')
    /\ calls w' = (calls w ++ [EvDelete (body_company_code req)])%list
    /\ (fault w (length (calls w)) = None ->
        table w' = outside (body_company_code req) (table w)
        /\ (forall r, In r (table w') -> in_scope (filter_text (body_company_code req)) r = false)).
Proof.
  intros Hf Hp Hm Hrm Hnone.
  assert (Hempty : List.filter keep xs = []).
  { clear Hm. induction xs as [|x xs IH]; [reflexivity|]. cbn [List.filter].
    destruct (keep x) eqn:K.
    - apply keep_spec in K. destruct (Hnone x (or_introl eq_refl)); tauto.
    - apply IH. intros y Hy. apply Hnone. now right. }
  rewrite (import_csv_reaches_pipeline host req w f rows xs Hf Hp Hm).
  destruct (import_pipeline_run (replaceMode req) (body_company_code req) (List.filter keep xs) w)
    as (cs & Hrun & Hcat & Hall & Hlen).
  cbv zeta in Hrun. rewrite Hrun. clear Hrun.
  rewrite Hempty in *. change ((length (@nil Registration) + 499) / 500)%nat with 0%nat in Hlen.
  destruct cs; [|discriminate Hlen]. rewrite Hrm.
  eexists. split; [reflexivity|]. cbn [calls table map app]. split; [reflexivity|].
  intros Hdel. rewrite Hdel, app_nil_r. split; [reflexivity|].
  intros r. apply outside_empty.
Qed.

(** The scenario of 1200 mapped records in replace mode: one delete, then
    three batches of 500, 500 and 200 records; the second one fails. *)
Example import_1200_records :
  let '(results, w') := import_pipeline true (Some "ACME")
                          (repeat (Samples.alpha (Some "ACME")) 1200) Samples.flaky_world in
  results = {| total := 1200; success := 700; failed := 500; errors := ["timeout"] |}
  /\ calls w' = [ EvDelete (Some "ACME");
                  EvInsert (repeat (Samples.alpha (Some "ACME")) 500);
                  EvInsert (repeat (Samples.alpha (Some "ACME")) 500);
                  EvInsert (repeat (Samples.alpha (Some "ACME")) 200) ]
  /\ table w' = repeat (Samples.alpha (Some "ACME")) 700.
Proof. vm_compute. repeat split. Qed.

Lemma import_batches_witness :
  let rows := (repeat (Mapper.row_of Mapper.localized_name Samples.values) 1200
               ++ [Mapper.row_of Mapper.canonical_name Samples.unnamed])%list in
  let host := Samples.host rows in
  let req := Samples.import_request (Some "1") (Some "ACME") in
  let xs := (repeat (Samples.alpha (Some "ACME")) 1200 ++ [Samples.nameless (Some "ACME")])%list in
  let mapped := filter (fun x => brand_name x <> "" /\ common_label x <> "") xs in
  (exists cs res w',
    import_csv host req Samples.flaky_world = ({| status := 200; body := BImported res |}, w')
    /\ calls w' = (calls Samples.flaky_world
                    ++ (if replaceMode req then [EvDelete (body_company_code req)] else [])
                    ++ map EvInsert cs)%list
    /\ length cs = ((length mapped + 499) / 500)%nat
    /\ Forall (fun c => (1 <= length c <= 500)%nat) cs
    /\ concat cs = mapped
    /\ (let z := answered (fault Samples.flaky_world)
                   (length (calls Samples.flaky_world) + (if replaceMode req then 1 else 0)) cs in
        failed res = failed_size z /\ success res = stored_size z /\ errors res = messages z)
    /\ total res = length mapped
    /\ (success res + failed res)%nat = total res)
  /\ length mapped = 1200%nat
  /\ fst (import_csv host req Samples.flaky_world)
     = {| status := 200;
          body := BImported {| total := 1200; success := 700; failed := 500;
                               errors := ["timeout"] |} |}
  /\ map (fun ev => match ev with EvInsert c => length c | _ => O end)
         (calls (snd (import_csv host req Samples.flaky_world)))
     = [0; 500; 500; 200]%nat.
Proof.
  intros rows host req xs mapped. split; [|split; [|split]].
  - apply (import_batches host req Samples.flaky_world Samples.upload rows xs).
    + reflexivity.
    + reflexivity.
    + vm_compute. reflexivity.
  - vm_compute. reflexivity.
  - vm_compute. reflexivity.
  - vm_compute. reflexivity.
Defined.

Lemma import_replace_witness :
  let rows := [Mapper.row_of Mapper.localized_name Samples.values] in
  let host := Samples.host rows in
  let req := Samples.import_request (Some "true") (Some "ACME") in
  let w := Samples.failing_world in
  exists cs res w',
    import_csv host req w = ({| status := 200; body := BImported res |}, w')
    /\ calls w' = (calls w ++ (if replaceMode req then [EvDelete (body_company_code req)] else [])
                    ++ map EvInsert cs)%list
    /\ table w' = []
    /\ success res = 0%nat /\ failed res = total res.
Proof.
  intros rows host req w.
  destruct (import_replace host req w Samples.upload rows [Samples.alpha (Some "ACME")])
    as (cs & res & w' & Hrun & Hcalls & Hscope).
  - reflexivity.
  - reflexivity.
  - vm_compute. reflexivity.
  - exists cs, res, w'. split; [exact Hrun|]. split; [exact Hcalls|].
    destruct Hscope as (Ht & _ & Hs & Hfl).
    + reflexivity.
    + reflexivity.
    + intros k Hk. destruct k; [inversion Hk|discriminate].
    + split; [exact Ht|]. split; assumption.
Defined.

Lemma import_replace_nothing_kept_witness :
  let rows := [Mapper.row_of Mapper.canonical_name Samples.unnamed] in
  let host := Samples.host rows in
  let req := Samples.import_request (Some "1") (Some "ACME") in
  exists w',
    import_csv host req Samples.world
      = ({| status := 200;
            body := BImported {| total := 0; success := 0; failed := 0; errors := [] |} |}, w')
    /\ calls w' = [EvDelete (Some "ACME")]
    /\ table w' = [].
Proof.
  intros rows host req.
  destruct (import_replace_nothing_kept host req Samples.world Samples.upload rows
              [Samples.nameless (Some "ACME")]) as (w' & Hrun & Hcalls & Hscope).
  - reflexivity.
  - reflexivity.
  - vm_compute. reflexivity.
  - reflexivity.
  - intros x [<-|[]]. left. reflexivity.
  - exists w'. split; [exact Hrun|]. split; [exact Hcalls|].
    destruct Hscope as [Ht _]; [reflexivity|]. exact Ht.
Defined.

(** *** The scope parameter *)

(** The export handler answers 400 without a call to the backend when the
    scope is missing or empty. *)
Lemma export_without_code host (query : gmap string string) w :
  query !! "code" = None \/ query !! "code" = Some "" ->
  export host query w = ({| status := 400; body := BError "missing code" |}, w).
Proof. intros [H|H]; unfold export; rewrite H; reflexivity. Qed.

(** C8, on the import route: a request admitted by the gate that carries a
    file and no company code is not answered with 400; in replace mode it
    sends a delete and then the insert to the backend and is answered 200. *)
Theorem import_without_company_code :
  let host := Samples.host [Mapper.row_of Mapper.canonical_name Samples.values] in
  let areq := Samples.request [("x-admin-key", "s3cret")] [] in
  let req := Samples.import_request (Some "1") None in
  let '(response, w') :=
    post_import_csv Samples.env Samples.getUser host areq req Samples.world in
  response = {| status := 200;
                body := BImported {| total := 1; success := 1; failed := 0; errors := [] |} |}
  /\ calls w' = [EvDelete None; EvInsert [Samples.alpha None]]
  /\ table w' = [Samples.acme "Old one"; Samples.acme "Old two"; Samples.alpha None].
Proof. vm_compute. repeat split. Qed.

End ImportFacts.

(** ** The export handler *)

Module ExportFacts.
Import Mapper Backend Handlers.

Lemma or_empty_cell v : truthy (v ||| VStr "") = true \/ v ||| VStr "" = VStr "".
Proof. unfold or_else. destruct (truthy v) eqn:T; [left; now rewrite T | now right]. Qed.

Lemma opt_cell_spec o : truthy (opt_cell o) = true \/ opt_cell o = VStr "".
Proof. apply or_empty_cell. Qed.

Lemma export_row_cells r :
  length (export_row r) = 11%nat
  /\ Forall (fun c => truthy c = true \/ c = VStr "") (export_row r).
Proof.
  split; [reflexivity|]. unfold export_row.
  repeat (constructor; [first [apply opt_cell_spec | apply or_empty_cell]|]). constructor.
Qed.

Lemma export_row_scope code r :
  in_scope code r = true -> code <> "" -> nth_error (export_row r) 0 = Some (VStr code).
Proof.
  unfold in_scope, export_row, opt_cell, of_option, or_else. intros H Hc.
  destruct (company_code r) as [c|]; [|discriminate].
  apply String.eqb_eq in H. subst c. cbn [truthy nth_error].
  unfold nonempty. destruct (String.eqb_spec code ""); [contradiction|reflexivity].
Qed.

(** A header value that ends in [".xlsx"] is accepted when what precedes
    the ending is. *)
Lemma header_chars_ok_xlsx_fuel : forall n a,
  (String.length a <= n)%nat ->
  JS.header_chars_ok (a ++ ".xlsx") = JS.header_chars_ok a.
Proof.
  induction n as [|n IH]; intros a Hn.
  - destruct a; [reflexivity|cbn in Hn; lia].
  - destruct a as [|c r]; [reflexivity|].
    change (String c r ++ ".xlsx") with (String c (r ++ ".xlsx")).
    cbn [JS.header_chars_ok]. cbn [String.length] in Hn.
    destruct ((JS.code c =? 9) || ((32 <=? JS.code c) && (JS.code c <=? 126)))%N.
    + apply IH. lia.
    + destruct ((JS.code c =? 194) || (JS.code c =? 195))%N; [|reflexivity].
      destruct r as [|c' r']; [reflexivity|].
      change (String c' r' ++ ".xlsx") with (String c' (r' ++ ".xlsx")).
      cbv iota. cbn [String.length] in Hn. rewrite IH by lia. reflexivity.
Qed.

Lemma content_disposition_ok code :
  JS.header_chars_ok (content_disposition code) = JS.header_chars_ok code.
Proof.
  transitivity (JS.header_chars_ok (code ++ ".xlsx")); [reflexivity|].
  now apply (header_chars_ok_xlsx_fuel (String.length code)).
Qed.

(** The run of an export after a select that succeeds. *)
Lemma export_run host (query : gmap string string) w code :
  query !! "code" = Some code -> code <> "" ->
  fault w (length (calls w)) = None ->
  let aoa := export_header :: map export_row (List.filter (in_scope code) (table w)) in
  export host query w
  = (match xlsx_write_error host aoa with
     | Some message => {| status := 500; body := BError message |}
     | None =>
         if JS.header_chars_ok code
         then {| status := 200; body := BSheet ("registrations_" ++ code ++ ".xlsx") aoa |}
         else {| status := 500;
                 body := BError (JS.invalid_header_message "Content-Disposition") |}
     end,
     {| table := table w; fault := fault w; calls := (calls w ++ [EvSelect code])%list |}).
Proof.
  intros Hq Hc Hf aoa. unfold export. rewrite Hq. change (default "" (Some code)) with code.
  unfold nonempty. destruct (String.eqb_spec code ""); [contradiction|]. cbn [negb].
  unfold bind, select_eq, call. rewrite Hf. fold aoa. rewrite content_disposition_ok.
  destruct (xlsx_write_error host aoa); [reflexivity|].
  destruct (JS.header_chars_ok code); reflexivity.
Qed.

Lemma export_success host (query : gmap string string) w code :
  query !! "code" = Some code -> code <> "" ->
  fault w (length (calls w)) = None ->
  xlsx_write_error host
    (export_header :: map export_row (List.filter (in_scope code) (table w))) = None ->
  JS.header_chars_ok code = true ->
  export host query w
  = ({| status := 200;
        body := BSheet ("registrations_" ++ code ++ ".xlsx")
                  (export_header :: map export_row (List.filter (in_scope code) (table w))) |},
     {| table := table w; fault := fault w; calls := (calls w ++ [EvSelect code])%list |}).
Proof.
  intros Hq Hc Hf Hw Hh. rewrite (export_run host query w code Hq Hc Hf).
  cbv zeta. now rewrite Hw, Hh.
Qed.

(** X1: the sheet of an export that succeeds, which it does when the select
    returns no error, the book of the sheet is written and the scope holds
    only characters that a header takes (tab, printable ASCII, U+0080 to
    U+00FF): the line of the eleven column names, then one line of eleven
    cells for each record of the scope, in the order of the table; no cell is
    null or undefined (a value that is missing or falsy, the number 0
    included, is the empty text) and the first cell of each line is the
    scope.  The backend is asked once and keeps its table. *)
Theorem export_sheet host (query : gmap string string) w code :
  query !! "code" = Some code -> code <> "" ->
  fault w (length (calls w)) = None ->
  xlsx_write_error host
    (export_header :: map export_row (List.filter (in_scope code) (table w))) = None ->
  JS.header_chars_ok code = true ->
  exists lines,
    export host query w
      = ({| status := 200;
            body := BSheet ("registrations_" ++ code ++ ".xlsx") (export_header :: lines) |},
         {| table := table w; fault := fault w; calls := (calls w ++ [EvSelect code])%list |})
    /\ lines = map export_row (List.filter (in_scope code) (table w))
    /\ length export_header = 11%nat
    /\ Forall (fun line =>
                 length line = 11%nat
                 /\ nth_error line 0 = Some (VStr code)
                 /\ Forall (fun c => truthy c = true \/ c = VStr "") line) lines.
Proof.
  intros Hq Hc Hf Hw Hh. eexists. split; [|split; [reflexivity|split; [reflexivity|]]].
  - now apply export_success.
  - apply Forall_map. apply Forall_forall. intros r Hr.
    apply list_elem_of_In, filter_In in Hr as [_ Hs].
    destruct (export_row_cells r) as [Hl Hcells].
    split; [exact Hl|]. split; [now apply export_row_scope|exact Hcells].
Qed.

Lemma export_sheet_witness :
  let query : gmap string string := {[ "code" := "ACME" ]} in
  exists lines,
    fst (export (Samples.host []) query Samples.world)
    = {| status := 200; body := BSheet "registrations_ACME.xlsx" (export_header :: lines) |}
    /\ length lines = 2%nat.
Proof.
  intros query.
  destruct (export_sheet (Samples.host []) query Samples.world "ACME")
    as (lines & Hrun & Hlines & _).
  - reflexivity.
  - discriminate.
  - reflexivity.
  - reflexivity.
  - reflexivity.
  - exists lines. rewrite Hrun. split; [reflexivity|]. now rewrite Hlines.
Defined.

(** X2: the answers of the export handler: 400 without a call to the backend
    when the scope is missing or empty; otherwise one select, and 500 with
    the message of the backend when it returns an error, 500 with the message
    of [XLSX.write] when the book cannot be written, 500 with the message of
    [setHeader] when the scope holds a character that a header does not take
    (a control character other than the tab, DEL, or a character beyond
    U+00FF), and 200 with the book otherwise.  The table is never changed. *)
Theorem export_answers host (query : gmap string string) w :
  let code := default "" (query !! "code") in
  let aoa := export_header :: map export_row (List.filter (in_scope code) (table w)) in
  let '(response, w') := export host query w in
  table w' = table w
  /\ (code = "" ->
      response = {| status := 400; body := BError "missing code" |} /\ w' = w)
  /\ (code <> "" ->
      calls w' = (calls w ++ [EvSelect code])%list
      /\ response
         = match fault w (length (calls w)) with
           | Some message => {| status := 500; body := BError message |}
           | None =>
               match xlsx_write_error host aoa with
               | Some message => {| status := 500; body := BError message |}
               | None =>
                   if JS.header_chars_ok code
                   then {| status := 200;
                           body := BSheet ("registrations_" ++ code ++ ".xlsx") aoa |}
                   else {| status := 500;
                           body := BError (JS.invalid_header_message "Content-Disposition") |}
               end
           end).
Proof.
  intros code aoa. subst aoa. unfold export. fold code. unfold nonempty.
  destruct (String.eqb_spec code "") as [E|E]; cbn [negb].
  - unfold ret. split; [reflexivity|]. split; [now intros _|]. intros H. contradiction.
  - unfold bind, select_eq, call. rewrite content_disposition_ok.
    destruct (fault w (length (calls w))) as [m|].
    + unfold ret. cbn [table calls]. split; [reflexivity|].
      split; [intros H; contradiction|]. intros _. now split.
    + destruct (xlsx_write_error host _) as [m|]; [|destruct (JS.header_chars_ok code)];
        unfold ret; cbv beta iota zeta; cbn [table calls]; (split; [reflexivity|]);
        (split; [intros H; contradiction|]); intros _; now split.
Qed.

(** A scope in Thai letters: the records are read and the header is refused. *)
Example export_thai_code :
  let query : gmap string string := {[ "code" := "บริษัท" ]} in
  export (Samples.host []) query Samples.world
  = ({| status := 500; body := BError (JS.invalid_header_message "Content-Disposition") |},
     {| table := table Samples.world; fault := fault Samples.world;
        calls := [EvSelect "บริษัท"] |}).
Proof. reflexivity. Qed.

End ExportFacts.

(** ** More on the import handler *)

Module ImportMore.
Import Mapper Backend Handlers MapperFacts ImportFacts Batches.

(** X3: the answers of the import handler: 400 exactly when no file comes with
    the request, 200 exactly when the file parses and every row maps without
    an exception, 500 otherwise; only an answer 200 has touched the backend. *)
Theorem import_answers host req w :
  let '(response, w') := import_csv host req w in
  (status response = 200 \/ status response = 400 \/ status response = 500)
  /\ (status response <> 200 -> w' = w)
  /\ (status response = 400 <-> file req = None)
  /\ (status response = 200 <->
      exists f rows xs, file req = Some f /\ parse_file host f = Normal rows
        /\ map_rows host (body_company_code req) rows = Normal xs).
Proof.
  destruct (file req) as [f|] eqn:Hf.
  - destruct (parse_file host f) as [rows|e] eqn:Hp.
    + destruct (map_rows host (body_company_code req) rows) as [xs|e] eqn:Hm.
      * rewrite (import_csv_reaches_pipeline host req w f rows xs Hf Hp Hm).
        destruct (import_pipeline _ _ _ w) as [res w']. cbn [status].
        split; [now left|]. split; [intros H; now destruct H|].
        split; [split; discriminate|]. split; [|reflexivity].
        intros _. now exists f, rows, xs.
      * unfold import_csv, mapped_records. rewrite Hf, Hp, Hm. unfold ret. cbn [status].
        split; [now right; right|]. split; [reflexivity|].
        split; [split; discriminate|]. split; [discriminate|].
        intros (f' & rows' & xs & [= <-] & Hp' & Hm').
        rewrite Hp in Hp'. injection Hp' as <-. rewrite Hm in Hm'. discriminate.
    + unfold import_csv. rewrite Hf, Hp. unfold ret. cbn [status].
      split; [now right; right|]. split; [reflexivity|].
      split; [split; discriminate|]. split; [discriminate|].
      intros (f' & rows' & xs & [= <-] & Hp' & _). rewrite Hp in Hp'. discriminate.
  - unfold import_csv. rewrite Hf. unfold ret. cbn [status].
    split; [now right; left|]. split; [reflexivity|].
    split; [now split|]. split; [discriminate|].
    intros (f' & rows' & xs & [=] & _).
Qed.

Lemma import_csv_world host req w :
  snd (import_csv host req w) = w
  \/ exists mapped,
       snd (import_csv host req w)
       = snd (import_pipeline (replaceMode req) (body_company_code req) mapped w).
Proof.
  unfold import_csv. destruct (file req) as [f|]; [|now left].
  destruct (parse_file host f) as [rows|e]; [|now left].
  destruct (mapped_records host (body_company_code req) rows) as [mapped|e]; [|now left].
  right. exists mapped. unfold bind, ret.
  now destruct (import_pipeline _ _ mapped w).
Qed.

Lemma outside_keeps cc t r :
  In r t -> in_scope (filter_text cc) r = false -> In r (outside cc t).
Proof.
  intros Hin Hs. unfold outside. apply filter_In. split; [assumption|]. now rewrite Hs.
Qed.

(** X4: an import never removes a record of another scope, and without the
    replace flag it removes nothing: the table it leaves starts with the table
    it found. *)
Theorem import_keeps_other_records host req w :
  let w' := snd (import_csv host req w) in
  (replaceMode req = false -> exists added, table w' = (table w ++ added)%list)
  /\ (forall r, In r (table w) ->
        in_scope (filter_text (body_company_code req)) r = false -> In r (table w')).
Proof.
  cbv zeta. destruct (import_csv_world host req w) as [-> | (mapped & ->)].
  - split; [intros _; exists []; now rewrite app_nil_r|]. now intros r Hr _.
  - destruct (import_pipeline_run (replaceMode req) (body_company_code req) mapped w)
      as (cs & Hrun & _). cbv zeta in Hrun. rewrite Hrun. cbn [snd table].
    split.
    + intros ->. now eexists.
    + intros r Hr Hs. apply in_or_app. left.
      destruct (replaceMode req); [|assumption].
      destruct (fault w (length (calls w))); [assumption|]. now apply outside_keeps.
Qed.

Lemma insert_loop_calls mapped fuel : forall i res w,
  calls (snd (insert_loop fuel mapped i res w))
  = (calls w ++ map EvInsert (batches fuel mapped i))%list.
Proof.
  induction fuel as [|fuel IH]; intros i res w; cbn [insert_loop batches].
  - cbn. now rewrite app_nil_r.
  - destruct (i <? length mapped)%nat; [|cbn; now rewrite app_nil_r].
    unfold bind, insert, call. rewrite IH. cbn [calls map].
    now rewrite <- app_assoc.
Qed.

Lemma batches_nth mapped fuel : forall i k c,
  nth_error (batches fuel mapped i) k = Some c ->
  c = firstn CHUNK (skipn (i + CHUNK * k) mapped)
  /\ (i + CHUNK * k < length mapped)%nat.
Proof.
  induction fuel as [|fuel IH]; intros i k c; cbn [batches].
  - destruct k; discriminate.
  - destruct (Nat.ltb_spec i (length mapped)) as [Hi|Hi]; [|destruct k; discriminate].
    destruct k as [|k]; cbn [nth_error].
    + intros [= <-]. rewrite Nat.mul_0_r, Nat.add_0_r. split; [|assumption].
      unfold slice. f_equal. lia.
    + intros H. apply IH in H as [-> Hlt].
      replace (i + CHUNK + CHUNK * k)%nat with (i + CHUNK * S k)%nat in * by lia.
      now split.
Qed.

Lemma batches_next mapped fuel : forall i k,
  (S k < length (batches fuel mapped i))%nat -> (i + CHUNK * S k < length mapped)%nat.
Proof.
  intros i k Hk.
  destruct (nth_error (batches fuel mapped i) (S k)) as [c|] eqn:E.
  - now apply batches_nth in E as [_ H].
  - apply nth_error_None in E. lia.
Qed.

(** X5: the batches of an import, in the order they are sent: the batch number
    [k] holds the mapped records from index [500 k] up to index [500 k + 499],
    and every batch but the last holds 500 records. *)
Theorem import_batch_slices (rm : bool) cc mapped w :
  exists cs,
    calls (snd (import_pipeline rm cc mapped w))
    = (calls w ++ (if rm then [EvDelete cc] else []) ++ map EvInsert cs)%list
    /\ forall k c, nth_error cs k = Some c ->
         c = firstn 500 (skipn (500 * k) mapped)
         /\ ((S k < length cs)%nat -> length c = 500%nat).
Proof.
  exists (batches (S (length mapped)) mapped 0). split.
  - unfold import_pipeline, bind. destruct rm.
    + unfold delete_eq, call. rewrite insert_loop_calls. cbn [calls].
      now rewrite <- app_assoc.
    + unfold ret. now rewrite insert_loop_calls.
  - intros k c Hc. pose proof (batches_nth _ _ _ _ _ Hc) as [-> Hlt].
    unfold CHUNK in *. cbn [Nat.add]. split; [reflexivity|].
    intros Hk. apply batches_next in Hk. unfold CHUNK in Hk.
    rewrite length_firstn, length_skipn. lia.
Qed.







End ImportMore.

(** ** Trimming *)

Module TrimFacts.
Import StringFacts.

Lemma append_assoc (a b c : string) : (a ++ b) ++ c = a ++ (b ++ c).
Proof.
  induction a as [|x a IH]; [reflexivity|].
  change (String x ((a ++ b) ++ c) = String x (a ++ (b ++ c))). now rewrite IH.
Qed.

Lemma list_of_append (a b : string) :
  list_ascii_of_string (a ++ b) = (list_ascii_of_string a ++ list_ascii_of_string b)%list.
Proof.
  induction a as [|x a IH]; [reflexivity|].
  change (x :: list_ascii_of_string (a ++ b)
          = x :: (list_ascii_of_string a ++ list_ascii_of_string b)%list).
  now rewrite IH.
Qed.

Lemma string_of_app (l1 l2 : list ascii) :
  string_of_list_ascii (l1 ++ l2) = string_of_list_ascii l1 ++ string_of_list_ascii l2.
Proof.
  induction l1 as [|x l1 IH]; [reflexivity|].
  change (String x (string_of_list_ascii (l1 ++ l2))
          = String x (string_of_list_ascii l1 ++ string_of_list_ascii l2)).
  now rewrite IH.
Qed.

Lemma rev_string_involutive s : JS.rev_string (JS.rev_string s) = s.
Proof.
  unfold JS.rev_string.
  now rewrite list_ascii_of_string_of_list_ascii, rev_involutive, string_of_list_ascii_of_string.
Qed.

Lemma rev_string_append a b : JS.rev_string (a ++ b) = JS.rev_string b ++ JS.rev_string a.
Proof.
  unfold JS.rev_string. now rewrite list_of_append, rev_app_distr, string_of_app.
Qed.

Lemma strip_prefix_spec p : forall s r, JS.strip_prefix p s = Some r <-> s = p ++ r.
Proof.
  induction p as [|a p IH]; intros s r.
  - cbn. split; [intros [= ->]; reflexivity | intros ->; reflexivity].
  - destruct s as [|b s]; cbn [JS.strip_prefix].
    + split; [discriminate|]. intros H. discriminate H.
    + destruct (Ascii.eqb_spec a b) as [->|Hne].
      * rewrite IH. split; [intros ->; reflexivity|]. intros H. now injection H.
      * split; [discriminate|]. intros H. injection H as H _. congruence.
Qed.

Lemma strip_one_some ws : forall s r,
  JS.strip_one ws s = Some r -> exists w, In w ws /\ s = w ++ r.
Proof.
  induction ws as [|w ws IH]; intros s r; cbn [JS.strip_one]; [discriminate|].
  destruct (JS.strip_prefix w s) as [r'|] eqn:E.
  - intros [= <-]. apply strip_prefix_spec in E. exists w. split; [now left|assumption].
  - intros H. destruct (IH _ _ H) as (w' & Hin & Hs). exists w'. split; [now right|assumption].
Qed.

Lemma strip_one_none ws : forall s,
  JS.strip_one ws s = None <-> forall w r, In w ws -> s <> w ++ r.
Proof.
  induction ws as [|w ws IH]; intros s; cbn [JS.strip_one].
  - split; [intros _ w r []|reflexivity].
  - destruct (JS.strip_prefix w s) as [r'|] eqn:E.
    + split; [discriminate|]. intros H. apply strip_prefix_spec in E.
      destruct (H w r' (or_introl eq_refl) E).
    + rewrite IH. split.
      * intros H w' r [<-|Hin].
        -- intros Hs. apply strip_prefix_spec in Hs. congruence.
        -- now apply H.
      * intros H w' r Hin. apply H. now right.
Qed.

Section TrimStart.
Variable ws : list string.
Hypothesis ws_nonempty : forall w, In w ws -> w <> "".

Lemma strip_one_shorter s r :
  JS.strip_one ws s = Some r -> (String.length r < String.length s)%nat.
Proof.
  intros H. destruct (strip_one_some _ _ _ H) as (w & Hin & ->).
  rewrite length_append. specialize (ws_nonempty w Hin). destruct w; [contradiction|].
  cbn. lia.
Qed.

Lemma trim_start_fuel_suffix fuel : forall s,
  exists p, s = p ++ JS.trim_start_fuel fuel ws s.
Proof.
  induction fuel as [|fuel IH]; intros s; cbn [JS.trim_start_fuel].
  - now exists "".
  - destruct (JS.strip_one ws s) as [r|] eqn:E; [|now exists ""].
    destruct (strip_one_some _ _ _ E) as (w & _ & ->).
    destruct (IH r) as (p & Hp). exists (w ++ p). rewrite append_assoc. now rewrite <- Hp.
Qed.

Lemma trim_start_fuel_done fuel : forall s,
  (String.length s <= fuel)%nat ->
  JS.strip_one ws (JS.trim_start_fuel fuel ws s) = None.
Proof.
  induction fuel as [|fuel IH]; intros s Hs; cbn [JS.trim_start_fuel].
  - destruct (JS.strip_one ws s) as [r|] eqn:E; [|reflexivity].
    apply strip_one_shorter in E. lia.
  - destruct (JS.strip_one ws s) as [r|] eqn:E; [|assumption].
    apply IH. apply strip_one_shorter in E. lia.
Qed.

Lemma trimStart_with_done s : JS.strip_one ws (JS.trimStart_with ws s) = None.
Proof. apply trim_start_fuel_done. lia. Qed.

Lemma trimStart_with_suffix s : exists p, s = p ++ JS.trimStart_with ws s.
Proof. apply trim_start_fuel_suffix. Qed.

Lemma trimStart_with_fixed s : JS.strip_one ws s = None -> JS.trimStart_with ws s = s.
Proof.
  intros H. unfold JS.trimStart_with. destruct (String.length s); cbn [JS.trim_start_fuel];
    [reflexivity|]. now rewrite H.
Qed.

Lemma strip_one_prefix a b : JS.strip_one ws (a ++ b) = None -> JS.strip_one ws a = None.
Proof.
  rewrite !strip_one_none. intros H w r Hin ->. apply (H w (r ++ b) Hin).
  apply append_assoc.
Qed.
End TrimStart.

Lemma white_space_nonempty w : In w JS.white_space -> w <> "".
Proof.
  intros Hin ->. revert Hin. vm_compute. intuition discriminate.
Qed.

Lemma rev_white_space_nonempty w : In w (map JS.rev_string JS.white_space) -> w <> "".
Proof.
  intros Hin ->. revert Hin. vm_compute. intuition discriminate.
Qed.

(** What [trim] returns has no white space at its start nor at its end. *)
Lemma trim_clean s :
  JS.strip_one JS.white_space (JS.trim s) = None
  /\ JS.strip_one (map JS.rev_string JS.white_space) (JS.rev_string (JS.trim s)) = None.
Proof.
  unfold JS.trim, JS.trimEnd. split.
  - destruct (trimStart_with_suffix (map JS.rev_string JS.white_space)
                (JS.rev_string (JS.trimStart s))) as (p & Hp).
    apply (f_equal JS.rev_string) in Hp.
    rewrite rev_string_involutive, rev_string_append in Hp.
    apply (strip_one_prefix _ _ (JS.rev_string p)). rewrite <- Hp.
    apply trimStart_with_done, white_space_nonempty.
  - rewrite rev_string_involutive. apply trimStart_with_done, rev_white_space_nonempty.
Qed.

(** A text without white space at its start and at its end is left as it is. *)
Lemma trim_fixed s :
  JS.strip_one JS.white_space s = None ->
  JS.strip_one (map JS.rev_string JS.white_space) (JS.rev_string s) = None ->
  JS.trim s = s.
Proof.
  intros H1 H2. unfold JS.trim, JS.trimEnd, JS.trimStart.
  rewrite (trimStart_with_fixed _ _ H1), (trimStart_with_fixed _ _ H2).
  apply rev_string_involutive.
Qed.

(** Trimming twice is trimming once. *)
Lemma trim_idempotent s : JS.trim (JS.trim s) = JS.trim s.
Proof. destruct (trim_clean s). now apply trim_fixed. Qed.

End TrimFacts.

(** ** More on the date normalizer *)

Module DateMore.
Import Calendar StringFacts CalendarFacts Dates DateFacts TrimFacts.

(** X7: a Date value gives the calendar day of its instant in UTC, the day
    [t / 86400000] (rounded down) after 1970-01-01, whatever the time of the
    day; an Invalid Date gives null. *)
Theorem normalizeDate_date host t :
  (time_valid t = false -> normalizeDate host (VDate t) = Normal None)
  /\ (-62167219200000 <= t < 253402300800000 ->
      normalizeDate host (VDate t)
      = Normal (Some (format_ymd (add_days (Date 1970 1 1) (t / 86400000))))).
Proof.
  split.
  - intros H. unfold normalizeDate. cbn [truthy negb is_valid_date toString]. rewrite H.
    reflexivity.
  - intros Ht. unfold normalizeDate. cbn [truthy negb is_valid_date time_value].
    assert (Hv : time_valid t = true).
    { unfold time_valid, maxTime. apply Z.leb_le. lia. }
    rewrite Hv. unfold iso_day, toISOString_slice10. rewrite Hv.
    unfold iso_date_part, Day, msPerDay. cbv zeta.
    rewrite iso_slice_format by (Z.div_mod_to_equations; lia).
    replace (t / 86400000) with (0 + t / 86400000) at 1 by lia.
    now rewrite civil_from_days_add.
Qed.

Lemma normalizeDate_date_witness :
  -62167219200000 <= 1709683199999 < 253402300800000
  /\ normalizeDate (Samples.host []) (VDate 1709683199999) = Normal (Some "2024-03-05").
Proof.
  split; [lia|].
  exact (proj2 (normalizeDate_date (Samples.host []) 1709683199999) ltac:(lia)).
Defined.

Lemma iso_day_throws t m :
  iso_day t = Throw m <-> time_valid t = false /\ m = "Invalid time value".
Proof.
  unfold iso_day, toISOString_slice10. destruct (time_valid t).
  - split; [discriminate|]. intros [H _]. discriminate.
  - split; [intros [= <-]; now split|]. intros [_ ->]. reflexivity.
Qed.

Lemma text_path_normal (s : string) m :
  match match_iso s with
  | Some (y, mo, d) => Normal (Some (y ++ "-" ++ JS.padStart2 mo ++ "-" ++ JS.padStart2 d))
  | None =>
      match match_dmy s with
      | Some (d, mo, y) =>
          let y' := window_year (JS.number_of_digits y) in
          Normal (Some (JS.number_toString y' ++ "-" ++ JS.padStart2 mo ++ "-" ++ JS.padStart2 d))
      | None => Normal None
      end
  end <> Throw m.
Proof.
  destruct (match_iso s) as [[[? ?] ?]|]; [discriminate|].
  destruct (match_dmy s) as [[[? ?] ?]|]; discriminate.
Qed.

Lemma normalizeDate_cases host v :
  normalizeDate host v =
    if negb (truthy v) then Normal None
    else if is_valid_date v then iso_day (time_value v)
    else match v with
         | VNum n => iso_day ((n - 25569) * 86400 * 1000)
         | _ =>
           match match_iso (JS.trim (toString host v)) with
           | Some (y, mo, d) =>
               Normal (Some (y ++ "-" ++ JS.padStart2 mo ++ "-" ++ JS.padStart2 d))
           | None =>
               match match_dmy (JS.trim (toString host v)) with
               | Some (d, mo, y) =>
                   let y' := window_year (JS.number_of_digits y) in
                   Normal (Some (JS.number_toString y' ++ "-" ++ JS.padStart2 mo
                                 ++ "-" ++ JS.padStart2 d))
               | None => Normal None
               end
           end
         end.
Proof. reflexivity. Qed.

Lemma serial_out_of_range n :
  time_valid ((n - 25569) * 86400 * 1000) = false <-> (n < -99974431 \/ 100025569 < n).
Proof.
  unfold time_valid, maxTime. rewrite Z.leb_gt. lia.
Qed.

Lemma normalizeDate_throws_only host v m :
  normalizeDate host v = Throw m ->
  exists n, v = VNum n /\ (n < -99974431 \/ 100025569 < n) /\ m = "Invalid time value".
Proof.
  rewrite normalizeDate_cases.
  destruct (truthy v) eqn:T; cbn [negb]; [|discriminate].
  destruct v as [| |b|n|s|t].
  - discriminate T.
  - discriminate T.
  - intros H. now apply text_path_normal in H.
  - cbn [is_valid_date]. intros H. apply iso_day_throws in H as [H ->]. exists n.
    split; [reflexivity|]. split; [|reflexivity]. now apply serial_out_of_range.
  - intros H. now apply text_path_normal in H.
  - cbn [is_valid_date time_value]. destruct (time_valid t) eqn:V.
    + intros H. apply iso_day_throws in H as [H _]. congruence.
    + intros H. now apply text_path_normal in H.
Qed.

(** X8: the normalizer throws on one kind of value only: a number that is not 0
    and lies more than 100 000 000 days away from 1970-01-01, for which
    [toISOString] has no date. *)
Theorem normalizeDate_throws host v m :
  normalizeDate host v = Throw m
  <-> exists n, v = VNum n /\ (n < -99974431 \/ 100025569 < n) /\ m = "Invalid time value".
Proof.
  split; [apply normalizeDate_throws_only|].
  intros (n & -> & Hn & ->). rewrite normalizeDate_cases. cbn [truthy is_valid_date].
  destruct (Z.eqb_spec n 0); [lia|]. cbn [negb].
  apply iso_day_throws. split; [|reflexivity]. now apply serial_out_of_range.
Qed.

Lemma normalizeDate_throws_witness :
  normalizeDate (Samples.host []) (VNum 100025570) = Throw "Invalid time value".
Proof.
  apply (proj2 (normalizeDate_throws (Samples.host []) (VNum 100025570) "Invalid time value")).
  exists 100025570. split; [reflexivity|]. split; [lia|reflexivity].
Defined.

End DateMore.

(** ** Canonical dates and records read back from a sheet *)

Module ReimportFacts.
Import Calendar StringFacts Dates DateFacts TrimFacts DateMore Mapper Handlers MapperFacts Reimport.

Lemma strip_one_digit ws s :
  forallb starts_with_other ws = true ->
  starts_with_digit s = true -> JS.strip_one ws s = None.
Proof.
  intros Hws Hs. apply strip_one_none. intros w r Hin ->.
  rewrite forallb_forall in Hws. specialize (Hws w Hin).
  destruct w as [|a w]; [discriminate|].
  change (JS.is_digit a = true) in Hs. change (negb (JS.is_digit a) = true) in Hws.
  rewrite Hs in Hws. discriminate.
Qed.

Lemma ends_with_digit_rev x c :
  JS.is_digit c = true -> starts_with_digit (JS.rev_string (x ++ String c "")) = true.
Proof.
  intros H. rewrite rev_string_append.
  change (JS.rev_string (String c "")) with (String c ""). exact H.
Qed.

(** A text that starts and ends with a digit is not changed by [trim]. *)
Lemma trim_digits x c :
  starts_with_digit (x ++ String c "") = true -> JS.is_digit c = true ->
  JS.trim (x ++ String c "") = x ++ String c "".
Proof.
  intros H1 H2. apply trim_fixed.
  - apply strip_one_digit; [vm_compute; reflexivity|assumption].
  - apply strip_one_digit; [vm_compute; reflexivity|now apply ends_with_digit_rev].
Qed.

Lemma all_digits_append a b :
  all_digits (a ++ b) = all_digits a && all_digits b.
Proof.
  induction a as [|c a IH]; [reflexivity|].
  change (JS.is_digit c && all_digits (a ++ b) = JS.is_digit c && all_digits a && all_digits b).
  rewrite IH. now rewrite andb_assoc.
Qed.

Lemma two_digits d :
  all_digits d = true -> String.length d = 2%nat ->
  exists a b, d = String a (String b "") /\ JS.is_digit a = true /\ JS.is_digit b = true.
Proof.
  intros Hd Hl. destruct d as [|a [|b [|c d]]]; try discriminate.
  cbn [all_digits] in Hd. apply andb_true_iff in Hd as [Ha Hb].
  apply andb_true_iff in Hb as [Hb _]. now exists a, b.
Qed.

Lemma padStart2_digits m :
  all_digits m = true -> (1 <= String.length m <= 2)%nat ->
  all_digits (JS.padStart2 m) = true /\ String.length (JS.padStart2 m) = 2%nat.
Proof.
  intros Hm Hl. destruct m as [|a [|b [|c m]]]; cbn in Hl; try lia.
  - split; [|reflexivity]. cbn [all_digits] in Hm.
    change (JS.padStart2 (String a "")) with (String "0" (String a "")).
    cbn [all_digits]. now rewrite Hm.
  - now split.
Qed.

Lemma padStart2_two m : String.length m = 2%nat -> JS.padStart2 m = m.
Proof. intros H. unfold JS.padStart2. now rewrite H. Qed.

(** A canonical date is a text that [normalizeDate] returns as it is. *)
Lemma normalizeDate_canonical_text host y m d :
  all_digits y = true -> all_digits m = true -> all_digits d = true ->
  String.length y = 4%nat -> String.length m = 2%nat -> String.length d = 2%nat ->
  normalizeDate host (VStr (y ++ "-" ++ m ++ "-" ++ d))
  = Normal (Some (y ++ "-" ++ m ++ "-" ++ d)).
Proof.
  intros Hy Hm Hd Ly Lm Ld.
  destruct (two_digits d Hd Ld) as (a & b & -> & Ha & Hb).
  assert (Ht : JS.trim (y ++ "-" ++ m ++ "-" ++ String a (String b ""))
               = y ++ "-" ++ m ++ "-" ++ String a (String b "")).
  { replace (y ++ "-" ++ m ++ "-" ++ String a (String b ""))
      with ((y ++ "-" ++ m ++ "-" ++ String a "") ++ String b "")
      by (rewrite !append_assoc; reflexivity).
    apply trim_digits; [|assumption].
    destruct y as [|c y]; [discriminate Ly|]. cbn [all_digits] in Hy.
    apply andb_true_iff in Hy as [Hc _]. exact Hc. }
  assert (Hi : is_ymd_text (JS.trim (y ++ "-" ++ m ++ "-" ++ String a (String b "")))
                 y m (String a (String b ""))).
  { rewrite Ht. exists "-"%char, "-"%char. unfold date_text.
    repeat split; try assumption; try reflexivity; lia. }
  rewrite (proj1 (normalizeDate_text host _) y m _ Hi).
  now rewrite (padStart2_two m Lm).
Qed.

(** X9: normalizing a text of the form YYYY[-/]M[-/]D gives a canonical date of
    ten characters, and normalizing that date again gives it back. *)
Theorem normalizeDate_idempotent host s y m d :
  is_ymd_text (JS.trim s) y m d ->
  exists r, normalizeDate host (VStr s) = Normal (Some r)
    /\ canonical_date (Some r)
    /\ String.length r = 10%nat
    /\ normalizeDate host (VStr r) = Normal (Some r).
Proof.
  intros Hi. exists (y ++ "-" ++ JS.padStart2 m ++ "-" ++ JS.padStart2 d).
  pose proof (proj1 (normalizeDate_text host s) y m d Hi) as Hn.
  destruct Hi as (c1 & c2 & _ & Hy & Hm & Hd & _ & _ & Ly & Lm & Ld).
  destruct (padStart2_digits m Hm Lm) as [Hm2 Lm2].
  destruct (padStart2_digits d Hd Ld) as [Hd2 Ld2].
  split; [exact Hn|]. split; [|split].
  - right. exists y, (JS.padStart2 m), (JS.padStart2 d). now repeat split.
  - rewrite !length_append, Ly, Lm2, Ld2. reflexivity.
  - now apply normalizeDate_canonical_text.
Qed.

Lemma normalizeDate_idempotent_witness :
  is_ymd_text (JS.trim " 2024/3-5 ") "2024" "3" "5"
  /\ normalizeDate (Samples.host []) (VStr " 2024/3-5 ") = Normal (Some "2024-03-05")
  /\ normalizeDate (Samples.host []) (VStr "2024-03-05") = Normal (Some "2024-03-05").
Proof.
  assert (Hi : is_ymd_text (JS.trim " 2024/3-5 ") "2024" "3" "5").
  { exists "/"%char, "-"%char. repeat split; cbn; lia. }
  split; [exact Hi|].
  destruct (normalizeDate_idempotent (Samples.host []) " 2024/3-5 " "2024" "3" "5" Hi)
    as (r & H1 & _ & _ & H2).
  assert (Hr : r = "2024-03-05").
  { assert (E : normalizeDate (Samples.host []) (VStr " 2024/3-5 ")
                = Normal (Some "2024-03-05")) by reflexivity.
    rewrite E in H1. now injection H1. }
  subst r. now split.
Defined.

End ReimportFacts.

Module RecordFacts.
Import Calendar StringFacts Dates DateFacts TrimFacts DateMore Mapper Backend Handlers MapperFacts.
Import Reimport ReimportFacts ImportFacts.

Lemma exported_row_unfold x :
  exported_row x
  = <["company_code" := opt_cell (company_code x)]>
    (<["brand_name" := VStr (brand_name x) ||| VStr ""]>
    (<["common_label" := VStr (common_label x) ||| VStr ""]>
    (<["registration_no" := registration_no x ||| VStr ""]>
    (<["importer" := importer x ||| VStr ""]>
    (<["manufacturer_source" := manufacturer_source x ||| VStr ""]>
    (<["distributor" := distributor x ||| VStr ""]>
    (<["packed_volume" := packed_volume x ||| VStr ""]>
    (<["registration_date" := opt_cell (registration_date x)]>
    (<["expiry_date" := opt_cell (expiry_date x)]>
    (<["license_no" := license_no x ||| VStr ""]> ∅)))))))))).
Proof. reflexivity. Qed.

Ltac lookup_row :=
  unfold get; rewrite exported_row_unfold;
  repeat (rewrite lookup_insert_ne by discriminate);
  first [rewrite lookup_insert_eq | rewrite lookup_empty]; reflexivity.

Lemma exported_row_get x :
  get (exported_row x) "brand_name" = VStr (brand_name x) ||| VStr ""
  /\ get (exported_row x) "common_label" = VStr (common_label x) ||| VStr ""
  /\ get (exported_row x) "registration_no" = registration_no x ||| VStr ""
  /\ get (exported_row x) "importer" = importer x ||| VStr ""
  /\ get (exported_row x) "manufacturer_source" = manufacturer_source x ||| VStr ""
  /\ get (exported_row x) "distributor" = distributor x ||| VStr ""
  /\ get (exported_row x) "packed_volume" = packed_volume x ||| VStr ""
  /\ get (exported_row x) "registration_date" = opt_cell (registration_date x)
  /\ get (exported_row x) "expiry_date" = opt_cell (expiry_date x)
  /\ get (exported_row x) "license_no" = license_no x ||| VStr "".
Proof. repeat split; lookup_row. Qed.

Lemma exported_row_localized x f : get (exported_row x) (localized_name f) = VUndefined.
Proof. destruct f; cbn [localized_name]; lookup_row. Qed.

(** X10: the texts of a mapped record carry no white space at their ends: [trim]
    leaves the brand name and the common label of the record as they are. *)
Theorem mapRow_trimmed host cc r x :
  mapRow host cc r = Normal x ->
  JS.trim (brand_name x) = brand_name x /\ JS.trim (common_label x) = common_label x.
Proof.
  intros H. destruct (mapRow_inv _ _ _ _ H) as (_ & -> & -> & _).
  split; apply trim_idempotent.
Qed.

Lemma mapRow_trimmed_witness :
  let r := row_of localized_name Samples.values in
  mapRow (Samples.host []) None r = Normal (Samples.alpha None)
  /\ JS.trim "Alpha 50" = "Alpha 50".
Proof.
  intros r.
  assert (H : mapRow (Samples.host []) None r = Normal (Samples.alpha None))
    by (vm_compute; reflexivity).
  split; [exact H|]. exact (proj1 (mapRow_trimmed _ _ _ _ H)).
Defined.

Lemma optional_shape a b :
  truthy (a ||| b ||| VNull) = true \/ a ||| b ||| VNull = VNull.
Proof.
  unfold or_else. destruct (truthy a) eqn:A.
  - rewrite A. now left.
  - destruct (truthy b) eqn:B; [now left|now right].
Qed.

Lemma optional_cell v :
  truthy v = true \/ v = VNull -> (v ||| VStr "") ||| VUndefined ||| VNull = v.
Proof.
  unfold or_else. intros [T | ->]; [|reflexivity]. now rewrite T, T, T.
Qed.

Lemma text_cell host b :
  JS.trim b = b ->
  JS.trim (toString host ((VStr b ||| VStr "") ||| VUndefined ||| VStr "")) = b.
Proof.
  intros Hb. unfold or_else. cbn [truthy]. unfold nonempty.
  destruct (String.eqb_spec b "") as [->|Hn]; cbn [negb].
  - reflexivity.
  - cbn [truthy]. unfold nonempty. destruct (String.eqb_spec b ""); [contradiction|].
    cbn [negb truthy]. unfold nonempty. destruct (String.eqb_spec b ""); [contradiction|].
    exact Hb.
Qed.

Lemma date_cell host o :
  canonical_date o -> normalizeDate host (opt_cell o ||| VUndefined) = Normal o.
Proof.
  intros [-> | (y & m & d & -> & Hy & Hm & Hd & Ly & Lm & Ld)]; [reflexivity|].
  assert (T : truthy (VStr (y ++ "-" ++ m ++ "-" ++ d)) = true).
  { destruct y; [discriminate Ly|reflexivity]. }
  unfold opt_cell, of_option, or_else. rewrite T, T.
  now apply normalizeDate_canonical_text.
Qed.

(** X11: a record that the import has mapped, written to the sheet by the export
    and read back under the column names of the sheet, is mapped to the same
    record again, provided its two dates are null or canonical. *)
Theorem reimport_exported_record host cc r x :
  mapRow host cc r = Normal x ->
  canonical_date (registration_date x) -> canonical_date (expiry_date x) ->
  mapRow host cc (exported_row x) = Normal x.
Proof.
  intros H Hr He.
  destruct (mapRow_inv _ _ _ _ H) as (Hcc & Hb & Hc & H1 & H2 & H3 & H4 & H5 & H6 & _).
  apply (f_equal JS.trim) in Hb, Hc. rewrite trim_idempotent in Hb, Hc.
  rewrite <- (proj1 (proj2 (mapRow_inv _ _ _ _ H))) in Hb.
  rewrite <- (proj1 (proj2 (proj2 (mapRow_inv _ _ _ _ H)))) in Hc.
  assert (S1 := optional_shape (get r "registration_no") (get r "ทะเบียน")).
  assert (S2 := optional_shape (get r "importer") (get r "ผู้นำเข้า")).
  assert (S3 := optional_shape (get r "manufacturer_source") (get r "ผู้ผลิต/แหล่งผลิต")).
  assert (S4 := optional_shape (get r "distributor") (get r "ผู้จำหน่าย")).
  assert (S5 := optional_shape (get r "packed_volume") (get r "นำเข้า/แบ่งบรรจุ")).
  assert (S6 := optional_shape (get r "license_no") (get r "ใบอนุญาต")).
  rewrite <- H1 in S1. rewrite <- H2 in S2. rewrite <- H3 in S3.
  rewrite <- H4 in S4. rewrite <- H5 in S5. rewrite <- H6 in S6.
  clear H H1 H2 H3 H4 H5 H6.
  destruct (exported_row_get x) as (G1 & G2 & G3 & G4 & G5 & G6 & G7 & G8 & G9 & G10).
  pose proof (exported_row_localized x F_brand_name) as L1.
  pose proof (exported_row_localized x F_common_label) as L2.
  pose proof (exported_row_localized x F_registration_no) as L3.
  pose proof (exported_row_localized x F_importer) as L4.
  pose proof (exported_row_localized x F_manufacturer_source) as L5.
  pose proof (exported_row_localized x F_distributor) as L6.
  pose proof (exported_row_localized x F_packed_volume) as L7.
  pose proof (exported_row_localized x F_registration_date) as L8.
  pose proof (exported_row_localized x F_expiry_date) as L9.
  pose proof (exported_row_localized x F_license_no) as L10.
  cbn [localized_name] in *.
  unfold mapRow.
  rewrite G1, G2, G3, G4, G5, G6, G7, G8, G9, G10, L1, L2, L3, L4, L5, L6, L7, L8, L9, L10.
  rewrite (date_cell host _ Hr), (date_cell host _ He).
  rewrite (text_cell host _ Hb), (text_cell host _ Hc).
  rewrite !optional_cell by assumption.
  rewrite <- Hcc. now destruct x.
Qed.

Lemma reimport_exported_record_witness :
  let r := row_of localized_name Samples.values in
  mapRow (Samples.host []) (Some "ACME") r = Normal (Samples.alpha (Some "ACME"))
  /\ mapRow (Samples.host []) (Some "ACME") (exported_row (Samples.alpha (Some "ACME")))
     = Normal (Samples.alpha (Some "ACME")).
Proof.
  intros r.
  assert (H : mapRow (Samples.host []) (Some "ACME") r = Normal (Samples.alpha (Some "ACME")))
    by (vm_compute; reflexivity).
  split; [exact H|].
  apply (reimport_exported_record _ _ r _ H).
  - right. exists "2024", "03", "05". now repeat split.
  - right. exists "2023", "03", "15". now repeat split.
Defined.

(** A date that is not canonical is lost on the way: the year of three
    digits that the normalizer has let through is null when it is read back. *)
Example reimport_short_year :
  normalizeDate (Samples.host []) (VStr "5/3/123") = Normal (Some "123-03-05")
  /\ normalizeDate (Samples.host []) (VStr "123-03-05") = Normal None.
Proof. split; reflexivity. Qed.

Lemma mapRow_throw_message host cc r m :
  mapRow host cc r = Throw m -> m = "Invalid time value".
Proof.
  unfold mapRow.
  destruct (normalizeDate host (get r "registration_date" ||| get r "วันออกทะเบียน")) eqn:E1.
  - destruct (normalizeDate host (get r "expiry_date" ||| get r "วันหมดอายุ")) eqn:E2;
      [discriminate|].
    intros [= <-]. now apply normalizeDate_throws_only in E2 as (n & _ & _ & ->).
  - intros [= <-]. now apply normalizeDate_throws_only in E1 as (n & _ & _ & ->).
Qed.

Lemma mapRow_serial host cc r n :
  get r "registration_date" = VNum n \/ get r "expiry_date" = VNum n ->
  n < -99974431 \/ 100025569 < n ->
  mapRow host cc r = Throw "Invalid time value".
Proof.
  intros Hcell Hn.
  assert (Hthrow : forall b, normalizeDate host (VNum n ||| b) = Throw "Invalid time value").
  { intros b. unfold or_else. cbn [truthy]. destruct (Z.eqb_spec n 0); [lia|]. cbn [negb].
    rewrite normalizeDate_cases. cbn [truthy is_valid_date].
    destruct (Z.eqb_spec n 0); [lia|]. cbn [negb].
    apply iso_day_throws. split; [|reflexivity]. now apply serial_out_of_range. }
  unfold mapRow.
  destruct (normalizeDate host (get r "registration_date" ||| get r "วันออกทะเบียน")) eqn:E1.
  - destruct Hcell as [Hc|Hc].
    + rewrite Hc, Hthrow in E1. discriminate.
    + now rewrite Hc, Hthrow.
  - f_equal. now apply normalizeDate_throws_only in E1 as (k & _ & _ & ->).
Qed.

Lemma map_rows_throws host cc rows r :
  In r rows -> mapRow host cc r = Throw "Invalid time value" ->
  map_rows host cc rows = Throw "Invalid time value".
Proof.
  induction rows as [|r0 rows IH]; intros Hin Hr; [destruct Hin|].
  cbn [map_rows]. destruct (mapRow host cc r0) as [x0|m] eqn:E0.
  - destruct Hin as [->|Hin]; [congruence|]. now rewrite (IH Hin Hr).
  - f_equal. now apply mapRow_throw_message in E0.
Qed.

(** X12: one cell is enough to refuse a whole file: when a date column of any
    row, a row that the filter would drop included, holds a number beyond the
    range of dates, the import is answered 500 "Invalid time value" and the
    backend is not called. *)
Theorem import_aborted_by_serial host req w f rows r n :
  file req = Some f -> parse_file host f = Normal rows -> In r rows ->
  get r "registration_date" = VNum n \/ get r "expiry_date" = VNum n ->
  n < -99974431 \/ 100025569 < n ->
  import_csv host req w = ({| status := 500; body := BError "Invalid time value" |}, w).
Proof.
  intros Hf Hp Hin Hcell Hn. unfold import_csv, mapped_records. rewrite Hf, Hp.
  now rewrite (map_rows_throws host _ rows r Hin (mapRow_serial host _ r n Hcell Hn)).
Qed.

Lemma import_aborted_by_serial_witness :
  let r : gmap string value := {[ "expiry_date" := VNum 100025570 ]} in
  let rows := [row_of canonical_name Samples.values; r] in
  import_csv (Samples.host rows) (Samples.import_request (Some "1") (Some "ACME")) Samples.world
  = ({| status := 500; body := BError "Invalid time value" |}, Samples.world).
Proof.
  intros r rows.
  apply (import_aborted_by_serial _ _ _ Samples.upload rows r 100025570).
  - reflexivity.
  - reflexivity.
  - right. now left.
  - right. reflexivity.
  - right. lia.
Defined.

End RecordFacts.

(** ** More on the gate and the routes *)

Module AuthMore.
Import Auth AuthFacts Mapper Backend Handlers TrimFacts.

(** X13: what the gate can answer and whom it asks: a rejection is one of four
    answers; the identity service is asked at most once, about the token of
    the authorization header, and not at all when the static key admits or
    no bearer header is there; a request admitted by the static key carries
    no user, a request admitted by a token carries the user of the token. *)
Theorem adminAuth_outcomes env getUser req :
  let '(outcome, asked) := adminAuth env getUser req in
  (forall st e, outcome = Reject st e ->
     (st = 401 /\ e = "invalid token") \/ (st = 401 /\ e = "missing credentials")
     \/ (st = 403 /\ e = "forbidden") \/ (st = 500 /\ e = "auth error"))
  /\ (asked = [] \/ exists token, asked = [token] /\ bearer_token req = Some token)
  /\ (asked = [] <-> key_admits env req = true \/ bearer_token req = None)
  /\ (outcome = Admit None <-> key_admits env req = true)
  /\ (forall u, outcome = Admit (Some u) ->
        exists token, asked = [token] /\ getUser token = GetUserReturns None (Some u)).
Proof.
  unfold adminAuth. destruct (key_admits env req) eqn:K.
  - split; [discriminate|]. split; [now left|]. split; [split; [now left|reflexivity]|].
    split; [now split|]. discriminate.
  - destruct (bearer_token req) as [token|] eqn:B.
    + assert (Hout : forall o : Outcome,
                 (forall st e, o = Reject st e ->
                    (st = 401 /\ e = "invalid token") \/ (st = 401 /\ e = "missing credentials")
                    \/ (st = 403 /\ e = "forbidden") \/ (st = 500 /\ e = "auth error")) ->
                 (o = Admit None -> False) ->
                 (forall u, o = Admit (Some u) -> getUser token = GetUserReturns None (Some u)) ->
                 (forall st e, o = Reject st e ->
                    (st = 401 /\ e = "invalid token") \/ (st = 401 /\ e = "missing credentials")
                    \/ (st = 403 /\ e = "forbidden") \/ (st = 500 /\ e = "auth error"))
                 /\ ([token] = [] \/ exists t, [token] = [t] /\ Some token = Some t)
                 /\ ([token] = [] <-> false = true \/ Some token = None)
                 /\ (o = Admit None <-> false = true)
                 /\ (forall u, o = Admit (Some u) ->
                       exists t, [token] = [t] /\ getUser t = GetUserReturns None (Some u))).
      { intros o H1 H2 H3. split; [exact H1|]. split; [right; now exists token|].
        split; [split; [discriminate|intros [|]; discriminate]|].
        split; [split; [intros H; destruct (H2 H)|discriminate]|].
        intros u Hu. exists token. split; [reflexivity|]. now apply H3. }
      destruct (getUser token) as [m|[e|] [u|]] eqn:G; apply Hout;
        try (intros st e' [= <- <-]; tauto); try discriminate.
      * destruct (role_is_admin (role u ||| VStr "")) as [[|]|]; [| |intros st e' [= <- <-]; tauto];
          [discriminate|].
        destruct (email_allowed env u); [discriminate|]. intros st e' [= <- <-]. tauto.
      * destruct (role_is_admin (role u ||| VStr "")) as [[|]|]; try discriminate.
        destruct (email_allowed env u); discriminate.
      * intros u'. destruct (role_is_admin (role u ||| VStr "")) as [[|]|]; try discriminate.
        -- now intros [= <-].
        -- destruct (email_allowed env u); [|discriminate]. now intros [= <-].
    + split; [intros st e [= <- <-]; tauto|]. split; [now left|].
      split; [split; [now right|reflexivity]|]. split; [split; discriminate|]. discriminate.
Qed.

(** X14: without a static key in the configuration, unset or empty, no key opens
    the gate, the empty key included: whoever is admitted holds a validated
    token of a user with the admin role or an allowlisted email. *)
Theorem adminAuth_without_static_key env getUser req a :
  env_ADMIN_API_KEY env = None \/ env_ADMIN_API_KEY env = Some "" ->
  fst (adminAuth env getUser req) = Admit a ->
  exists u token, a = Some u /\ bearer_token req = Some token
    /\ getUser token = GetUserReturns None (Some u)
    /\ (admin_role u \/ allowlisted env u).
Proof.
  intros Henv. apply admit_inv.
  destruct (key_admits env req) eqn:K; [|reflexivity].
  apply key_admits_spec in K as (k & _ & Ha). unfold ADMIN_API_KEY in Ha.
  destruct Henv as [E|E]; rewrite E in Ha; discriminate.
Qed.

Lemma adminAuth_without_static_key_witness :
  let env := {| env_ADMIN_API_KEY := Some ""; env_ADMIN_EMAILS := None |} in
  let req := Samples.request [("x-admin-key", ""); ("authorization", "Bearer t-admin")] [] in
  fst (adminAuth env Samples.getUser req) = Admit (Some Samples.admin_user)
  /\ exists u token, Some Samples.admin_user = Some u /\ bearer_token req = Some token
       /\ Samples.getUser token = GetUserReturns None (Some u)
       /\ (admin_role u \/ allowlisted env u).
Proof.
  intros env req.
  assert (H : fst (adminAuth env Samples.getUser req) = Admit (Some Samples.admin_user))
    by (vm_compute; reflexivity).
  split; [exact H|].
  apply (adminAuth_without_static_key env Samples.getUser req _ (or_intror eq_refl) H).
Defined.

(** X15: who can reach the backend through the import route and the export
    route: when a request has made one of them call the backend, it carried
    the configured static key as its first key, or a token that the identity
    service has validated for a user with the admin role or an allowlisted
    email. *)
Theorem routes_call_backend_for_admins env getUser host areq req w :
  calls (snd (post_import_csv env getUser host areq req w)) <> calls w
  \/ calls (snd (get_export env getUser host areq w)) <> calls w ->
  (exists k, first_key areq k /\ ADMIN_API_KEY env = Some k)
  \/ (exists u token, bearer_token areq = Some token
        /\ getUser token = GetUserReturns None (Some u)
        /\ (admin_role u \/ allowlisted env u)).
Proof.
  intros Hcalls.
  destruct (key_admits env areq) eqn:K; [left; now apply key_admits_spec|].
  right.
  destruct (fst (adminAuth env getUser areq)) as [a|st e] eqn:O.
  - destruct (admit_inv env getUser areq a K O) as (u & token & _ & Hb & Hg & Hr).
    now exists u, token.
  - unfold post_import_csv, get_export, guarded in Hcalls. rewrite O in Hcalls.
    unfold ret in Hcalls. cbn [snd] in Hcalls. now destruct Hcalls.
Qed.

Lemma routes_call_backend_for_admins_witness :
  let areq := Samples.request [("authorization", "Bearer t-admin")] [("code", "ACME")] in
  calls (snd (get_export Samples.env Samples.getUser (Samples.host []) areq Samples.world)) <> calls Samples.world
  /\ exists u token, bearer_token areq = Some token
       /\ Samples.getUser token = GetUserReturns None (Some u)
       /\ (admin_role u \/ allowlisted Samples.env u).
Proof.
  intros areq.
  assert (H : calls (snd (get_export Samples.env Samples.getUser (Samples.host []) areq Samples.world))
              <> calls Samples.world) by (vm_compute; discriminate).
  split; [exact H|].
  destruct (routes_call_backend_for_admins Samples.env Samples.getUser (Samples.host [])
              areq (Samples.import_request None None) Samples.world (or_intror H))
    as [(k & Hk & _) | Hu]; [|exact Hu].
  apply presented_key_first in Hk as [Hk _]. vm_compute in Hk. discriminate.
Defined.

End AuthMore.

(** ** The endpoints with a fallback *)

Module CrudFacts.
Import Crud.

Ltac run :=
  unfold catch500, lift, bind, attempt, request, ret, throw, json, fail in *.

(** GET /list: the calls and the failures. *)
Lemma get_list_calls backend (query : gmap string string) log :
  let rpc := Rpc "get_company_portal" [("p_plain_code", VStr (query_code query))] in
  let sel := SelectRegistrations (query_code query) in
  let n := length log in
  let '(answer, log') := get_list backend query log in
  (code answer = 200 \/ code answer = 500)
  /\ (code answer = 200 -> exists d, payload answer = PRows d /\ d <> DNull)
  /\ (log' = (log ++ [rpc])%list \/ log' = (log ++ [rpc; sel])%list)
  /\ (log' = (log ++ [rpc])%list <-> exists d, backend n rpc = Resolves d None)
  /\ (forall message, answer = fail 500 message <->
        (forall d, backend n rpc <> Resolves d None)
        /\ (backend (S n) sel = Rejects message
            \/ exists d, backend (S n) sel = Resolves d (Some message))).
Proof.
  intros rpc sel n. unfold get_list. run. fold rpc sel n.
  assert (Hne : forall l : list Call, (l ++ [rpc])%list <> (l ++ [rpc; sel])%list).
  { intros l H. apply app_inv_head in H. discriminate. }
  assert (Hor : forall d, or_empty d <> DNull) by (intros [| |]; discriminate).
  assert (Hn : length (log ++ [rpc]) = S n) by (rewrite length_app; cbn; lia).
  destruct (backend n rpc) as [m|d [m|]] eqn:R.
  1,2: rewrite Hn; rewrite <- app_assoc; cbn [app];
    destruct (backend (S n) sel) as [m'|d' [m'|]] eqn:Q; cbn [code payload fst snd];
    (split; [tauto|]); (split; [first [discriminate | intros _; eexists; split; [reflexivity|apply Hor]]|]);
    (split; [now right|]);
    (split; [split; [intros H; symmetry in H; now apply Hne in H | intros (d0 & Hd); discriminate]|]).
  - intros message. split.
    + intros [= <-]. split; [discriminate|now left].
    + intros (_ & [[= <-] | (d0 & Hd)]); [reflexivity|discriminate].
  - intros message. split.
    + intros [= <-]. split; [discriminate|]. right. now exists d'.
    + intros (_ & [Hd | (d0 & [= _ <-])]); [discriminate|reflexivity].
  - intros message. split; [discriminate|].
    intros (_ & [Hd | (d0 & Hd)]); discriminate.
  - intros message. split.
    + intros [= <-]. split; [discriminate|now left].
    + intros (_ & [[= <-] | (d0 & Hd)]); [reflexivity|discriminate].
  - intros message. split.
    + intros [= <-]. split; [discriminate|]. right. now exists d'.
    + intros (_ & [Hd | (d0 & [= _ <-])]); [discriminate|reflexivity].
  - intros message. split; [discriminate|].
    intros (_ & [Hd | (d0 & Hd)]); discriminate.
  - cbn [code payload]. split; [tauto|]. split; [intros _; eexists; split; [reflexivity|apply Hor]|].
    split; [now left|]. split; [split; [intros _; now exists d|reflexivity]|].
    intros message. split; [discriminate|]. intros (H & _). now destruct (H d).
Qed.

(** GET /list: the rows of an answer 200. *)
Lemma get_list_rows backend (query : gmap string string) log :
  let rpc := Rpc "get_company_portal" [("p_plain_code", VStr (query_code query))] in
  let sel := SelectRegistrations (query_code query) in
  let n := length log in
  let answer := fst (get_list backend query log) in
  (forall d, backend n rpc = Resolves d None -> answer = json (PRows (or_empty d)))
  /\ ((forall d, backend n rpc <> Resolves d None) ->
      forall d, backend (S n) sel = Resolves d None -> answer = json (PRows (or_empty d))).
Proof.
  intros rpc sel n. unfold get_list. run. fold rpc sel n.
  assert (Hn : length (log ++ [rpc]) = S n) by (rewrite length_app; cbn; lia).
  destruct (backend n rpc) as [m|d [m|]] eqn:R.
  1,2: rewrite Hn; split; [discriminate|]; intros _ d0 Hd0; now rewrite Hd0.
  split; [now intros d0 [= <-]|]. intros H. now destruct (H d).
Qed.

(** X16: GET /list: the remote procedure is called first and its rows are the
    answer when it resolves without an error; the table is read only when it
    has failed, once and for the same code, and then the rows it returns are
    the answer; the answer is 500 only when that read fails too, with the
    message of the read: the failure of the procedure itself is never
    reported.  The rows of an answer 200 are those of the reply, and the
    empty list when the reply holds null: they are never null. *)
Theorem get_list_answers backend (query : gmap string string) log :
  let rpc := Rpc "get_company_portal" [("p_plain_code", VStr (query_code query))] in
  let sel := SelectRegistrations (query_code query) in
  let n := length log in
  let '(answer, log') := get_list backend query log in
  (code answer = 200 \/ code answer = 500)
  /\ (code answer = 200 -> exists d, payload answer = PRows d /\ d <> DNull)
  /\ (log' = (log ++ [rpc])%list \/ log' = (log ++ [rpc; sel])%list)
  /\ (log' = (log ++ [rpc])%list <-> exists d, backend n rpc = Resolves d None)
  /\ (forall message, answer = fail 500 message <->
        (forall d, backend n rpc <> Resolves d None)
        /\ (backend (S n) sel = Rejects message
            \/ exists d, backend (S n) sel = Resolves d (Some message)))
  /\ (forall d, backend n rpc = Resolves d None -> answer = json (PRows (or_empty d)))
  /\ ((forall d, backend n rpc <> Resolves d None) ->
      forall d, backend (S n) sel = Resolves d None -> answer = json (PRows (or_empty d)))
  /\ or_empty DNull = DRows [] /\ (forall d, d <> DNull -> or_empty d = d).
Proof.
  intros rpc sel n.
  pose proof (get_list_calls backend query log) as H1.
  pose proof (get_list_rows backend query log) as H2.
  cbv zeta in H1, H2. fold rpc sel n in H1, H2.
  destruct (get_list backend query log) as [answer log']. cbn [fst] in H2.
  destruct H1 as (A & B & C & D & E). destruct H2 as (F & G).
  repeat (split; [assumption|]). split; [reflexivity|].
  intros [| |] Hd; [contradiction|reflexivity|reflexivity].
Qed.

Lemma plain_code_shape d : truthy (plain_code_of d) = true \/ plain_code_of d = VNull.
Proof.
  destruct d as [|o|l]; [now right| |now right]. unfold plain_code_of, or_else.
  destruct (truthy (Mapper.get o "plain_code")) eqn:T; [left; exact T|now right].
Qed.

(** X17: GET /company-code: the answer is 200 with a plain code that is a truthy
    value or null (never undefined, never the empty text), unless the read of
    the companies table is rejected, the only case of a 500; an error returned
    by both lookups is answered like a company without a plain code. *)
Theorem get_company_code_answers backend (query : gmap string string) log :
  let rpc := Rpc "get_customer_code" [("p_company_code", VStr (query_code query))] in
  let sel := SelectPlainCode (query_code query) in
  let n := length log in
  let '(answer, log') := get_company_code backend query log in
  (log' = (log ++ [rpc])%list \/ log' = (log ++ [rpc; sel])%list)
  /\ (log' = (log ++ [rpc])%list <-> exists d, backend n rpc = Resolves d None)
  /\ (forall message, answer = fail 500 message <->
        (forall d, backend n rpc <> Resolves d None) /\ backend (S n) sel = Rejects message)
  /\ ((forall message, answer <> fail 500 message) ->
      exists v, answer = json (PPlainCode v) /\ (truthy v = true \/ v = VNull))
  /\ ((forall d, backend n rpc <> Resolves d None) ->
      forall d message, backend (S n) sel = Resolves d (Some message) ->
      answer = json (PPlainCode VNull)).
Proof.
  intros rpc sel n. unfold get_company_code. run. fold rpc sel n.
  assert (Hne : forall l : list Call, (l ++ [rpc])%list <> (l ++ [rpc; sel])%list).
  { intros l H. apply app_inv_head in H. discriminate. }
  assert (Hn : length (log ++ [rpc]) = S n) by (rewrite length_app; cbn; lia).
  destruct (backend n rpc) as [m|d [m|]] eqn:R.
  1,2: rewrite Hn; rewrite <- app_assoc; cbn [app];
    destruct (backend (S n) sel) as [m'|d' [m'|]] eqn:Q; cbn [fst snd];
    (split; [now right|]);
    (split; [split; [intros H; symmetry in H; now apply Hne in H | intros (d0 & Hd); discriminate]|]).
  - split; [intros message; split; [intros [= <-]; now split | intros (_ & [= <-]); reflexivity]|].
    split; [intros H; now destruct (H m')|]. intros _ d0 msg H. discriminate.
  - split; [intros message; split; [discriminate | intros (_ & H); discriminate]|].
    split; [intros _; exists VNull; split; [reflexivity|now right]|]. reflexivity.
  - split; [intros message; split; [discriminate | intros (_ & H); discriminate]|].
    split; [intros _; eexists; split; [reflexivity|apply plain_code_shape]|].
    intros _ d0 msg H. discriminate.
  - split; [intros message; split; [intros [= <-]; now split | intros (_ & [= <-]); reflexivity]|].
    split; [intros H; now destruct (H m')|]. intros _ d0 msg H. discriminate.
  - split; [intros message; split; [discriminate | intros (_ & H); discriminate]|].
    split; [intros _; exists VNull; split; [reflexivity|now right]|]. reflexivity.
  - split; [intros message; split; [discriminate | intros (_ & H); discriminate]|].
    split; [intros _; eexists; split; [reflexivity|apply plain_code_shape]|].
    intros _ d0 msg H. discriminate.
  - split; [now left|]. split; [split; [intros _; now exists d|reflexivity]|].
    split; [intros message; split; [discriminate|intros (H & _); now destruct (H d)]|].
    split; [intros _; eexists; split; [reflexivity|apply plain_code_shape]|].
    intros H. now destruct (H d).
Qed.

(** *** The upsert *)

(** The run of the part that finds or creates the company. *)
Lemma find_or_create_company_run backend c name log :
  let sel := SelectCompanyId c in
  let ins := InsertCompany c (name ||| VStr c) in
  let n := length log in
  (c = "" /\ find_or_create_company backend c name log = (Normal VNull, log))
  \/ (c <> "" /\ exists company_id d e,
        backend n sel = Resolves d e /\ found_company d = Normal (Some company_id)
        /\ find_or_create_company backend c name log
           = (Normal company_id, (log ++ [sel])%list))
  \/ (c <> "" /\ exists company_id d e d',
        backend n sel = Resolves d e /\ found_company d = Normal None
        /\ backend (S n) ins = Resolves d' None /\ id_of d' = Normal company_id
        /\ find_or_create_company backend c name log
           = (Normal company_id, (log ++ [sel; ins])%list))
  \/ (c <> "" /\ exists message,
        find_or_create_company backend c name log = (Throw message, (log ++ [sel])%list)
        \/ find_or_create_company backend c name log
           = (Throw message, (log ++ [sel; ins])%list)).
Proof.
  intros sel ins n. unfold find_or_create_company, nonempty.
  destruct (String.eqb_spec c "") as [->|Hc]; cbn [negb]; [now left|].
  right. run. fold sel ins n.
  assert (Hn : length (log ++ [sel]) = S n) by (rewrite length_app; cbn; lia).
  destruct (backend n sel) as [m|d e] eqn:R.
  { right. right. split; [assumption|]. exists m. now left. }
  cbn [fst]. destruct (found_company d) as [[id|]|m] eqn:F.
  - left. split; [assumption|]. now exists id, d, e.
  - rewrite Hn, <- app_assoc. cbn [app].
    destruct (backend (S n) ins) as [m|d' [m|]] eqn:I; cbn [fst snd].
    + right. right. split; [assumption|]. exists m. now right.
    + right. right. split; [assumption|]. exists m. now right.
    + destruct (id_of d') as [id|m] eqn:D.
      * right. left. split; [assumption|]. now exists id, d, e, d'.
      * right. right. split; [assumption|]. exists m. now right.
  - right. right. split; [assumption|]. exists m. now left.
Qed.

(** The run of the part that writes the product. *)
Lemma write_product_run backend c company_id p log :
  exists a,
    catch500 (write_product backend c company_id p) log
    = (a, (log ++ [final_call c company_id p])%list)
    /\ (code a = 200 \/ code a = 500)
    /\ (code a = 200 ->
        exists d, backend (length log) (final_call c company_id p) = Resolves d None
          /\ if truthy (Mapper.get p "id") then payload a = POk
             else exists id, id_of d = Normal id /\ payload a = POkId id).
Proof.
  unfold write_product, final_call. run.
  destruct (truthy (Mapper.get p "id")).
  - destruct (backend _ _) as [m|d [m|]]; cbn [fst snd]; eexists;
      (split; [reflexivity|]); cbn [code payload];
      (split; [tauto|]); first [discriminate | intros _; now exists d].
  - destruct (backend _ _) as [m|d [m|]]; cbn [fst snd];
      [eexists; (split; [reflexivity|]); cbn [code]; split; [tauto|discriminate] ..|].
    destruct (id_of d) as [id|m] eqn:D; eexists; (split; [reflexivity|]); cbn [code payload];
      (split; [tauto|]); [|discriminate].
    intros _. exists d. split; [reflexivity|]. now exists id.
Qed.

(** The upsert of a product under a code that can be trimmed. *)
Lemma post_product_run backend company_code company_name p c log :
  codeUp company_code = Normal c ->
  post_product backend company_code company_name (Some p) log
  = match find_or_create_company backend c company_name log with
    | (Normal company_id, log1) => catch500 (write_product backend c company_id p) log1
    | (Throw message, log1) => (fail 500 message, log1)
    end.
Proof.
  intros Hc. unfold post_product.
  unfold catch500 at 1, bind at 1, lift at 1. rewrite Hc.
  unfold ret at 1. unfold bind at 1.
  destruct (find_or_create_company backend c company_name log) as [[id|m] log1]; reflexivity.
Qed.

(** The calls of an upsert, case by case. *)
Lemma post_product_cases backend company_code company_name p c log :
  codeUp company_code = Normal c ->
  let n := length log in
  let sel := SelectCompanyId c in
  let ins := InsertCompany c (company_name ||| VStr c) in
  let '(answer, log') := post_product backend company_code company_name (Some p) log in
  exists company_id,
    let final := final_call c company_id p in
    (c = "" /\ company_id = VNull /\ log' = (log ++ [final])%list
     /\ (answer, log') = catch500 (write_product backend c company_id p) log)
    \/ (c <> "" /\ log' = (log ++ [sel; final])%list
        /\ (answer, log') = catch500 (write_product backend c company_id p) (log ++ [sel])%list
        /\ exists d e, backend n sel = Resolves d e
             /\ found_company d = Normal (Some company_id))
    \/ (c <> "" /\ log' = (log ++ [sel; ins; final])%list
        /\ (answer, log')
           = catch500 (write_product backend c company_id p) (log ++ [sel; ins])%list
        /\ exists d e d', backend n sel = Resolves d e
             /\ found_company d = Normal None
             /\ backend (S n) ins = Resolves d' None /\ id_of d' = Normal company_id)
    \/ (c <> "" /\ code answer = 500
        /\ (log' = (log ++ [sel])%list \/ log' = (log ++ [sel; ins])%list)).
Proof.
  intros Hc n sel ins. subst n sel ins. rewrite (post_product_run _ _ _ _ _ _ Hc).
  destruct (find_or_create_company_run backend c company_name log)
    as [(-> & ->) | [(Hn & id & d & e & R & F & ->) | [(Hn & id & d & e & d' & R & F & I & D & ->)
       | (Hn & m & [-> | ->])]]].
  - destruct (write_product_run backend "" VNull p log) as (a & Ha & _).
    rewrite Ha. exists VNull. left. split; [reflexivity|]. split; [reflexivity|].
    split; [reflexivity|]. now rewrite Ha.
  - destruct (write_product_run backend c id p (log ++ [SelectCompanyId c])%list) as (a & Ha & _).
    rewrite Ha. exists id. right. left.
    split; [assumption|]. split; [now rewrite <- app_assoc|].
    split; [now rewrite Ha|]. now exists d, e.
  - destruct (write_product_run backend c id p
                (log ++ [SelectCompanyId c; InsertCompany c (company_name ||| VStr c)])%list)
      as (a & Ha & _).
    rewrite Ha. exists id. right. right. left.
    split; [assumption|]. split; [now rewrite <- app_assoc|].
    split; [now rewrite Ha|]. now exists d, e, d'.
  - exists VNull. right. right. right. split; [assumption|]. split; [reflexivity|]. now left.
  - exists VNull. right. right. right. split; [assumption|]. split; [reflexivity|]. now right.
Qed.

(** X18: POST /product: what the upsert sends.  Without a product nothing is
    sent and the answer is 400; a code that is no text and not falsy cannot be
    trimmed, and the answer is 500 with nothing sent.  A code that is blank
    once trimmed makes no call about companies.  Otherwise the company is
    looked up; it is created, under the name given or else under its code,
    only when the lookup has found none; an update looks the company up, and
    creates it, like an insert does.  The last call is the update of the
    product without its id, when the product has one, and else the insert; no
    request makes more than three calls. *)
Theorem post_product_calls backend company_code company_name product log :
  let n := length log in
  let '(answer, log') := post_product backend company_code company_name product log in
  match product with
  | None => answer = fail 400 "missing product" /\ log' = log
  | Some p =>
      match codeUp company_code with
      | Throw _ => code answer = 500 /\ log' = log
      | Normal c =>
          let sel := SelectCompanyId c in
          let ins := InsertCompany c (company_name ||| VStr c) in
          exists company_id,
            let final :=
              if truthy (Mapper.get p "id")
              then UpdateRegistration (Mapper.get p "id") (delete "id" p)
              else InsertRegistration (insert_row c company_id p) in
            (c = "" /\ company_id = VNull /\ log' = (log ++ [final])%list)
            \/ (c <> "" /\ log' = (log ++ [sel; final])%list
                /\ exists d e, backend n sel = Resolves d e
                     /\ found_company d = Normal (Some company_id))
            \/ (c <> "" /\ log' = (log ++ [sel; ins; final])%list
                /\ exists d e d', backend n sel = Resolves d e
                     /\ found_company d = Normal None
                     /\ backend (S n) ins = Resolves d' None /\ id_of d' = Normal company_id)
            \/ (c <> "" /\ code answer = 500
                /\ (log' = (log ++ [sel])%list \/ log' = (log ++ [sel; ins])%list))
      end
  end.
Proof.
  intros n. destruct product as [p|]; [|now split].
  destruct (codeUp company_code) as [c|m] eqn:Hc.
  2:{ unfold post_product, catch500 at 1, bind at 1, lift at 1. rewrite Hc. now split. }
  pose proof (post_product_cases backend company_code company_name p c log Hc) as H.
  cbv zeta in H.
  destruct (post_product backend company_code company_name (Some p) log) as [answer log'].
  destruct H as (id & H). exists id. fold (final_call c id p). fold n.
  destruct H as [(? & ? & ? & _) | [(? & ? & _ & ?) | [(? & ? & _ & ?) | ?]]];
    [left | right; left | right; right; left | right; right; right]; auto.
Qed.

(** X19: POST /product: the answer.  It is 400 exactly when the body holds no
    product.  An answer 200 says that the last call made was the write of
    the product and that the backend resolved it without an error: the
    update, answered by [{ ok }], or the insert, answered with the id of the
    reply. *)
Theorem post_product_answers backend company_code company_name product log :
  let '(answer, log') := post_product backend company_code company_name product log in
  (code answer = 200 \/ code answer = 400 \/ code answer = 500)
  /\ (code answer = 400 <-> product = None)
  /\ (code answer = 200 ->
      exists p c company_id before d,
        product = Some p /\ codeUp company_code = Normal c
        /\ log' = (before ++ [final_call c company_id p])%list
        /\ backend (length before) (final_call c company_id p) = Resolves d None
        /\ if truthy (Mapper.get p "id") then payload answer = POk
           else exists id, id_of d = Normal id /\ payload answer = POkId id).
Proof.
  destruct product as [p|].
  2:{ cbn. split; [tauto|]. split; [tauto|]. discriminate. }
  destruct (codeUp company_code) as [c|m] eqn:Hc.
  2:{ unfold post_product, catch500 at 1, bind at 1, lift at 1. rewrite Hc. cbn.
      split; [tauto|]. split; [split; discriminate|discriminate]. }
  pose proof (post_product_cases backend company_code company_name p c log Hc) as H.
  cbv zeta in H.
  destruct (post_product backend company_code company_name (Some p) log) as [answer log'].
  assert (Hw : forall company_id before,
            (answer, log') = catch500 (write_product backend c company_id p) before ->
            (code answer = 200 \/ code answer = 400 \/ code answer = 500)
            /\ (code answer = 400 <-> Some p = None)
            /\ (code answer = 200 ->
                exists p0 c0 company_id0 before0 d,
                  Some p = Some p0 /\ Normal c = Normal c0
                  /\ log' = (before0 ++ [final_call c0 company_id0 p0])%list
                  /\ backend (length before0) (final_call c0 company_id0 p0) = Resolves d None
                  /\ if truthy (Mapper.get p0 "id") then payload answer = POk
                     else exists id, id_of d = Normal id /\ payload answer = POkId id)).
  { intros id before E.
    destruct (write_product_run backend c id p before) as (a & Ha & Hcode & H200).
    rewrite Ha in E. injection E as -> ->.
    split; [tauto|]. split; [split; [lia|discriminate]|].
    intros H2. destruct (H200 H2) as (d & Hd & Hp).
    now exists p, c, id, before, d. }
  destruct H as (id & [(_ & _ & _ & E) | [(_ & _ & E & _) | [(_ & _ & E & _) | (_ & H5 & _)]]]).
  1-3: exact (Hw _ _ E).
  split; [tauto|]. split; [split; [lia|discriminate]|]. lia.
Qed.

(** X20: POST /product: the row of an insert holds every field of the product as
    it was given, so that a [company_code] or a [company_id] in the product
    takes the place of the trimmed code of the body and of the company found
    or created; these two are the only fields added, and an insert is made
    only for a product without an id. *)
Theorem post_product_inserted_row backend company_code company_name p log row :
  In (InsertRegistration row)
     (snd (post_product backend company_code company_name (Some p) log)) ->
  ~ In (InsertRegistration row) log ->
  truthy (Mapper.get p "id") = false
  /\ exists c, codeUp company_code = Normal c
     /\ (forall k v, p !! k = Some v -> row !! k = Some v)
     /\ (p !! "company_code" = None -> row !! "company_code" = Some (VStr c))
     /\ (p !! "company_id" = None ->
         exists company_id, row !! "company_id" = Some company_id
                            /\ (c = "" -> company_id = VNull))
     /\ (forall k, p !! k = None -> k <> "company_code" -> k <> "company_id" ->
         row !! k = None).
Proof.
  intros Hin Hlog.
  destruct (codeUp company_code) as [c|m] eqn:Hc.
  2:{ unfold post_product, catch500 at 1, bind at 1, lift at 1 in Hin. rewrite Hc in Hin.
      now destruct Hlog. }
  pose proof (post_product_cases backend company_code company_name p c log Hc) as H.
  cbv zeta in H.
  destruct (post_product backend company_code company_name (Some p) log) as [answer log'].
  cbn [snd] in Hin.
  assert (Hrow : exists company_id,
             InsertRegistration row = final_call c company_id p
             /\ (c = "" -> company_id = VNull)).
  { destruct H as (id & [(Hb & Hid & -> & _) | [(Hn & -> & _) | [(Hn & -> & _)
                   | (Hn & _ & [-> | ->])]]]);
      apply in_app_or in Hin; destruct Hin as [Hin|Hin]; try (now destruct Hlog);
      cbn [In] in Hin; exists id;
      repeat (destruct Hin as [Hin|Hin]; try discriminate; try (now destruct Hin));
      split; auto; try (intros; now destruct Hn). }
  destruct Hrow as (id & Hrow & Hid). unfold final_call in Hrow.
  destruct (truthy (Mapper.get p "id")); [discriminate|].
  injection Hrow as ->. split; [reflexivity|]. exists c. split; [reflexivity|].
  unfold insert_row. split; [|split; [|split]].
  - intros k v Hk. now apply lookup_union_Some_l.
  - intros Hk. rewrite lookup_union_r by assumption. now rewrite lookup_insert.
  - intros Hk. exists id. split; [|assumption].
    rewrite lookup_union_r by assumption.
    rewrite lookup_insert_ne by discriminate. now rewrite lookup_insert.
  - intros k Hk H1 H2. rewrite lookup_union_r by assumption.
    rewrite lookup_insert_ne by congruence. rewrite lookup_insert_ne by congruence.
    apply lookup_empty.
Qed.

Lemma post_product_inserted_row_witness :
  let p : gmap string value :=
    {[ "brand_name" := VStr "Alpha 50"; "company_code" := VStr "OTHER" ]} in
  let row := insert_row "ACME" (VNum 7) p in
  row !! "company_code" = Some (VStr "OTHER")
  /\ row !! "company_id" = Some (VNum 7).
Proof.
  intros p row.
  destruct (post_product_inserted_row sample_backend (VStr " ACME ") VUndefined p [] row)
    as (_ & c & Hc & Hp & _ & Hid & _).
  - right. left. reflexivity.
  - intros [].
  - split; [now apply Hp|]. reflexivity.
Defined.

End CrudFacts.

(** ** The allowlist and the mandatory columns *)

Module ConfigFacts.
Import Auth Mapper TrimFacts AuthFacts MapperFacts.

Lemma has_char_append c a b :
  JS.has_char c (a ++ b) = JS.has_char c a || JS.has_char c b.
Proof.
  induction a as [|x a IH]; [reflexivity|].
  change (Ascii.eqb x c || JS.has_char c (a ++ b)
          = Ascii.eqb x c || JS.has_char c a || JS.has_char c b).
  now rewrite IH, orb_assoc.
Qed.

Lemma has_char_In c s : JS.has_char c s = true <-> In c (list_ascii_of_string s).
Proof.
  induction s as [|x s IH]; cbn [JS.has_char list_ascii_of_string In].
  - split; [discriminate|intros []].
  - rewrite orb_true_iff, IH, Ascii.eqb_eq. tauto.
Qed.

Lemma has_char_rev c s : JS.has_char c (JS.rev_string s) = JS.has_char c s.
Proof.
  apply eq_true_iff_eq. rewrite !has_char_In. unfold JS.rev_string.
  rewrite list_ascii_of_string_of_list_ascii. symmetry. apply in_rev.
Qed.

(** What [trim] returns holds no character that its argument does not. *)
Lemma has_char_trim c s : JS.has_char c s = false -> JS.has_char c (JS.trim s) = false.
Proof.
  intros H. unfold JS.trim, JS.trimEnd, JS.trimStart.
  destruct (trimStart_with_suffix JS.white_space s) as (p & Hp).
  rewrite Hp, has_char_append in H. apply orb_false_elim in H as [_ H].
  set (t := JS.trimStart_with JS.white_space s) in *.
  destruct (trimStart_with_suffix (map JS.rev_string JS.white_space) (JS.rev_string t))
    as (q & Hq).
  rewrite has_char_rev. rewrite <- has_char_rev, Hq, has_char_append in H.
  now apply orb_false_elim in H as [_ H].
Qed.

(** No piece of a split holds the separator. *)
Lemma split_pieces sep s : forall w, In w (JS.split sep s) -> JS.has_char sep w = false.
Proof.
  induction s as [|c r IH]; cbn [JS.split]; intros w Hw.
  - destruct Hw as [<-|[]]. reflexivity.
  - destruct (Ascii.eqb c sep) eqn:E.
    + destruct Hw as [<-|Hw]; [reflexivity|now apply IH].
    + destruct (JS.split sep r) as [|w0 ws].
      * destruct Hw as [<-|[]]. cbn [JS.has_char]. now rewrite E.
      * destruct Hw as [<-|Hw].
        -- cbn [JS.has_char]. rewrite E. apply IH. now left.
        -- apply IH. now right.
Qed.

(** The entries of the allowlist: the pieces between the commas of
    ADMIN_EMAILS, trimmed, the empty ones left out. *)
Lemma ADMIN_EMAILS_In env e :
  In e (ADMIN_EMAILS env) <->
  e <> "" /\ exists raw, In raw (JS.split "," (default "" (env_ADMIN_EMAILS env)))
                         /\ JS.trim raw = e.
Proof.
  unfold ADMIN_EMAILS. rewrite filter_In, in_map_iff. unfold nonempty.
  rewrite negb_true_iff, String.eqb_neq.
  split; intros [H1 H2]; split; try assumption.
  - destruct H1 as (raw & Ht & Hin). now exists raw.
  - destruct H2 as (raw & Hin & Ht). now exists raw.
Qed.

(** X21: the allowlist: an account passes exactly when its email is, character
    for character, a piece of ADMIN_EMAILS between commas, trimmed and not
    empty.  So an unset or empty ADMIN_EMAILS lets no account pass, and no
    account passes without an email, or with an email that is empty, holds a
    comma, or starts or ends with white space. *)
Theorem allowlist_admits env u :
  (email_allowed env u = true <->
   exists e list raw,
     email u = Some e /\ e <> "" /\ env_ADMIN_EMAILS env = Some list /\ list <> ""
     /\ In raw (JS.split "," list) /\ JS.trim raw = e)
  /\ (email_allowed env u = true ->
      exists e, email u = Some e /\ e <> "" /\ JS.trim e = e /\ JS.has_char "," e = false).
Proof.
  assert (Hiff : email_allowed env u = true <->
                 exists e list raw,
                   email u = Some e /\ e <> "" /\ env_ADMIN_EMAILS env = Some list /\ list <> ""
                   /\ In raw (JS.split "," list) /\ JS.trim raw = e).
  { rewrite email_allowed_spec. unfold allowlisted. split.
    - intros (e & He & Hin). apply ADMIN_EMAILS_In in Hin as (Hne & raw & Hraw & Ht).
      destruct (env_ADMIN_EMAILS env) as [list|] eqn:E; cbn [default] in Hraw.
      + exists e, list, raw. repeat (split; [assumption|]). split; [reflexivity|].
        split; [|now split].
        intros ->. destruct Hraw as [<-|[]]. now destruct Hne.
      + destruct Hraw as [<-|[]]. now destruct Hne.
    - intros (e & list & raw & He & Hne & E & _ & Hraw & Ht). exists e. split; [assumption|].
      apply ADMIN_EMAILS_In. split; [assumption|]. exists raw. rewrite E. now split. }
  split; [exact Hiff|].
  intros H. apply Hiff in H as (e & list & raw & He & Hne & _ & _ & Hraw & Ht).
  exists e. split; [assumption|]. split; [assumption|]. subst e. split.
  - apply trim_idempotent.
  - apply has_char_trim. now apply split_pieces in Hraw.
Qed.

(** X22: a column under its canonical name that holds white space only is read,
    not the localized column: the name is empty once trimmed, and the import
    drops the row, whatever the localized column holds. *)
Theorem mapper_blank_shadows host cc r s x :
  r !! "brand_name" = Some (VStr s) \/ r !! "common_label" = Some (VStr s) ->
  s <> "" -> JS.trim s = "" ->
  mapRow host cc r = Normal x ->
  keep x = false /\ mapped_records host cc [r] = Normal [].
Proof.
  intros Hr Hs Ht Hx.
  assert (Hk : keep x = false).
  { apply mapRow_inv in Hx as (_ & Hb & Hc & _).
    assert (Htr : truthy (VStr s) = true).
    { cbn [truthy]. unfold nonempty. now rewrite negb_true_iff, String.eqb_neq. }
    assert (Hor : forall b c, VStr s ||| b ||| c = VStr s).
    { intros b c. assert (H1 : forall v, VStr s ||| v = VStr s)
        by (intros v; unfold or_else; now rewrite Htr).
      now rewrite !H1. }
    unfold keep, nonempty. destruct Hr as [Hr|Hr].
    - assert (Hg : get r "brand_name" = VStr s) by (unfold get; now rewrite Hr).
      rewrite Hg, Hor in Hb. cbn [toString] in Hb. rewrite Hb, Ht. reflexivity.
    - assert (Hg : get r "common_label" = VStr s) by (unfold get; now rewrite Hr).
      rewrite Hg, Hor in Hc. cbn [toString] in Hc. rewrite Hc, Ht. apply andb_false_r. }
  split; [assumption|].
  unfold mapped_records. cbn [map_rows]. rewrite Hx. cbn [List.filter]. now rewrite Hk.
Qed.

Lemma mapper_blank_shadows_witness :
  let r : gmap string value :=
    {[ "brand_name" := VStr "  "; "ชื่อการค้า" := VStr "Alpha 50";
       "common_label" := VStr "abamectin" ]} in
  mapped_records (Samples.host []) (Some "ACME") [r] = Normal [].
Proof.
  intros r.
  pose (x := {| company_code := Some "ACME"; brand_name := ""; common_label := "abamectin";
                registration_no := VNull; importer := VNull; manufacturer_source := VNull;
                distributor := VNull; packed_volume := VNull; registration_date := None;
                expiry_date := None; license_no := VNull |}).
  destruct (mapper_blank_shadows (Samples.host []) (Some "ACME") r "  " x) as [_ H].
  - left. reflexivity.
  - discriminate.
  - reflexivity.
  - reflexivity.
  - exact H.
Defined.

End ConfigFacts.

(** ** The mapper, field by field *)

Module MapperMore.
Import Dates Mapper Handlers MapperFacts DateMore RecordFacts.









End MapperMore.

(** ** Serials that are not integers *)

Module DoubleFacts.
Import Calendar CalendarFacts Dates DateFacts DateMore Double.

Lemma pow2_pos s : 0 <= s -> 0 < 2 ^ s.
Proof. intros. apply Z.pow_pos_nonneg; lia. Qed.

(** *** Rounding *)

Lemma rne_bounds s n :
  0 <= s -> 0 <= n ->
  n / 2 ^ s * 2 ^ s <= rne s n <= (n / 2 ^ s + 1) * 2 ^ s.
Proof.
  intros Hs Hn. pose proof (pow2_pos s Hs) as Hp. unfold rne.
  set (p := 2 ^ s) in *. set (q := n / p).
  destruct (2 * (n mod p) <? p); [nia|].
  destruct (p <? 2 * (n mod p)); [nia|].
  destruct (Z.even q); nia.
Qed.

Lemma rne_mono s n m : 0 <= s -> 0 <= n <= m -> rne s n <= rne s m.
Proof.
  intros Hs Hnm. pose proof (pow2_pos s Hs) as Hp. unfold rne.
  set (p := 2 ^ s) in *.
  pose proof (Z.div_le_mono n m p Hp ltac:(lia)) as Hq.
  pose proof (Z.div_mod n p ltac:(lia)) as En. pose proof (Z.div_mod m p ltac:(lia)) as Em.
  pose proof (Z.mod_pos_bound n p Hp) as Rn. pose proof (Z.mod_pos_bound m p Hp) as Rm.
  set (q := n / p) in *. set (r := n mod p) in *.
  set (q' := m / p) in *. set (r' := m mod p) in *.
  apply Z.mul_le_mono_nonneg_r; [lia|].
  destruct (Z.eq_dec q q') as [E|E].
  - rewrite <- E in *. assert (r <= r') by nia.
    destruct (Z.ltb_spec (2 * r) p), (Z.ltb_spec (2 * r') p),
             (Z.ltb_spec p (2 * r)), (Z.ltb_spec p (2 * r')); destruct (Z.even q); lia.
  - destruct (2 * r <? p), (2 * r' <? p), (p <? 2 * r), (p <? 2 * r'),
             (Z.even q), (Z.even q'); lia.
Qed.

Lemma rne_exact s k : 0 <= s -> 0 <= k -> rne s (k * 2 ^ s) = k * 2 ^ s.
Proof.
  intros Hs Hk. pose proof (pow2_pos s Hs) as Hp. unfold rne.
  rewrite Z.div_mul by lia. rewrite Z.mod_mul by lia.
  destruct (Z.ltb_spec (2 * 0) (2 ^ s)); [reflexivity|lia].
Qed.

Lemma round_mag_nonneg n : 0 <= n -> 0 <= round_mag n.
Proof.
  intros Hn. unfold round_mag. destruct (Z.leb_spec (Z.log2 n - 52) 0); [assumption|].
  pose proof (rne_bounds (Z.log2 n - 52) n ltac:(lia) Hn) as [Hl _].
  pose proof (pow2_pos (Z.log2 n - 52) ltac:(lia)).
  pose proof (Z.div_pos n (2 ^ (Z.log2 n - 52)) Hn ltac:(assumption)). nia.
Qed.

Lemma round_mag_lower n : 0 < n -> 2 ^ Z.log2 n <= round_mag n.
Proof.
  intros Hn. pose proof (Z.log2_spec n Hn) as [Hl Hu]. unfold round_mag.
  destruct (Z.leb_spec (Z.log2 n - 52) 0) as [Hs|Hs]; [assumption|].
  set (s := Z.log2 n - 52) in *.
  pose proof (rne_bounds s n ltac:(lia) ltac:(lia)) as [Hb _].
  pose proof (pow2_pos s ltac:(lia)) as Hp.
  assert (E : 2 ^ Z.log2 n = 2 ^ 52 * 2 ^ s).
  { rewrite <- Z.pow_add_r by lia. f_equal. unfold s. lia. }
  rewrite E in *.
  assert (2 ^ 52 <= n / 2 ^ s).
  { apply Z.div_le_lower_bound; lia. }
  nia.
Qed.

Lemma round_mag_upper n : 0 < n -> round_mag n <= 2 ^ (Z.log2 n + 1).
Proof.
  intros Hn. pose proof (Z.log2_spec n Hn) as [Hl Hu]. unfold round_mag.
  replace (Z.succ (Z.log2 n)) with (Z.log2 n + 1) in Hu by lia.
  destruct (Z.leb_spec (Z.log2 n - 52) 0) as [Hs|Hs]; [lia|].
  set (s := Z.log2 n - 52) in *.
  pose proof (rne_bounds s n ltac:(lia) ltac:(lia)) as [_ Hb].
  pose proof (pow2_pos s ltac:(lia)) as Hp.
  assert (E : 2 ^ (Z.log2 n + 1) = 2 ^ 53 * 2 ^ s).
  { rewrite <- Z.pow_add_r by lia. f_equal. unfold s. lia. }
  rewrite E in *.
  assert (n / 2 ^ s < 2 ^ 53).
  { apply Z.div_lt_upper_bound; lia. }
  nia.
Qed.

Lemma round_mag_mono n m : 0 <= n <= m -> round_mag n <= round_mag m.
Proof.
  intros [Hn Hnm]. destruct (Z.eq_dec n 0) as [->|Hn0].
  { change (round_mag 0) with 0. apply round_mag_nonneg. lia. }
  pose proof (Z.log2_le_mono n m Hnm) as Hl.
  destruct (Z.eq_dec (Z.log2 n) (Z.log2 m)) as [E|E].
  - unfold round_mag. rewrite E.
    destruct (Z.leb_spec (Z.log2 m - 52) 0); [assumption|].
    apply rne_mono; lia.
  - pose proof (round_mag_upper n ltac:(lia)).
    pose proof (round_mag_lower m ltac:(lia)).
    assert (2 ^ (Z.log2 n + 1) <= 2 ^ Z.log2 m) by (apply Z.pow_le_mono_r; lia).
    lia.
Qed.

Lemma round_mag_exact k j : 0 <= k < 2 ^ 53 -> 0 <= j -> round_mag (k * 2 ^ j) = k * 2 ^ j.
Proof.
  intros [Hk Hk53] Hj. destruct (Z.eq_dec k 0) as [->|Hk0]; [reflexivity|].
  pose proof (pow2_pos j Hj) as Hp. unfold round_mag.
  assert (Hlog : Z.log2 (k * 2 ^ j) = Z.log2 k + j) by (rewrite Z.log2_mul_pow2 by lia; lia).
  rewrite Hlog.
  assert (Z.log2 k < 53) by (apply Z.log2_lt_pow2; lia).
  destruct (Z.leb_spec (Z.log2 k + j - 52) 0) as [Hs|Hs]; [reflexivity|].
  set (s := Z.log2 k + j - 52) in *.
  replace (k * 2 ^ j) with (k * 2 ^ (j - s) * 2 ^ s).
  - apply rne_exact; [lia|]. pose proof (pow2_pos (j - s) ltac:(lia)). nia.
  - rewrite <- Z.mul_assoc, <- Z.pow_add_r by lia. do 2 f_equal. lia.
Qed.

Lemma round_int_opp X : round_int (- X) = - round_int X.
Proof. unfold round_int. rewrite Z.sgn_opp, Z.abs_opp. lia. Qed.

Lemma round_int_mono X Y : X <= Y -> round_int X <= round_int Y.
Proof.
  intros H. unfold round_int.
  pose proof (round_mag_nonneg (Z.abs X) (Z.abs_nonneg X)).
  pose proof (round_mag_nonneg (Z.abs Y) (Z.abs_nonneg Y)).
  destruct (Z.sgn_spec X) as [[? ->] | [[? ->] | [? ->]]],
           (Z.sgn_spec Y) as [[? ->] | [[? ->] | [? ->]]]; try lia.
  - pose proof (round_mag_mono (Z.abs X) (Z.abs Y) ltac:(lia)). lia.
  - pose proof (round_mag_mono (Z.abs Y) (Z.abs X) ltac:(lia)). lia.
Qed.

Lemma round_int_exact k j : Z.abs k < 2 ^ 53 -> 0 <= j -> round_int (k * 2 ^ j) = k * 2 ^ j.
Proof.
  intros Hk Hj. pose proof (pow2_pos j Hj) as Hp. unfold round_int.
  rewrite Z.abs_mul, (Z.abs_eq (2 ^ j)) by lia.
  rewrite round_mag_exact by lia.
  rewrite Z.sgn_mul, (Z.sgn_pos (2 ^ j)) by lia.
  pose proof (Z.abs_sgn k). nia.
Qed.

Lemma round_int_pos X : 0 < X -> 0 < round_int X.
Proof.
  intros H. unfold round_int. rewrite Z.sgn_pos, Z.abs_eq by lia.
  pose proof (round_mag_lower X H). pose proof (pow2_pos (Z.log2 X) (Z.log2_nonneg X)). lia.
Qed.

Lemma round_int_neg X : X < 0 -> round_int X < 0.
Proof.
  intros H. pose proof (round_int_pos (- X) ltac:(lia)) as Hp.
  rewrite round_int_opp in Hp. lia.
Qed.

Lemma scale_pos : 0 < scale.
Proof. reflexivity. Qed.

Lemma largest_bound k j : Z.abs k < 2 ^ 53 -> 0 <= j <= 2045 -> Z.abs (k * 2 ^ j) <= largest.
Proof.
  intros Hk Hj. rewrite Z.abs_mul. pose proof (pow2_pos j ltac:(lia)) as Hp.
  rewrite (Z.abs_eq (2 ^ j)) by lia. unfold largest.
  assert (2 ^ j <= 2 ^ 2045) by (apply Z.pow_le_mono_r; lia).
  apply Z.mul_le_mono_nonneg; lia.
Qed.

(** A number of 53 binary digits at most, times a power of two within the
    range of the exponents, is a double. *)
Lemma fl_exact k j : Z.abs k < 2 ^ 53 -> 0 <= j <= 2045 -> fl (k * 2 ^ j) = Fin (k * 2 ^ j).
Proof.
  intros Hk Hj. unfold fl. rewrite round_int_exact by lia.
  pose proof (largest_bound k j Hk Hj) as Hl.
  destruct (Z.leb_spec (Z.abs (k * 2 ^ j)) largest); [reflexivity|lia].
Qed.

(** *** The order *)

Lemma fl_mono X Y : X <= Y -> dle (fl X) (fl Y).
Proof.
  intros H. pose proof (round_int_mono X Y H) as Hm. unfold fl.
  assert (0 < largest) by reflexivity.
  destruct (Z.leb_spec (Z.abs (round_int X)) largest) as [HX|HX],
           (Z.leb_spec (Z.abs (round_int Y)) largest) as [HY|HY].
  - exact Hm.
  - destruct (Z.ltb_spec Y 0) as [Hy|Hy]; [|exact I].
    pose proof (round_int_neg Y Hy). lia.
  - destruct (Z.ltb_spec X 0) as [Hx|Hx]; [exact I|].
    assert (0 <= round_int X).
    { destruct (Z.eq_dec X 0) as [->|]; [reflexivity|].
      pose proof (round_int_pos X ltac:(lia)). lia. }
    lia.
  - destruct (Z.ltb_spec X 0) as [Hx|Hx]; [destruct (Y <? 0); exact I|].
    destruct (Z.ltb_spec Y 0) as [Hy|Hy]; [lia|exact I].
Qed.

Lemma fl_not_NaN X : fl X <> NaN.
Proof. unfold fl. destruct (Z.abs (round_int X) <=? largest); discriminate. Qed.

Lemma minus_mono a b c : dle a b -> dle (minus a c) (minus b c).
Proof.
  destruct a as [|[|]|X], b as [|[|]|Y]; cbn [dle minus]; try tauto.
  - intros _. pose proof (fl_not_NaN (Y - c * scale)). now destruct (fl _).
  - intros _. pose proof (fl_not_NaN (X - c * scale)). now destruct (fl _) as [|[|]|].
  - intros H. apply fl_mono. lia.
Qed.

Lemma times_mono a b k : 0 < k -> dle a b -> dle (times a k) (times b k).
Proof.
  intros Hk.
  destruct a as [|[|]|X], b as [|[|]|Y]; cbn [dle times]; try tauto.
  - intros _. pose proof (fl_not_NaN (Y * k)). now destruct (fl _).
  - intros _. pose proof (fl_not_NaN (X * k)). now destruct (fl _) as [|[|]|].
  - intros H. apply fl_mono. nia.
Qed.

Lemma Math_round_mono a b : dle a b -> dle (Math_round a) (Math_round b).
Proof.
  pose proof scale_pos as Hs.
  destruct a as [|[|]|X], b as [|[|]|Y]; cbn [dle Math_round]; try tauto.
  intros H. apply Z.mul_le_mono_nonneg_r; [lia|]. apply Z.div_le_mono; lia.
Qed.

Lemma serial_time_mono a b : dle a b -> dle (serial_time a) (serial_time b).
Proof.
  intros H. unfold serial_time.
  apply Math_round_mono, times_mono, times_mono, minus_mono; [lia|lia|exact H].
Qed.

(** What [Math.round] returns is an integer. *)
Lemma serial_time_integer v :
  match serial_time v with
  | Fin Y => exists t, Y = t * scale
  | _ => True
  end.
Proof.
  unfold serial_time. destruct (times (times (minus v 25569) 86400) 1000); cbn [Math_round];
    try exact I. now eexists.
Qed.

(** *** Serials of few binary digits *)

(** The time of a serial [k * 2^(j-1074)] whose steps are all exact: the
    integer nearest to [(k * 2^(j-1074) - 25569) * 86400000]. *)
Lemma serial_time_exact j w k :
  0 <= j <= 1074 -> scale = w * 2 ^ j -> 0 < w ->
  Z.abs (k - 25569 * w) * 86400 < 2 ^ 53 ->
  serial_time (Fin (k * 2 ^ j))
  = Fin ((2 * ((k - 25569 * w) * 86400000) + w) / (2 * w) * scale).
Proof.
  intros Hj Hw Hw0 Hk. pose proof (pow2_pos j ltac:(lia)) as Hp.
  set (k1 := k - 25569 * w) in *.
  unfold serial_time, minus.
  replace (k * 2 ^ j - 25569 * scale) with (k1 * 2 ^ j) by (rewrite Hw; unfold k1; ring).
  rewrite fl_exact by lia. cbn [times].
  replace (k1 * 2 ^ j * 86400) with (k1 * 86400 * 2 ^ j) by ring.
  rewrite fl_exact by lia. cbn [times].
  replace (k1 * 86400 * 2 ^ j * 1000) with (k1 * 84375 * 2 ^ (j + 10))
    by (rewrite Z.pow_add_r by lia; change (2 ^ 10) with 1024; ring).
  rewrite fl_exact by lia. cbn [Math_round]. f_equal. f_equal.
  replace (2 * (k1 * 84375 * 2 ^ (j + 10)) + scale)
    with ((2 * (k1 * 86400000) + w) * 2 ^ j)
    by (rewrite Hw, Z.pow_add_r by lia; change (2 ^ 10) with 1024; ring).
  replace (2 * scale) with (2 * w * 2 ^ j) by (rewrite Hw; ring).
  apply Z.div_mul_cancel_r; lia.
Qed.

Lemma scale_unit : scale = 1 * 2 ^ 1074.
Proof. reflexivity. Qed.

Lemma dle_between a b v :
  dle (Fin a) v -> dle v (Fin b) -> exists Y, v = Fin Y /\ a <= Y <= b.
Proof.
  destruct v as [|[|]|Y]; cbn [dle]; try tauto. intros H1 H2. now exists Y.
Qed.

Lemma time_of_integer t :
  time_of (Fin (t * scale)) = if Z.abs t <=? maxTime then Some t else None.
Proof.
  pose proof scale_pos as Hs. unfold time_of.
  rewrite Z.abs_mul, (Z.abs_eq scale) by lia. rewrite Z.quot_mul by lia.
  destruct (Z.leb_spec (Z.abs t * scale) (maxTime * scale)),
           (Z.leb_spec (Z.abs t) maxTime); try reflexivity; nia.
Qed.

(** The date of a time within day [N], for the years of four digits. *)
Lemma iso_day_of_day t N :
  N * 86400000 <= t < (N + 1) * 86400000 -> -719528 <= N <= 2932896 ->
  iso_day t = Normal (Some (format_ymd (civil_from_days N))).
Proof.
  intros Ht HN. unfold iso_day, toISOString_slice10, time_valid, maxTime.
  destruct (Z.leb_spec (Z.abs t) 8640000000000000); [|lia].
  unfold iso_date_part, Day, msPerDay.
  replace (t / 86400000) with N by (Z.div_mod_to_equations; lia).
  cbv zeta. now rewrite iso_slice_format by lia.
Qed.

(** The time of a serial between the integer [n] and the integer [n + 1]. *)
Lemma serial_time_between X n :
  -3000000 <= n <= 3000000 -> n * scale <= X <= (n + 1) * scale ->
  exists t, serial_time (Fin X) = Fin (t * scale)
    /\ (n - 25569) * 86400000 <= t <= (n + 1 - 25569) * 86400000.
Proof.
  intros Hn [Hl Hu]. pose proof scale_pos as Hs.
  pose proof (serial_time_exact 1074 1 n ltac:(lia) scale_unit ltac:(lia) ltac:(lia)) as El.
  pose proof (serial_time_exact 1074 1 (n + 1) ltac:(lia) scale_unit ltac:(lia) ltac:(lia)) as Eu.
  assert (Hdl : dle (serial_time (Fin (n * 2 ^ 1074))) (serial_time (Fin X))).
  { apply serial_time_mono. cbn [dle]. exact Hl. }
  assert (Hdu : dle (serial_time (Fin X)) (serial_time (Fin ((n + 1) * 2 ^ 1074)))).
  { apply serial_time_mono. cbn [dle]. exact Hu. }
  rewrite El in Hdl. rewrite Eu in Hdu.
  destruct (dle_between _ _ _ Hdl Hdu) as (Y & EY & HY).
  pose proof (serial_time_integer (Fin X)) as Hint. rewrite EY in Hint.
  destruct Hint as (t & ->). exists t. split; [exact EY|].
  replace ((2 * ((n - 25569 * 1) * 86400000) + 1) / (2 * 1)) with ((n - 25569) * 86400000) in HY
    by (Z.div_mod_to_equations; lia).
  replace ((2 * ((n + 1 - 25569 * 1) * 86400000) + 1) / (2 * 1))
    with ((n + 1 - 25569) * 86400000) in HY by (Z.div_mod_to_equations; lia).
  nia.
Qed.

Lemma civil_of_serial n : civil_from_days (n - 25569) = add_days serial_epoch n.
Proof.
  replace (n - 25569) with (-25569 + n) by lia.
  now rewrite civil_from_days_add, serial_epoch_day.
Qed.

Lemma falsy_nonzero X : X <> 0 -> falsy (Fin X) = false.
Proof. intros H. cbn [falsy]. now apply Z.eqb_neq. Qed.

(** A serial of the years of four digits: its date is the date of the
    integer below it, or of the integer above it. *)
Lemma normalizeNumber_between X n :
  X <> 0 -> -693959 <= n <= 2958465 -> n * scale <= X < (n + 1) * scale ->
  exists t, serial_time (Fin X) = Fin (t * scale)
    /\ (n - 25569) * 86400000 <= t <= (n + 1 - 25569) * 86400000
    /\ normalizeNumber (Fin X) = iso_day t.
Proof.
  intros HX Hn HXn.
  destruct (serial_time_between X n ltac:(lia) ltac:(lia)) as (t & Et & Ht).
  exists t. split; [exact Et|]. split; [exact Ht|].
  unfold normalizeNumber. rewrite falsy_nonzero by assumption.
  rewrite Et, time_of_integer. unfold maxTime.
  destruct (Z.leb_spec (Z.abs t) 8640000000000000); [reflexivity|lia].
Qed.

(** *** Integers *)

Lemma of_Z_exact n : Z.abs n < 2 ^ 53 -> of_Z n = Fin (n * scale).
Proof. intros H. unfold of_Z. change scale with (2 ^ 1074). apply fl_exact; lia. Qed.

Lemma serial_time_of_Z n :
  Z.abs (n - 25569) <= 100000000000 ->
  serial_time (of_Z n) = Fin ((n - 25569) * 86400000 * scale).
Proof.
  intros H. rewrite of_Z_exact by lia. change (n * scale) with (n * 2 ^ 1074).
  rewrite (serial_time_exact 1074 1 n ltac:(lia) scale_unit ltac:(lia) ltac:(lia)).
  do 2 f_equal. Z.div_mod_to_equations. lia.
Qed.

Lemma time_of_above v T : dle (Fin (T * scale)) v -> maxTime < T -> time_of v = None.
Proof.
  pose proof scale_pos as Hs. unfold maxTime.
  destruct v as [|[|]|Y]; cbn [dle time_of]; try tauto. intros H HT.
  destruct (Z.leb_spec (Z.abs Y) (maxTime * scale)); [unfold maxTime in *; nia|reflexivity].
Qed.

Lemma time_of_below v T : dle v (Fin (T * scale)) -> T < - maxTime -> time_of v = None.
Proof.
  pose proof scale_pos as Hs. unfold maxTime.
  destruct v as [|[|]|Y]; cbn [dle time_of]; try tauto. intros H HT.
  destruct (Z.leb_spec (Z.abs Y) (maxTime * scale)); [unfold maxTime in *; nia|reflexivity].
Qed.

Lemma truthy_above a v : dle (Fin a) v -> 0 < a -> falsy v = false.
Proof.
  destruct v as [|[|]|Y]; cbn [dle falsy]; try tauto. intros H Ha. apply Z.eqb_neq. lia.
Qed.

Lemma truthy_below a v : dle v (Fin a) -> a < 0 -> falsy v = false.
Proof.
  destruct v as [|[|]|Y]; cbn [dle falsy]; try tauto. intros H Ha. apply Z.eqb_neq. lia.
Qed.

Lemma of_Z_mono n m : n <= m -> dle (of_Z n) (of_Z m).
Proof. intros H. apply fl_mono. pose proof scale_pos. nia. Qed.

(** On the Number of an integer, the normalizer of the import, which takes
    the integer itself, is the normalizer on doubles: the steps of the
    arithmetic are exact as long as the date is valid, and an integer beyond
    stays beyond once rounded. *)
Lemma normalizeDate_of_Z host n : normalizeDate host (VNum n) = normalizeNumber (of_Z n).
Proof.
  pose proof scale_pos as Hs.
  destruct (Z.eq_dec n 0) as [->|Hn0]; [reflexivity|].
  destruct (Z_lt_le_dec n (-99974431)) as [Hlow|Hlow];
    [|destruct (Z_lt_le_dec 100025569 n) as [Hhigh|Hhigh]].
  - transitivity (@Throw (option string) "Invalid time value").
    + rewrite normalizeDate_cases. cbn [truthy is_valid_date].
      destruct (Z.eqb_spec n 0); [contradiction|]. cbn [negb].
      apply iso_day_throws. split; [|reflexivity]. apply serial_out_of_range. now left.
    + pose proof (of_Z_mono n (-99974432) ltac:(lia)) as Hd.
      pose proof (serial_time_mono _ _ Hd) as Hs'.
      rewrite (serial_time_of_Z (-99974432)) in Hs' by lia.
      rewrite (of_Z_exact (-99974432)) in Hd by lia.
      unfold normalizeNumber.
      rewrite (truthy_below _ _ Hd) by lia.
      now rewrite (time_of_below _ _ Hs') by (unfold maxTime; lia).
  - transitivity (@Throw (option string) "Invalid time value").
    + rewrite normalizeDate_cases. cbn [truthy is_valid_date].
      destruct (Z.eqb_spec n 0); [contradiction|]. cbn [negb].
      apply iso_day_throws. split; [|reflexivity]. apply serial_out_of_range. now right.
    + pose proof (of_Z_mono 100025570 n ltac:(lia)) as Hd.
      pose proof (serial_time_mono _ _ Hd) as Hs'.
      rewrite (serial_time_of_Z 100025570) in Hs' by lia.
      rewrite (of_Z_exact 100025570) in Hd by lia.
      unfold normalizeNumber.
      rewrite (truthy_above _ _ Hd) by lia.
      now rewrite (time_of_above _ _ Hs') by (unfold maxTime; lia).
  - rewrite normalizeDate_cases. cbn [truthy is_valid_date].
    destruct (Z.eqb_spec n 0); [contradiction|]. cbn [negb].
    unfold normalizeNumber. rewrite serial_time_of_Z by lia.
    rewrite of_Z_exact by lia. rewrite falsy_nonzero by nia.
    rewrite time_of_integer. unfold maxTime.
    destruct (Z.leb_spec (Z.abs ((n - 25569) * 86400000)) 8640000000000000); [|lia].
    f_equal. lia.
Qed.

(** *** The error of a rounding *)

Lemma round_mag_error n : 0 <= n -> Z.abs (round_mag n - n) * 2 ^ 52 <= n.
Proof.
  intros Hn. unfold round_mag.
  destruct (Z.leb_spec (Z.log2 n - 52) 0) as [Hs|Hs].
  { replace (n - n) with 0 by lia. cbn [Z.abs]. lia. }
  assert (Hn0 : 0 < n).
  { destruct (Z.eq_dec n 0) as [->|]; [cbn in Hs; lia|lia]. }
  set (s := Z.log2 n - 52) in *.
  pose proof (pow2_pos s ltac:(lia)) as Hp.
  pose proof (rne_bounds s n ltac:(lia) Hn) as [Hl Hu].
  pose proof (Z.div_mod n (2 ^ s) ltac:(lia)) as Ed.
  pose proof (Z.mod_pos_bound n (2 ^ s) Hp) as Hr.
  pose proof (Z.log2_spec n Hn0) as [Hlog _].
  assert (E : 2 ^ Z.log2 n = 2 ^ s * 2 ^ 52).
  { rewrite <- Z.pow_add_r by lia. f_equal. unfold s. lia. }
  assert (Z.abs (rne s n - n) <= 2 ^ s) by nia.
  nia.
Qed.

Lemma round_int_error X : Z.abs (round_int X - X) * 2 ^ 52 <= Z.abs X.
Proof.
  unfold round_int. pose proof (round_mag_error (Z.abs X) (Z.abs_nonneg X)) as H.
  destruct (Z.sgn_spec X) as [[? ->] | [[? ->] | [? ->]]]; lia.
Qed.

Lemma fl_Fin X Y : fl X = Fin Y -> Y = round_int X.
Proof.
  unfold fl. destruct (Z.abs (round_int X) <=? largest); [|discriminate]. now intros [= <-].
Qed.

(** The three steps of the arithmetic on a serial between [n] and [n + 1]:
    none of them overflows. *)
Lemma serial_steps X n :
  -3000000 <= n <= 3000000 -> n * scale <= X <= (n + 1) * scale ->
  exists A B C,
    serial_time (Fin X) = Fin ((2 * C + scale) / (2 * scale) * scale)
    /\ A = round_int (X - 25569 * scale)
    /\ B = round_int (A * 86400)
    /\ C = round_int (B * 1000)
    /\ (n - 25569) * scale <= A <= (n + 1 - 25569) * scale
    /\ (n - 25569) * 86400 * scale <= B <= (n + 1 - 25569) * 86400 * scale.
Proof.
  intros Hn [Hl Hu]. pose proof scale_pos as Hs.
  assert (Ex : forall k, Z.abs k < 2 ^ 53 -> fl (k * scale) = Fin (k * scale)).
  { intros k Hk. change scale with (2 ^ 1074). apply fl_exact; lia. }
  (* the subtraction *)
  assert (H1 : exists A, fl (X - 25569 * scale) = Fin A
                 /\ (n - 25569) * scale <= A <= (n + 1 - 25569) * scale).
  { apply dle_between.
    - rewrite <- Ex by lia. apply fl_mono. lia.
    - rewrite <- (Ex (n + 1 - 25569)) by lia. apply fl_mono. lia. }
  destruct H1 as (A & EA & HA).
  (* the first product *)
  assert (H2 : exists B, fl (A * 86400) = Fin B
                 /\ (n - 25569) * 86400 * scale <= B <= (n + 1 - 25569) * 86400 * scale).
  { apply dle_between.
    - rewrite <- Ex by lia. apply fl_mono. lia.
    - rewrite <- (Ex ((n + 1 - 25569) * 86400)) by lia. apply fl_mono. lia. }
  destruct H2 as (B & EB & HB).
  (* the second product *)
  assert (H3 : exists C, fl (B * 1000) = Fin C
                 /\ (n - 25569) * 86400000 * scale <= C <= (n + 1 - 25569) * 86400000 * scale).
  { apply dle_between.
    - rewrite <- Ex by lia. apply fl_mono. lia.
    - rewrite <- (Ex ((n + 1 - 25569) * 86400000)) by lia. apply fl_mono. lia. }
  destruct H3 as (C & EC & HC).
  exists A, B, C. unfold serial_time. cbn [minus]. rewrite EA. cbn [times]. rewrite EB.
  cbn [times]. rewrite EC. cbn [Math_round].
  split; [reflexivity|]. split; [now apply fl_Fin|]. split; [now apply fl_Fin|].
  split; [now apply fl_Fin|]. split; assumption.
Qed.

(** The time computed for a serial between [n] and [n + 1] is the integer
    nearest to a number that differs from the exact product
    [(v - 25569) * 86400000] by a quarter of a millisecond at most. *)
Lemma serial_time_near X n :
  -3000000 <= n <= 3000000 -> n * scale <= X <= (n + 1) * scale ->
  exists C,
    serial_time (Fin X) = Fin ((2 * C + scale) / (2 * scale) * scale)
    /\ 4 * Z.abs (C - (X - 25569 * scale) * 86400000) <= scale.
Proof.
  intros Hn HX. pose proof scale_pos as Hs.
  destruct (serial_steps X n Hn HX) as (A & B & C & Et & EA & EB & EC & HA & HB).
  exists C. split; [exact Et|].
  pose proof (round_int_error (X - 25569 * scale)) as H1. rewrite <- EA in H1.
  pose proof (round_int_error (A * 86400)) as H2. rewrite <- EB in H2.
  pose proof (round_int_error (B * 1000)) as H3. rewrite <- EC in H3.
  assert (Hns : -3000000 * scale <= n * scale <= 3000000 * scale) by nia.
  clear Et EA EB EC. change (2 ^ 52) with 4503599627370496 in *.
  lia.
Qed.

(** C5, amended: a number that is zero or NaN is normalized to null.  A
    number [v] other than zero whose integer part [n] lies between -693959
    and 2958465, the dates of the years of four digits, is normalized to the
    YYYY-MM-DD text of the date [n] days after 1899-12-30, whatever its
    fraction, as long as [v] is at most [n + 1 - 2^-26], that is up to 1.3
    milliseconds before midnight; from [n + 1 - 2^-29] on, the last 0.16
    milliseconds of the day, [Math.round] carries the time to midnight and
    the date is the one [n + 1] days after 1899-12-30; in between it is one of
    the two.  So an integer [n] other than zero is normalized to the date [n]
    days after 1899-12-30; and on the Number of an integer this is what the
    normalizer of the import returns. *)
Theorem normalizeNumber_serial :
  (forall v, falsy v = true -> normalizeNumber v = Normal None)
  /\ (forall X n,
        X <> 0 -> -693959 <= n <= 2958465 -> n * scale <= X < (n + 1) * scale ->
        (67108864 * X <= (67108864 * (n + 1) - 1) * scale ->
         normalizeNumber (Fin X) = Normal (Some (format_ymd (add_days serial_epoch n))))
        /\ (n < 2958465 -> (536870912 * (n + 1) - 1) * scale <= 536870912 * X ->
            normalizeNumber (Fin X)
            = Normal (Some (format_ymd (add_days serial_epoch (n + 1)))))
        /\ (n < 2958465 ->
            normalizeNumber (Fin X) = Normal (Some (format_ymd (add_days serial_epoch n)))
            \/ normalizeNumber (Fin X)
               = Normal (Some (format_ymd (add_days serial_epoch (n + 1))))))
  /\ (forall n, n <> 0 -> -693959 <= n <= 2958465 ->
        normalizeNumber (of_Z n) = Normal (Some (format_ymd (add_days serial_epoch n))))
  /\ (forall host n, normalizeDate host (VNum n) = normalizeNumber (of_Z n)).
Proof.
  pose proof scale_pos as Hs.
  split; [|split; [|split]].
  - intros v H. unfold normalizeNumber. now rewrite H.
  - intros X n HX Hn HXn.
    destruct (normalizeNumber_between X n HX Hn HXn) as (t & Et & Ht & ->).
    destruct (serial_time_near X n ltac:(lia) ltac:(lia)) as (C & EC & Herr).
    rewrite EC in Et. injection Et as Et.
    assert (Etc : t = (2 * C + scale) / (2 * scale)) by nia.
    assert (Hns : -3000000 * scale <= n * scale <= 3000000 * scale) by nia.
    split; [|split].
    + intros Hb.
      assert (Hlt : t < (n + 1 - 25569) * 86400000).
      { rewrite Etc. apply Z.div_lt_upper_bound; lia. }
      rewrite (iso_day_of_day t (n - 25569)) by lia. now rewrite civil_of_serial.
    + intros Hlast Hb.
      assert (Hge : (n + 1 - 25569) * 86400000 <= t).
      { rewrite Etc. apply Z.div_le_lower_bound; lia. }
      rewrite (iso_day_of_day t (n + 1 - 25569)) by lia. now rewrite civil_of_serial.
    + intros Hlast. destruct (Z_lt_le_dec t ((n + 1 - 25569) * 86400000)) as [Hlt|Hge].
      * left. rewrite (iso_day_of_day t (n - 25569)) by lia. now rewrite civil_of_serial.
      * right. rewrite (iso_day_of_day t (n + 1 - 25569)) by lia. now rewrite civil_of_serial.
  - intros n Hn0 Hn. rewrite <- (normalizeDate_of_Z (Samples.host [])).
    now apply normalizeDate_serial_nonzero.
  - apply normalizeDate_of_Z.
Qed.

(** The serial 45000.75, 18:00 on 2023-03-15; the last double below 45001,
    [45001 - 2^-37]; the serial 45000. *)
Lemma normalizeNumber_serial_witness :
  normalizeNumber (Fin (180003 * 2 ^ 1072)) = Normal (Some "2023-03-15")
  /\ normalizeNumber (Fin ((45001 * 2 ^ 37 - 1) * 2 ^ 1037)) = Normal (Some "2023-03-16")
  /\ normalizeNumber (of_Z 45000) = Normal (Some "2023-03-15").
Proof.
  destruct normalizeNumber_serial as (_ & Hfrac & Hint & _). split; [|split].
  - destruct (Hfrac (180003 * 2 ^ 1072) 45000) as [H _].
    + discriminate.
    + lia.
    + split; [apply Z.leb_le|apply Z.ltb_lt]; vm_compute; reflexivity.
    + rewrite H; [reflexivity|]. apply Z.leb_le. vm_compute. reflexivity.
  - destruct (Hfrac ((45001 * 2 ^ 37 - 1) * 2 ^ 1037) 45000) as (_ & H & _).
    + discriminate.
    + lia.
    + split; [apply Z.leb_le|apply Z.ltb_lt]; vm_compute; reflexivity.
    + rewrite H; [reflexivity|lia|]. apply Z.leb_le. vm_compute. reflexivity.
  - rewrite Hint; [reflexivity|discriminate|lia].
Defined.

(** The serial 0 is not mapped to the date 0 days after 1899-12-30. *)
Lemma normalizeNumber_zero :
  normalizeNumber (of_Z 0) = Normal None
  /\ normalizeDate (Samples.host []) (VNum 0) = Normal None
  /\ format_ymd (add_days serial_epoch 0) = "1899-12-30".
Proof. split; [|split]; reflexivity. Qed.

(** The arithmetic of the model against the binary64 numbers of the kernel,
    on serials of every kind: with and without a fraction, next to midnight,
    next to the epoch, subnormal, huge and infinite. *)
Example binary64_agrees :
  forallb (fun x : float =>
             same (of_float ((x - 25569) * 86400 * 1000)%float)
                  (times (times (minus (of_float x) 25569) 86400) 1000))
          [ 45000.75; 45000; 8.5; 0x1.999999999999ap-4; 0x1.5efffffffff77p+15;
            0x1.5f91fffffffffp+15; 0x1.8f84000000001p+14; 0x1.8f83ffffffffdp+14;
            0x1.422522c27a637p+15; -693959.5; 0x1.69240ffffffffp+21; 100025569.5;
            0x0.0000000000001p-1022; 0x0.00000000007e8p-1022; 0x1.1ccf385ebc8ap+1023;
            -0x1.7e43c8800759cp+996; 0x1.fffffffffffffp1023; infinity; neg_infinity; nan ]%float
  = true.
Proof. vm_compute. reflexivity. Qed.

(** Serials with a fraction: 18:00 on 2023-03-15; a thousandth of a
    millisecond before midnight, which is rounded to the next day; 0.1. *)
Example normalizeNumber_samples :
  map (fun x => normalizeNumber (of_float x))
      [ 45000.75; 0x1.5f91fffffffffp+15; 0x1.999999999999ap-4; 100025569.5; infinity; nan ]%float
  = [ Normal (Some "2023-03-15"); Normal (Some "2023-03-16"); Normal (Some "1899-12-30");
      Throw "Invalid time value"; Throw "Invalid time value"; Normal None ].
Proof. vm_compute. reflexivity. Qed.

End DoubleFacts.
